(** * lon-updater: a shallow embedding of [updater.py]

    The updater downloads a release and its SHA-256 reference, verifies the
    digest, stops the running application, takes a timestamped backup and
    swaps the new executable in, rolling back from the backup on failure.

    The Python code is embedded as functions in a state-and-exception monad
    over an explicit world: the file system, the directories, the log, the
    answers of the environment (network, process list, user) and a script of
    faults that decides which system call raises. *)

From Stdlib Require Import ZArith Lia Ascii String List DecimalString.
From stdpp Require Import base option strings gmap.

Local Open Scope string_scope.

(** ** Python [str] helpers (ASCII text) *)

Module Str.

(** [str.isspace] on one ASCII character: TAB..CR, FS..US and the space. *)
Definition is_space (c : ascii) : bool :=
  let n := nat_of_ascii c in
  ((9 <=? n)%nat && (n <=? 13)%nat) || ((28 <=? n)%nat && (n <=? 32)%nat).

(** [str.lower] on ASCII letters; other characters are kept. *)
Definition lower_char (c : ascii) : ascii :=
  let n := nat_of_ascii c in
  if ((65 <=? n)%nat && (n <=? 90)%nat)%bool then ascii_of_nat (n + 32) else c.

Fixpoint lower (s : string) : string :=
  match s with
  | EmptyString => EmptyString
  | String c r => String (lower_char c) (lower r)
  end.

Fixpoint lstrip (s : string) : string :=
  match s with
  | EmptyString => EmptyString
  | String c r => if is_space c then lstrip r else s
  end.

(** Remove trailing white space. *)
Fixpoint rstrip (s : string) : string :=
  match s with
  | EmptyString => EmptyString
  | String c r =>
      match rstrip r with
      | EmptyString => if is_space c then EmptyString else String c EmptyString
      | r' => String c r'
      end
  end.

Definition strip (s : string) : string := rstrip (lstrip s).

(** [str.split()] without separator: the maximal runs of characters that
    are not white space, in order.  [cur] is the run being read, reversed
    by accumulation at its end. *)
Fixpoint split_go (cur : string) (s : string) : list string :=
  match s with
  | EmptyString => match cur with EmptyString => [] | _ => [cur] end
  | String c r =>
      if is_space c
      then match cur with
           | EmptyString => split_go EmptyString r
           | _ => cur :: split_go EmptyString r
           end
      else split_go (cur ++ String c EmptyString) r
  end.

Definition split (s : string) : list string := split_go EmptyString s.

Fixpoint all_space (s : string) : bool :=
  match s with
  | EmptyString => true
  | String c r => is_space c && all_space r
  end.

Fixpoint no_space (s : string) : bool :=
  match s with
  | EmptyString => true
  | String c r => negb (is_space c) && no_space r
  end.

(** [str.startswith]. *)
Fixpoint startswith (s p : string) : bool :=
  match p, s with
  | EmptyString, _ => true
  | String _ _, EmptyString => false
  | String a p', String b s' => if Ascii.eqb a b then startswith s' p' else false
  end.

(** The last character of a text. *)
Fixpoint last_char (s : string) : option ascii :=
  match s with
  | EmptyString => None
  | String c EmptyString => Some c
  | String _ r => last_char r
  end.

(** What may follow a token: the end of the text or white space. *)
Definition boundary (s : string) : Prop :=
  match s with
  | EmptyString => True
  | String c _ => is_space c = true
  end.

(** Python truthiness of an optional string: [None] and [''] are false. *)
Definition truthy (o : option string) : bool :=
  match o with
  | Some (String _ _) => true
  | _ => false
  end.

End Str.

(** ** [os.path] (POSIX flavour: the separator is the slash) *)

Module Path.

(** [s.rpartition(c)] when [c] occurs: the text before and after the last
    occurrence of [c]. *)
Fixpoint rpartition (c : ascii) (s : string) : option (string * string) :=
  match s with
  | EmptyString => None
  | String a r =>
      match rpartition c r with
      | Some (h, t) => Some (String a h, t)
      | None => if Ascii.eqb a c then Some (EmptyString, r) else None
      end
  end.

Fixpoint all_char (c : ascii) (s : string) : bool :=
  match s with
  | EmptyString => true
  | String a r => Ascii.eqb a c && all_char c r
  end.

(** [s.rstrip(c)]. *)
Fixpoint rstrip_char (c : ascii) (s : string) : string :=
  match s with
  | EmptyString => EmptyString
  | String a r =>
      match rstrip_char c r with
      | EmptyString => if Ascii.eqb a c then EmptyString else String a EmptyString
      | r' => String a r'
      end
  end.

Definition basename (p : string) : string :=
  match rpartition "/" p with
  | Some (_, t) => t
  | None => p
  end.

Definition dirname (p : string) : string :=
  match rpartition "/" p with
  | None => EmptyString
  | Some (h, _) =>
      let head := h ++ "/" in
      if all_char "/" head then head else rstrip_char "/" head
  end.

(** [os.path.splitext]: the extension starts at the last dot of the last
    component, unless only dots precede it there. *)
Definition splitext (p : string) : string * string :=
  let '(dir, name) :=
    match rpartition "/" p with
    | Some (h, t) => (h ++ "/", t)
    | None => (EmptyString, p)
    end in
  match rpartition "." name with
  | Some (stem, e) =>
      if all_char "." stem then (p, EmptyString)
      else (dir ++ stem, String "." e)
  | None => (p, EmptyString)
  end.

Definition endswith_slash (p : string) : bool :=
  match rpartition "/" p with
  | Some (_, EmptyString) => true
  | _ => false
  end.

(** [os.path.join] of two components. *)
Definition join (a b : string) : string :=
  if Str.startswith b "/" then b
  else match a with
       | EmptyString => b
       | _ => if endswith_slash a then a ++ b else a ++ "/" ++ b
       end.

End Path.

(** ** [datetime.strftime] *)

Record datetime := {
  dt_year : nat; dt_month : nat; dt_day : nat;
  dt_hour : nat; dt_minute : nat; dt_second : nat
}.

Module Fmt.

Definition digit (n : nat) : ascii := ascii_of_nat (48 + n mod 10).

(** [n] in decimal on exactly [w] digits (zero padded, high digits cut). *)
Fixpoint digits (w n : nat) : string :=
  match w with
  | O => EmptyString
  | S w' => digits w' (n / 10) ++ String (digit n) EmptyString
  end.

(** [strftime('%Y%m%d_%H%M%S')]. *)
Definition stamp (d : datetime) : string :=
  digits 4 (dt_year d) ++ digits 2 (dt_month d) ++ digits 2 (dt_day d) ++ "_" ++
  digits 2 (dt_hour d) ++ digits 2 (dt_minute d) ++ digits 2 (dt_second d).

End Fmt.

(** ** The world *)

(** A file: its bytes and its metadata (mode bits, times), which
    [shutil.copy2] copies and a fresh file does not have. *)
Record file := { f_data : string; f_meta : N }.

Definition new_file (d : string) : file := {| f_data := d; f_meta := 0%N |}.

(** One entry of a fault script, consumed by a system call that can
    raise: the call goes through, raises before any effect, or (for a copy)
    raises after [n] bytes were written. *)
Inductive fault := NoFault | Fault | Partial (n : nat).

(** The kinds of system calls; each kind has its own fault script. *)
Inductive syscall :=
| ScRemove | ScMakedirs | ScCopy | ScReplace | ScRead
| ScMkstemp | ScWrite | ScTaskkill | ScOpenLog.

Global Instance syscall_eq_dec : EqDecision syscall.
Proof. solve_decision. Defined.

(** Python exceptions met in the program. *)
Inductive exn :=
| OSError | FileNotFoundError | FileExistsError | SameFileError
| NameError | URLError | EOFError | ValueError.

Definition exn_str (e : exn) : string :=
  match e with
  | OSError => "OSError" | FileNotFoundError => "FileNotFoundError"
  | FileExistsError => "FileExistsError" | SameFileError => "SameFileError"
  | NameError => "NameError" | URLError => "URLError"
  | EOFError => "EOFError" | ValueError => "ValueError"
  end.

(** What [urlopen] does for a URL. *)
Inductive response :=
| NetError
| Response (status : nat) (body : string).

(** System calls recorded in the trace (ghost state: the order and number
    of the calls the program makes). *)
Inductive event :=
| EvRemove (p : string)
| EvCopy (src dst : string)
| EvReplace (src dst : string)
| EvMakedirs (d : string)
| EvConfirm
| EvTaskkill (name : string).

Global Instance event_eq_dec : EqDecision event.
Proof. solve_decision. Defined.

(** The JSON configuration, as [config.get] sees it. *)
Record config := {
  releases_url : option string;
  expected_sha256_url : option string;
  app_process_name : option string;
  install_path : option string;
  backup_path : option string
}.

(** The configuration file: absent, not valid JSON, or loaded. *)
Inductive config_file := ConfigAbsent | ConfigInvalid | ConfigLoaded (c : config).

Record world := {
  w_fs : gmap string file;          (* regular files by path *)
  w_dirs : gset string;             (* directories *)
  w_log : list string;              (* messages passed to [log], oldest first *)
  w_trace : list event;             (* system calls made, oldest first *)
  w_faults : syscall -> list fault; (* fault scripts, one per kind of call *)
  w_tmpnames : list string;         (* names [mkstemp] will try *)
  w_tasklist : list (option (list string)); (* successive [tasklist] outputs *)
  w_stdin : list string;            (* lines [input()] will read *)
  w_net : string -> response;       (* the network *)
  w_now : datetime;                 (* the clock *)
  w_nt : bool;                      (* [os.name == 'nt'] *)
  w_msgbox : option Z;              (* [MessageBoxW] result, [None] if it raises *)
  w_argv0 : string;
  w_config : config_file
}.

Definition set_fs (f : gmap string file -> gmap string file) (w : world) : world :=
  {| w_fs := f (w_fs w); w_dirs := w_dirs w; w_log := w_log w; w_trace := w_trace w;
     w_faults := w_faults w; w_tmpnames := w_tmpnames w; w_tasklist := w_tasklist w;
     w_stdin := w_stdin w; w_net := w_net w; w_now := w_now w; w_nt := w_nt w;
     w_msgbox := w_msgbox w; w_argv0 := w_argv0 w; w_config := w_config w |}.

Definition set_dirs (f : gset string -> gset string) (w : world) : world :=
  {| w_fs := w_fs w; w_dirs := f (w_dirs w); w_log := w_log w; w_trace := w_trace w;
     w_faults := w_faults w; w_tmpnames := w_tmpnames w; w_tasklist := w_tasklist w;
     w_stdin := w_stdin w; w_net := w_net w; w_now := w_now w; w_nt := w_nt w;
     w_msgbox := w_msgbox w; w_argv0 := w_argv0 w; w_config := w_config w |}.

Definition set_log (f : list string -> list string) (w : world) : world :=
  {| w_fs := w_fs w; w_dirs := w_dirs w; w_log := f (w_log w); w_trace := w_trace w;
     w_faults := w_faults w; w_tmpnames := w_tmpnames w; w_tasklist := w_tasklist w;
     w_stdin := w_stdin w; w_net := w_net w; w_now := w_now w; w_nt := w_nt w;
     w_msgbox := w_msgbox w; w_argv0 := w_argv0 w; w_config := w_config w |}.

Definition set_trace (f : list event -> list event) (w : world) : world :=
  {| w_fs := w_fs w; w_dirs := w_dirs w; w_log := w_log w; w_trace := f (w_trace w);
     w_faults := w_faults w; w_tmpnames := w_tmpnames w; w_tasklist := w_tasklist w;
     w_stdin := w_stdin w; w_net := w_net w; w_now := w_now w; w_nt := w_nt w;
     w_msgbox := w_msgbox w; w_argv0 := w_argv0 w; w_config := w_config w |}.

Definition set_faults (f : (syscall -> list fault) -> syscall -> list fault) (w : world)
  : world :=
  {| w_fs := w_fs w; w_dirs := w_dirs w; w_log := w_log w; w_trace := w_trace w;
     w_faults := f (w_faults w); w_tmpnames := w_tmpnames w; w_tasklist := w_tasklist w;
     w_stdin := w_stdin w; w_net := w_net w; w_now := w_now w; w_nt := w_nt w;
     w_msgbox := w_msgbox w; w_argv0 := w_argv0 w; w_config := w_config w |}.

Definition set_tmpnames (f : list string -> list string) (w : world) : world :=
  {| w_fs := w_fs w; w_dirs := w_dirs w; w_log := w_log w; w_trace := w_trace w;
     w_faults := w_faults w; w_tmpnames := f (w_tmpnames w); w_tasklist := w_tasklist w;
     w_stdin := w_stdin w; w_net := w_net w; w_now := w_now w; w_nt := w_nt w;
     w_msgbox := w_msgbox w; w_argv0 := w_argv0 w; w_config := w_config w |}.

Definition set_tasklist
    (f : list (option (list string)) -> list (option (list string))) (w : world) : world :=
  {| w_fs := w_fs w; w_dirs := w_dirs w; w_log := w_log w; w_trace := w_trace w;
     w_faults := w_faults w; w_tmpnames := w_tmpnames w; w_tasklist := f (w_tasklist w);
     w_stdin := w_stdin w; w_net := w_net w; w_now := w_now w; w_nt := w_nt w;
     w_msgbox := w_msgbox w; w_argv0 := w_argv0 w; w_config := w_config w |}.

Definition set_stdin (f : list string -> list string) (w : world) : world :=
  {| w_fs := w_fs w; w_dirs := w_dirs w; w_log := w_log w; w_trace := w_trace w;
     w_faults := w_faults w; w_tmpnames := w_tmpnames w; w_tasklist := w_tasklist w;
     w_stdin := f (w_stdin w); w_net := w_net w; w_now := w_now w; w_nt := w_nt w;
     w_msgbox := w_msgbox w; w_argv0 := w_argv0 w; w_config := w_config w |}.

(** ** The monad: state, Python exceptions and [sys.exit] *)

(** A computation returns, raises an [Exception], or leaves through
    [sys.exit] ([SystemExit] is not an [Exception]: no handler of the
    program catches it). *)
Inductive res (A : Type) :=
| Ret (a : A)
| Raise (e : exn)
| Exit (code : Z).
Arguments Ret {A} a.
Arguments Raise {A} e.
Arguments Exit {A} code.

Definition M (A : Type) : Type := world -> res A * world.

Definition ret {A} (a : A) : M A := fun w => (Ret a, w).
Definition raise {A} (e : exn) : M A := fun w => (Raise e, w).
Definition sys_exit {A} (code : Z) : M A := fun w => (Exit code, w).

Definition bind {A B} (m : M A) (k : A -> M B) : M B :=
  fun w =>
    match m w with
    | (Ret a, w') => k a w'
    | (Raise e, w') => (Raise e, w')
    | (Exit c, w') => (Exit c, w')
    end.

(** [try: m  except Exception as ex: h ex]. *)
Definition try_except {A} (m : M A) (h : exn -> M A) : M A :=
  fun w =>
    match m w with
    | (Raise e, w') => h e w'
    | r => r
    end.

(** [try: m  finally: f] where [f] itself never raises. *)
Definition try_finally {A} (m : M A) (f : M unit) : M A :=
  fun w =>
    match m w with
    | (r, w') => (r, snd (f w'))
    end.

Declare Scope py_scope.
Delimit Scope py_scope with py.
Notation "x <- m ;; k" := (bind m (fun x => k))
  (at level 90, m at level 80, right associativity) : py_scope.
Notation "m ;;; k" := (bind m (fun _ => k))
  (at level 90, right associativity) : py_scope.
Local Open Scope py_scope.

Definition get {A} (f : world -> A) : M A := fun w => (Ret (f w), w).
Definition modify (f : world -> world) : M unit := fun w => (Ret tt, f w).

(** [try: m  except Exception: pass]. *)
Definition swallow (m : M unit) : M unit := try_except m (fun _ => ret tt).

(** ** System calls *)

(** The next entry of the fault script of [k]; an exhausted script means
    no fault. *)
Definition next_fault (k : syscall) (w : world) : fault :=
  match w_faults w k with
  | [] => NoFault
  | f :: _ => f
  end.

Definition drop_fault (k : syscall) (w : world) : world :=
  set_faults (fun fs k' => if decide (k' = k) then tail (fs k') else fs k') w.

Definition pop_fault (k : syscall) : M fault := fun w =>
  (Ret (next_fault k w), drop_fault k w).

Definition traced (ev : event) (w : world) : world :=
  set_trace (fun t => (t ++ [ev])%list) w.

Definition trace (ev : event) : M unit := modify (traced ev).

(** [log(msg)]: one line appended to the log (the time stamp of the line
    is left out); a failing write is ignored by the code. *)
Definition logged (msg : string) (w : world) : world :=
  set_log (fun l => (l ++ [msg])%list) w.

Definition log (msg : string) : M unit := modify (logged msg).

Definition os_path_isfile (p : string) : M bool :=
  get (fun w => bool_decide (is_Some (w_fs w !! p))).

Definition os_path_exists (p : string) : M bool :=
  get (fun w => bool_decide (is_Some (w_fs w !! p)) || bool_decide (p ∈ w_dirs w)).

(** [os.remove(p)]: raises when [p] is not there or the system refuses. *)
Definition os_remove (p : string) : M unit :=
  trace (EvRemove p);;;
  f <- pop_fault ScRemove;;
  present <- os_path_isfile p;;
  if negb present then raise FileNotFoundError
  else match f with
       | NoFault => modify (set_fs (delete p))
       | _ => raise OSError
       end.

(** [os.makedirs(d, exist_ok=True)]: the empty path is an error. *)
Definition os_makedirs (d : string) : M unit :=
  trace (EvMakedirs d);;;
  f <- pop_fault ScMakedirs;;
  match d with
  | EmptyString => raise FileNotFoundError
  | _ =>
      isf <- os_path_isfile d;;
      if isf then raise FileExistsError
      else match f with
           | NoFault => modify (set_dirs (fun ds => {[ d ]} ∪ ds))
           | _ => raise OSError
           end
  end.

(** [shutil.copy2(src, dst)] with [dst] a file path: bytes, then metadata.
    A fault leaves [dst] untouched, or holding a prefix of the bytes. *)
Definition shutil_copy2 (src dst : string) : M unit :=
  trace (EvCopy src dst);;;
  f <- pop_fault ScCopy;;
  o <- get (fun w => w_fs w !! src);;
  match o with
  | None => raise FileNotFoundError
  | Some fl =>
      if bool_decide (src = dst) then raise SameFileError
      else match f with
           | NoFault => modify (set_fs (insert dst fl))
           | Fault => raise OSError
           | Partial n =>
               modify (set_fs (insert dst (new_file (substring 0 n (f_data fl)))));;;
               raise OSError
           end
  end.

(** [os.replace(src, dst)]: all or nothing. *)
Definition os_replace (src dst : string) : M unit :=
  trace (EvReplace src dst);;;
  f <- pop_fault ScReplace;;
  o <- get (fun w => w_fs w !! src);;
  match o with
  | None => raise FileNotFoundError
  | Some fl =>
      match f with
      | NoFault => modify (set_fs (fun fs => <[dst := fl]> (delete src fs)))
      | _ => raise OSError
      end
  end.

(** [open(p).read()]: the whole content of [p]. *)
Definition read_file (p : string) : M string :=
  f <- pop_fault ScRead;;
  o <- get (fun w => w_fs w !! p);;
  match o with
  | None => raise FileNotFoundError
  | Some fl =>
      match f with
      | NoFault => ret (f_data fl)
      | _ => raise OSError
      end
  end.

(** [tempfile.mkstemp(suffix=...)]: a new empty file under the next name
    of the script, which must not exist yet. *)
Definition mkstemp (suffix : string) : M string :=
  f <- pop_fault ScMkstemp;;
  names <- get w_tmpnames;;
  match names with
  | [] => raise FileExistsError
  | n :: r =>
      modify (set_tmpnames (fun _ => r));;;
      let p := n ++ suffix in
      taken <- os_path_exists p;;
      if taken then raise FileExistsError
      else match f with
           | NoFault => modify (set_fs (insert p (new_file EmptyString)));;; ret p
           | _ => raise OSError
           end
  end.

(** [shutil.copyfileobj(resp, tmp_file)]: the body written to the open
    temporary file, possibly cut short by a fault. *)
Definition copyfileobj (body p : string) : M unit :=
  f <- pop_fault ScWrite;;
  match f with
  | NoFault => modify (set_fs (insert p (new_file body)))
  | Fault => raise OSError
  | Partial n => modify (set_fs (insert p (new_file (substring 0 n body))));;; raise OSError
  end.

Definition urlopen (url : string) : M (nat * string) :=
  r <- get (fun w => w_net w url);;
  match r with
  | NetError => raise URLError
  | Response st body => ret (st, body)
  end.

Definition nat_str (n : nat) : string := NilZero.string_of_uint (Nat.to_uint n).

(** ** The program *)

Section Updater.

(** [hashlib.sha256(data).hexdigest()], taken as given. *)
Variable sha256 : string -> string.

(** [download_to_temp(url, description)]: the path of the temporary file,
    [None] on any error. *)
Definition download_to_temp (url description : string) : M (option string) :=
  try_except
    (log ("Downloading " ++ description ++ " from " ++ url);;;
     r <- urlopen url;;
     let '(status, body) := r in
     if (400 <=? status)%nat
     then log ("Failed to download " ++ description ++ ": HTTP " ++ nat_str status);;;
          ret None
     else tmp_path <- mkstemp (snd (Path.splitext url));;
          copyfileobj body tmp_path;;;
          ret (Some tmp_path))
    (fun ex =>
       match ex with
       | URLError =>
           log ("Network error downloading " ++ description ++ ": " ++ exn_str ex)
       | _ =>
           log ("Unexpected error downloading " ++ description ++ ": " ++ exn_str ex)
       end;;;
       ret None).

(** The parsing step of [read_remote_checksum]: the first token of the
    stripped content, [None] when there is none. *)
Definition parse_checksum (content : string) : option string :=
  match Str.split (Str.strip content) with
  | [] => None
  | tok :: _ => Some (Str.strip tok)
  end.

(** The reference of the scenario: the digest, two spaces, the file name
    and a line feed. *)
Definition reference_example : string :=
  "BBB111  lon.exe" ++ String (ascii_of_nat 10) "".

Definition read_remote_checksum (url : string) : M (option string) :=
  o <- download_to_temp url "checksum";;
  match o with
  | Some (String _ _ as tmp_path) =>
      try_finally
        (try_except
           (text <- read_file tmp_path;;
            match parse_checksum text with
            | None => log "Checksum file is empty";;; ret None
            | Some checksum => ret (Some checksum)
            end)
           (fun ex => log ("Failed to read checksum file: " ++ exn_str ex);;; ret None))
        (swallow (os_remove tmp_path))
  | _ => ret None
  end.

(** [sha256_of_file(path)]: the chunks read are fed to one hasher, whose
    digest is that of the whole content. *)
Definition sha256_of_file (path : string) : M string :=
  data <- read_file path;;
  ret (sha256 data).

(** The digest of the file at [path], when there is one. *)
Definition digest_at (w : world) (path : string) : option string :=
  (fun fl => sha256 (f_data fl)) <$> w_fs w !! path.

Definition next_tasklist : M (option (list string)) := fun w =>
  match w_tasklist w with
  | [] => (Ret (Some []), w)
  | o :: r => (Ret o, set_tasklist (fun _ => r) w)
  end.

Definition is_process_running (name : string) : M bool :=
  nt <- get w_nt;;
  if negb nt then ret false
  else out <- next_tasklist;;
       match out with
       | None => ret false
       | Some lines =>
           ret (existsb (fun line => Str.startswith (Str.lower line) (Str.lower name)) lines)
       end.

(** The polling loop [for _ in range(n)] of [terminate_process]. *)
Fixpoint poll_stopped (n : nat) (name : string) : M unit :=
  match n with
  | O => ret tt
  | S k =>
      running <- is_process_running name;;
      if negb running then ret tt else poll_stopped k name
  end.

Definition taskkill (name : string) : M unit :=
  trace (EvTaskkill name);;;
  f <- pop_fault ScTaskkill;;
  match f with
  | NoFault => ret tt
  | _ => raise OSError
  end.

Definition terminate_process (name : string) : M bool :=
  nt <- get w_nt;;
  if negb nt then ret true
  else
    running <- is_process_running name;;
    if negb running then ret true
    else
      log (name ++ " is currently running. Attempting to terminate.");;;
      try_except
        (taskkill name;;;
         poll_stopped 10 name;;;
         still <- is_process_running name;;
         if still
         then log ("Unable to terminate " ++ name ++ "; it may require manual closure.");;;
              ret false
         else ret true)
        (fun ex => log ("Error terminating " ++ name ++ ": " ++ exn_str ex);;; ret false).

(** The console prompt of [confirm_update]: the answer and the lines left,
    [None] when the input ends first. *)
Fixpoint console_answer (lines : list string) : option bool * list string :=
  match lines with
  | [] => (None, [])
  | l :: r =>
      let choice := Str.lower (Str.strip l) in
      if bool_decide (choice = "y") || bool_decide (choice = "yes") then (Some true, r)
      else if bool_decide (choice = "n") || bool_decide (choice = "no")
              || bool_decide (choice = "") then (Some false, r)
      else console_answer r
  end.

Definition console_prompt : M bool :=
  lines <- get w_stdin;;
  let '(a, r) := console_answer lines in
  modify (set_stdin (fun _ => r));;;
  match a with
  | Some b => ret b
  | None => raise EOFError
  end.

Definition confirm_update : M bool :=
  trace EvConfirm;;;
  nt <- get w_nt;;
  box <- get w_msgbox;;
  match nt, box with
  | true, Some result => ret (result =? 6)%Z
  | _, _ => console_prompt
  end.

(** [backup_file(src_path, backup_dir)]: the path of the backup, [None]
    on error. *)
Definition backup_name (src_path : string) (now : datetime) : string :=
  fst (Path.splitext (Path.basename src_path)) ++ "_" ++ Fmt.stamp now ++ ".exe".

(** The backup name in the words of the specification:
    [<basename>_<YYYYMMDD_HHMMSS>.<ext>] with the extension of the
    installed file. *)
Definition spec_backup_name (src_path : string) (now : datetime) : string :=
  let '(base, ext) := Path.splitext (Path.basename src_path) in
  base ++ "_" ++ Fmt.stamp now ++ ext.

Definition backup_file (src_path backup_dir : string) : M (option string) :=
  try_except
    (os_makedirs backup_dir;;;
     now <- get w_now;;
     let backup_path := Path.join backup_dir (backup_name src_path now) in
     shutil_copy2 src_path backup_path;;;
     log ("Backed up current executable to " ++ backup_path);;;
     ret (Some backup_path))
    (fun ex =>
       log ("Failed to create backup of " ++ src_path ++ ": " ++ exn_str ex);;;
       ret None).

(** The handler of [atomic_replace].  [tmp_dest] is [None] when the
    exception came before the variable was assigned: reading it then
    raises [NameError], which the inner [try] swallows. *)
Definition replace_failed (dest : string) (tmp_dest : option string) (ex : exn) : M bool :=
  log ("Failed to replace " ++ dest ++ ": " ++ exn_str ex);;;
  swallow
    (match tmp_dest with
     | None => raise NameError
     | Some t =>
         there <- os_path_exists t;;
         if there then os_remove t else ret tt
     end);;;
  ret false.

Definition atomic_replace (src dest : string) : M bool :=
  let dest_dir := Path.dirname dest in
  try_except
    (os_makedirs dest_dir;;;
     let tmp_dest := dest ++ ".new" in
     try_except
       (shutil_copy2 src tmp_dest;;;
        os_replace tmp_dest dest;;;
        ret true)
       (replace_failed dest (Some tmp_dest)))
    (replace_failed dest None).

(** [setup_logging(log_dir)]. *)
Definition setup_logging (log_dir : string) : M unit :=
  os_makedirs log_dir;;;
  f <- pop_fault ScOpenLog;;
  match f with
  | NoFault => ret tt
  | _ => raise OSError
  end.

(** The rollback of [main]: the backup copied over the install path. *)
Definition rollback (backup_created install : string) : M unit :=
  try_except
    (shutil_copy2 backup_created install;;;
     log "Rollback succeeded.")
    (fun ex => log ("Rollback failed: " ++ exn_str ex)).

(** [main], from the replacement on: the backup (if one was made) is
    [backup_created]. *)
Definition replace_step (download_path install : string) (backup_created : option string)
  : M unit :=
  ok <- atomic_replace download_path install;;
  if negb ok
  then
    log "Failed to install update. Attempting rollback.";;;
    match backup_created with
    | Some (String _ _ as b) => rollback b install
    | _ => ret tt
    end;;;
    os_remove download_path;;;
    sys_exit 1
  else
    swallow (os_remove download_path);;;
    log "Update completed successfully.";;;
    log "==========================================".

(** [main], the backup and the replacement. *)
Definition backup_and_replace (download_path install backup_dir : string) : M unit :=
  installed <- os_path_isfile install;;
  backup_created <-
    (if installed
     then b <- backup_file install backup_dir;;
          if negb (Str.truthy b)
          then log "Failed to create backup; aborting update.";;;
               os_remove download_path;;; sys_exit 1
          else ret b
     else ret None);;
  replace_step download_path install backup_created.

(** [main], from the confirmation on. *)
Definition install_update (download_path install backup_dir process_name : string)
  : M unit :=
  yes <- confirm_update;;
  if negb yes
  then log "User declined update.";;; os_remove download_path;;; sys_exit 0
  else
    stopped <- terminate_process process_name;;
    if negb stopped
    then log "Update aborted because the application could not be closed.";;;
         os_remove download_path;;; sys_exit 1
    else backup_and_replace download_path install backup_dir.

(** [main], the comparison with the installed file. *)
Definition check_up_to_date (download_path install new_digest : string) : M unit :=
  installed <- os_path_isfile install;;
  if installed
  then
    try_except
      (current_digest <- sha256_of_file install;;
       if bool_decide (Str.lower current_digest = Str.lower new_digest)
       then log "Installed Lon.exe is already up to date. No update necessary.";;;
            os_remove download_path;;;
            sys_exit 0
       else ret tt)
      (fun ex => log ("Could not compute current executable checksum: " ++ exn_str ex))
  else ret tt.

(** [main], from the digest comparison on. *)
Definition verify_and_install
    (expected_digest new_digest download_path install backup_dir process_name : string)
  : M unit :=
  if negb (bool_decide (Str.lower new_digest = Str.lower expected_digest))
  then log "Checksum mismatch! Aborting update.";;;
       swallow (os_remove download_path);;;
       sys_exit 1
  else
    log "Checksum verified.";;;
    check_up_to_date download_path install new_digest;;;
    install_update download_path install backup_dir process_name.

(** [main], from the download of the reference on. *)
Definition fetch_and_update
    (releases checksum_url install backup_dir process_name : string) : M unit :=
  installed <- os_path_isfile install;;
  (if negb installed then log ("Current installation not found at " ++ install)
   else ret tt);;;
  expected <- read_remote_checksum checksum_url;;
  match expected with
  | Some (String _ _ as expected_digest) =>
      log ("Expected SHA-256: " ++ expected_digest);;;
      dl <- download_to_temp releases "Lon.exe";;
      match dl with
      | Some (String _ _ as download_path) =>
          new_digest <- sha256_of_file download_path;;
          log ("Downloaded file SHA-256: " ++ new_digest);;;
          verify_and_install expected_digest new_digest download_path
                             install backup_dir process_name
      | _ => log "Failed to download new release. Aborting.";;; sys_exit 1
      end
  | _ => log "Unable to retrieve expected checksum. Aborting.";;; sys_exit 1
  end.

Definition main : M unit :=
  argv0 <- get w_argv0;;
  let config_path := Path.join (Path.dirname argv0) "updater.config.json" in
  cf <- get w_config;;
  match cf with
  | ConfigAbsent => sys_exit 1
  | ConfigInvalid => raise ValueError
  | ConfigLoaded config =>
      setup_logging (Path.join (Path.dirname argv0) "logs");;;
      log "========== Starting Lon Updater ==========";;;
      log ("Using config: " ++ config_path);;;
      let process_name := default "Lon.exe" (app_process_name config) in
      match releases_url config, expected_sha256_url config,
            install_path config, backup_path config with
      | Some (String _ _ as releases), Some (String _ _ as checksum_url),
        Some (String _ _ as install), Some (String _ _ as backup_dir) =>
          fetch_and_update releases checksum_url install backup_dir process_name
      | _, _, _, _ =>
          log "Configuration is missing required fields (releases_url, expected_sha256_url, install_path, backup_path)";;;
          sys_exit 1
      end
  end.

(** The last log line of the runs that [main] ends with [sys.exit(0)]. *)
Definition exit0_lines : list string :=
  [ "Installed Lon.exe is already up to date. No update necessary.";
    "User declined update." ].

(** The last log line of the runs that [main] ends with [sys.exit(1)];
    a failed rollback also names the exception. *)
Definition exit1_lines : list string :=
  [ "Configuration is missing required fields (releases_url, expected_sha256_url, install_path, backup_path)";
    "Unable to retrieve expected checksum. Aborting.";
    "Failed to download new release. Aborting.";
    "Checksum mismatch! Aborting update.";
    "Update aborted because the application could not be closed.";
    "Failed to create backup; aborting update.";
    "Failed to install update. Attempting rollback.";
    "Rollback succeeded." ].

(** The exit code [c] goes with the last log line [line] ([None]: nothing
    was logged, the configuration file is absent). *)
Definition exit_line (c : Z) (line : option string) : Prop :=
  match line with
  | None => c = 1%Z
  | Some l =>
      (c = 0%Z /\ In l exit0_lines) \/
      (c = 1%Z /\ (In l exit1_lines \/ exists e, l = "Rollback failed: " ++ exn_str e))
  end.

(** The exit status of the process: 0 when [main] returns, the argument
    of [sys.exit], 1 for an exception nobody caught. *)
Definition exit_status {A} (r : res A) : Z :=
  match r with
  | Ret _ => 0
  | Exit c => c
  | Raise _ => 1
  end.

End Updater.

(** ** Predicates on computations *)

(** [m] never leaves through [sys.exit]. *)
Definition no_exit {A} (m : M A) : Prop :=
  forall w c w', m w <> (Exit c, w').

(** Whenever [m] leaves through [sys.exit], the code goes with the last
    log line. *)
Definition exits_ok {A} (m : M A) : Prop :=
  forall w c w', m w = (Exit c, w') -> exit_line c (last (w_log w')).

(** [m] does not log. *)
Definition keeps_log {A} (m : M A) : Prop :=
  forall w r w', m w = (r, w') -> w_log w' = w_log w.

(** [m] only adds to the log and to the trace. *)
Definition appends {A} (m : M A) : Prop :=
  forall w r w', m w = (r, w') ->
    (exists l, w_log w' = (w_log w ++ l)%list) /\
    (exists evs, w_trace w' = (w_trace w ++ evs)%list).

(** Whenever [m] returns, the world it leaves satisfies [P]. *)
Definition returns {A} (P : world -> Prop) (m : M A) : Prop :=
  forall w a w', m w = (Ret a, w') -> P w'.

(** The log ends with the two lines of a completed update. *)
Definition completed (w : world) : Prop :=
  exists l, w_log w =
    (l ++ ["Update completed successfully.";
           "=========================================="])%list.

(** What one line typed at the console prompt of [confirm_update] means:
    yes, no (a blank line is a no), or nothing, and the prompt is shown
    again. *)
Definition answer_of (line : string) : option bool :=
  let choice := Str.lower (Str.strip line) in
  if bool_decide (choice = "y") || bool_decide (choice = "yes") then Some true
  else if bool_decide (choice = "n") || bool_decide (choice = "no")
          || bool_decide (choice = "") then Some false
  else None.

(** [W] is [w] after [k] outputs of [tasklist] were consumed, with the
    files, the trace, the log and the platform as they were. *)
Definition polled (k : nat) (w W : world) : Prop :=
  w_tasklist W = drop k (w_tasklist w) /\ w_fs W = w_fs w /\
  w_trace W = w_trace w /\ w_log W = w_log w /\ w_nt W = w_nt w /\
  w_faults W = w_faults w.

(** ** Concrete worlds *)

Module Scenario.

Definition cfg : config :=
  {| releases_url := Some "http://host/Lon.exe";
     expected_sha256_url := Some "http://host/Lon.sha";
     app_process_name := None;
     install_path := Some "app/Lon.exe";
     backup_path := Some "bk" |}.

(** The server holds a release and its reference; the digest of the
    scenarios is the content itself. *)
Definition net (release reference : string) (u : string) : response :=
  if bool_decide (u = "http://host/Lon.exe") then Response 200 release
  else if bool_decide (u = "http://host/Lon.sha") then Response 200 reference
  else NetError.

Definition digest (data : string) : string := data.

Definition clock : datetime :=
  {| dt_year := 2024; dt_month := 3; dt_day := 9;
     dt_hour := 7; dt_minute := 5; dt_second := 0 |}.

Definition old_file : file := {| f_data := "OLD"; f_meta := 7%N |}.

(** An installation of [OLD], a server with the release [NEW] and the
    reference [new  Lon.exe], a user who answers [answer], and the fault
    scripts [faults]. *)
Definition start (answer : string) (faults : syscall -> list fault) : world :=
  {| w_fs := {[ "app/Lon.exe" := old_file ]};
     w_dirs := {[ "app" ]}; w_log := []; w_trace := [];
     w_faults := faults; w_tmpnames := ["/tmp/a"; "/tmp/b"];
     w_tasklist := []; w_stdin := [answer]; w_net := net "NEW" "new  Lon.exe";
     w_now := clock; w_nt := false; w_msgbox := None;
     w_argv0 := "up/updater.py"; w_config := ConfigLoaded cfg |}.

(** The same with the candidate already downloaded to [/tmp/b.exe]. *)
Definition downloaded (content answer : string) (faults : syscall -> list fault) : world :=
  set_fs (insert "/tmp/b.exe" (new_file content)) (start answer faults).

(** The same world with another release and reference on the server. *)
Definition serve (release reference : string) (w : world) : world :=
  {| w_fs := w_fs w; w_dirs := w_dirs w; w_log := w_log w; w_trace := w_trace w;
     w_faults := w_faults w; w_tmpnames := w_tmpnames w; w_tasklist := w_tasklist w;
     w_stdin := w_stdin w; w_net := net release reference; w_now := w_now w;
     w_nt := w_nt w; w_msgbox := w_msgbox w; w_argv0 := w_argv0 w;
     w_config := w_config w |}.

Definition no_faults : syscall -> list fault := fun _ => [].

(** Scripts with faults for one or two kinds of calls. *)
Definition faults1 (k : syscall) (l : list fault) : syscall -> list fault :=
  fun k' => if decide (k' = k) then l else [].

Definition faults2 (k1 : syscall) (l1 : list fault) (k2 : syscall) (l2 : list fault)
  : syscall -> list fault :=
  fun k' => if decide (k' = k1) then l1 else if decide (k' = k2) then l2 else [].

(** No call faults; the user accepts or declines. *)
Definition fault_free : world := start "y" no_faults.
Definition declines : world := start "n" no_faults.

(** The candidate is downloaded; the move fails after the copy. *)
Definition replace_fails : world :=
  downloaded "NEW" "y" (faults1 ScReplace [Fault]).


(** The copy of the backup breaks off after two bytes. *)
Definition backup_breaks : world := start "y" (faults1 ScCopy [Partial 2]).

(** An installed file that is not an [.exe]. *)
Definition tool_installed : world :=
  set_fs (insert "app/tool.bin" old_file) (start "y" no_faults).

(** The downloaded candidate [BAD] does not match the reference, and
    its removal faults. *)
Definition mismatch_remove_fails : world :=
  downloaded "BAD" "y" (faults1 ScRemove [Fault]).

(** The release on the server is the installed [OLD]; the second removal
    of the run, that of the candidate, faults. *)
Definition same_release_remove_fails : world :=
  serve "OLD" "old  Lon.exe" (start "y" (faults1 ScRemove [NoFault; Fault])).

(** The user declines, and the removal of the candidate faults. *)
Definition declined_remove_fails : world :=
  start "n" (faults1 ScRemove [NoFault; Fault]).

(** The digest of the installed file cannot be read. *)
Definition install_unreadable : world :=
  downloaded "NEW" "y" (faults1 ScRead [Fault]).

(** The candidate is downloaded and no call faults. *)
Definition candidate_ready : world := downloaded "NEW" "y" no_faults.

(** The write of a download breaks off after one byte. *)
Definition download_breaks : world := start "y" (faults1 ScWrite [Partial 1]).

(** Windows, with the application running and [taskkill] failing. *)
Definition kill_fails : world :=
  {| w_fs := {[ "app/Lon.exe" := old_file ]};
     w_dirs := {[ "app" ]}; w_log := []; w_trace := [];
     w_faults := faults1 ScTaskkill [Fault]; w_tmpnames := ["/tmp/a"; "/tmp/b"];
     w_tasklist := [Some ["System"; "lon.EXE   4242 Console"]];
     w_stdin := []; w_net := net "NEW" "new  Lon.exe";
     w_now := clock; w_nt := true; w_msgbox := Some 6%Z;
     w_argv0 := "up/updater.py"; w_config := ConfigLoaded cfg |}.

(** Windows, with [tasklist] failing. *)
Definition tasklist_fails : world :=
  {| w_fs := {[ "app/Lon.exe" := old_file ]};
     w_dirs := {[ "app" ]}; w_log := []; w_trace := [];
     w_faults := no_faults; w_tmpnames := ["/tmp/a"; "/tmp/b"];
     w_tasklist := [None];
     w_stdin := []; w_net := net "NEW" "new  Lon.exe";
     w_now := clock; w_nt := true; w_msgbox := Some 6%Z;
     w_argv0 := "up/updater.py"; w_config := ConfigLoaded cfg |}.

(** A console user who types something else, then a blank line. *)
Definition hesitant : world :=
  {| w_fs := {[ "app/Lon.exe" := old_file ]};
     w_dirs := {[ "app" ]}; w_log := []; w_trace := [];
     w_faults := no_faults; w_tmpnames := ["/tmp/a"; "/tmp/b"];
     w_tasklist := []; w_stdin := ["maybe"; "  "; "y"];
     w_net := net "NEW" "new  Lon.exe";
     w_now := clock; w_nt := false; w_msgbox := None;
     w_argv0 := "up/updater.py"; w_config := ConfigLoaded cfg |}.

(** A configuration without the install path. *)
Definition no_install_path : world :=
  {| w_fs := {[ "app/Lon.exe" := old_file ]};
     w_dirs := {[ "app" ]}; w_log := []; w_trace := [];
     w_faults := no_faults; w_tmpnames := ["/tmp/a"; "/tmp/b"];
     w_tasklist := []; w_stdin := ["y"];
     w_net := net "NEW" "new  Lon.exe";
     w_now := clock; w_nt := false; w_msgbox := None;
     w_argv0 := "up/updater.py";
     w_config := ConfigLoaded
       {| releases_url := Some "http://host/Lon.exe";
          expected_sha256_url := Some "http://host/Lon.sha";
          app_process_name := None; install_path := None;
          backup_path := Some "bk" |} |}.

(** The reference on the server is not the digest of the release. *)
Definition wrong_reference : world :=
  serve "NEW" "bad  Lon.exe" (start "y" no_faults).

(** There is no configuration file. *)
Definition config_absent : world :=
  {| w_fs := {[ "app/Lon.exe" := old_file ]};
     w_dirs := {[ "app" ]}; w_log := []; w_trace := [];
     w_faults := no_faults; w_tmpnames := ["/tmp/a"; "/tmp/b"];
     w_tasklist := []; w_stdin := ["y"];
     w_net := net "NEW" "new  Lon.exe";
     w_now := clock; w_nt := false; w_msgbox := None;
     w_argv0 := "up/updater.py"; w_config := ConfigAbsent |}.

(** The server cannot be reached. *)
Definition offline : world :=
  {| w_fs := {[ "app/Lon.exe" := old_file ]};
     w_dirs := {[ "app" ]}; w_log := []; w_trace := [];
     w_faults := no_faults; w_tmpnames := ["/tmp/a"; "/tmp/b"];
     w_tasklist := []; w_stdin := ["y"];
     w_net := fun _ => NetError;
     w_now := clock; w_nt := false; w_msgbox := None;
     w_argv0 := "up/updater.py"; w_config := ConfigLoaded cfg |}.

(** The temporary file of the second download, that of the release,
    cannot be created. *)
Definition release_not_stored : world := start "y" (faults1 ScMkstemp [NoFault; Fault]).

(** Nothing is installed yet, and the move fails. *)
Definition first_install_fails : world :=
  set_fs (delete "app/Lon.exe") (start "y" (faults1 ScReplace [Fault])).

(** The move fails; the rollback goes through. *)
Definition move_fails : world := start "y" (faults1 ScReplace [Fault]).

(** The move fails, and so does the third copy of the run, that of the
    rollback. *)
Definition rollback_fails : world :=
  start "y" (faults2 ScReplace [Fault] ScCopy [NoFault; NoFault; Fault]).

(** The release on the server is the installed [OLD]. *)
Definition same_release : world := serve "OLD" "old  Lon.exe" (start "y" no_faults).

(** The candidate is downloaded; the move fails after the copy, and the
    third copy of the run, that of the rollback, breaks off after one
    byte. *)
Definition rollback_breaks : world :=
  downloaded "NEW" "y" (faults2 ScReplace [Fault] ScCopy [NoFault; NoFault; Partial 1]).

End Scenario.

(** The run of [main] from [w], with the digest of the scenarios, ends
    with [r] and the last log line [line]. *)
Definition reaches (w : world) (r : res unit) (line : option string) : Prop :=
  fst (main Scenario.digest w) = r /\
  last (w_log (snd (main Scenario.digest w))) = line.

(** * Properties *)

(** ** Strings *)

Module StrFacts.
Import Str.

Lemma app_nil_l (s : string) : "" ++ s = s.
Proof. reflexivity. Qed.

Lemma app_cons (c : ascii) (a b : string) : String c a ++ b = String c (a ++ b).
Proof. reflexivity. Qed.

Ltac str_simpl := rewrite ?app_cons, ?app_nil_l in *; simpl in *.

Lemma app_empty_r (s : string) : s ++ "" = s.
Proof. induction s as [|c s IH]; str_simpl; [reflexivity | now rewrite IH]. Qed.

Lemma app_assoc (a b c : string) : (a ++ b) ++ c = a ++ (b ++ c).
Proof. induction a as [|x a IH]; str_simpl; [reflexivity | now rewrite IH]. Qed.

Lemma app_not_empty_r (a : string) (c : ascii) (b : string) :
  a ++ String c b <> "".
Proof. destruct a; discriminate. Qed.

Lemma lstrip_split (s : string) :
  exists ws, s = ws ++ lstrip s /\ all_space ws = true.
Proof.
  induction s as [|c s (ws & E & H)]; simpl.
  - exists ""; split; reflexivity.
  - destruct (is_space c) eqn:Hc.
    + exists (String c ws); str_simpl; rewrite Hc, H; split; [now rewrite <- E | reflexivity].
    + exists ""; split; reflexivity.
Qed.

Lemma rstrip_split (s : string) :
  exists ws, s = rstrip s ++ ws /\ all_space ws = true.
Proof.
  induction s as [|c s (ws & E & H)]; simpl.
  - exists ""; split; reflexivity.
  - destruct (rstrip s) as [|d r] eqn:Hr.
    + rewrite app_nil_l in E; subst ws.
      destruct (is_space c) eqn:Hc.
      * exists (String c s); simpl; rewrite Hc, H; split; reflexivity.
      * exists s; split; [reflexivity | exact H].
    + exists ws; split; [rewrite app_cons; now rewrite E at 1 | exact H].
Qed.

Lemma lstrip_head (s : string) :
  match lstrip s with
  | EmptyString => True
  | String c _ => is_space c = false
  end.
Proof.
  induction s as [|c s IH]; simpl; [exact I|].
  destruct (is_space c) eqn:Hc; [exact IH | exact Hc].
Qed.

Lemma rstrip_head (c : ascii) (s : string) :
  is_space c = false -> exists r, rstrip (String c s) = String c r.
Proof.
  intros Hc; simpl. destruct (rstrip s) as [|d r].
  - rewrite Hc; eexists; reflexivity.
  - eexists; reflexivity.
Qed.

Lemma strip_head (s : string) :
  match strip s with
  | EmptyString => True
  | String c _ => is_space c = false
  end.
Proof.
  unfold strip. pose proof (lstrip_head s) as H.
  destruct (lstrip s) as [|c r]; [exact I|].
  destruct (rstrip_head c r H) as (r' & ->). exact H.
Qed.

Lemma strip_split (s : string) :
  exists ws1 ws2, s = ws1 ++ strip s ++ ws2 /\
                  all_space ws1 = true /\ all_space ws2 = true.
Proof.
  destruct (lstrip_split s) as (ws1 & E1 & H1).
  destruct (rstrip_split (lstrip s)) as (ws2 & E2 & H2).
  exists ws1, ws2; unfold strip; repeat split; try assumption.
  now rewrite <- E2.
Qed.

Lemma lstrip_no_space (s : string) : no_space s = true -> lstrip s = s.
Proof.
  destruct s as [|c s]; simpl; [reflexivity|].
  destruct (is_space c); [discriminate | reflexivity].
Qed.

Lemma rstrip_no_space (s : string) : no_space s = true -> rstrip s = s.
Proof.
  induction s as [|c s IH]; simpl; [reflexivity|].
  destruct (is_space c) eqn:Hc; simpl; [discriminate|].
  intros H; rewrite (IH H). destruct s; reflexivity.
Qed.

Lemma strip_no_space (s : string) : no_space s = true -> strip s = s.
Proof.
  intros H; unfold strip. now rewrite (lstrip_no_space s H), (rstrip_no_space s H).
Qed.

Lemma no_space_snoc (cur : string) (c : ascii) :
  no_space cur = true -> is_space c = false -> no_space (cur ++ String c "") = true.
Proof.
  intros Hcur Hc. induction cur as [|x cur IH]; str_simpl.
  - now rewrite Hc.
  - destruct (is_space x); simpl in *; [discriminate | auto].
Qed.

Lemma split_go_nil (s cur : string) :
  split_go cur s = [] -> cur = "" /\ all_space s = true.
Proof.
  revert cur; induction s as [|c s IH]; intros cur; simpl.
  - destruct cur; [auto | discriminate].
  - destruct (is_space c) eqn:Hc.
    + destruct cur; [|discriminate]. intros H; destruct (IH _ H); auto.
    + intros H; destruct (IH _ H) as [E _]. now apply app_not_empty_r in E.
Qed.

Lemma split_go_head (s : string) : forall cur t l,
  no_space cur = true ->
  split_go cur s = t :: l ->
  exists ws u rest,
    s = ws ++ u ++ rest /\ t = cur ++ u /\ all_space ws = true /\
    no_space u = true /\ (cur <> "" -> ws = "") /\ t <> "" /\ boundary rest.
Proof.
  induction s as [|c s IH]; intros cur t l Hcur; simpl.
  - destruct cur as [|x cur]; [discriminate|]. intros [= <- <-].
    exists "", "", ""; repeat split; rewrite ?app_empty_r; auto; try discriminate; exact I.
  - destruct (is_space c) eqn:Hc.
    + destruct cur as [|x cur].
      * intros H.
        destruct (IH _ _ _ Hcur H) as (ws & u & rest & -> & -> & Hws & Hu & _ & Ht & Hb).
        exists (String c ws), u, rest; simpl; rewrite Hc, Hws.
        repeat split; auto. intros F; now elim F.
      * intros [= <- <-].
        exists "", "", (String c s).
        repeat split; rewrite ?app_empty_r; auto; try discriminate; exact Hc.
    + intros H.
      destruct (IH _ _ _ (no_space_snoc _ _ Hcur Hc) H)
        as (ws & u & rest & -> & -> & Hws & Hu & Hnil & Ht & Hb).
      rewrite (Hnil (app_not_empty_r _ _ _)) in *.
      exists "", (String c u), rest; simpl; rewrite Hc, Hu.
      rewrite app_assoc in *. rewrite !app_nil_l, !app_cons, ?app_nil_l in *.
      repeat split; auto.
Qed.

End StrFacts.

(** ** Paths and time stamps, on examples *)

Module PathFacts.

Example basename_ex : Path.basename "C:/app/Lon.exe" = "Lon.exe".
Proof. reflexivity. Qed.
Example dirname_ex : Path.dirname "C:/app/Lon.exe" = "C:/app".
Proof. reflexivity. Qed.
Example dirname_bare : Path.dirname "Lon.exe" = "".
Proof. reflexivity. Qed.
Example splitext_ex : Path.splitext "a/b.c/Lon.tar.gz" = ("a/b.c/Lon.tar", ".gz").
Proof. reflexivity. Qed.
Example splitext_dot : Path.splitext "a/.bashrc" = ("a/.bashrc", "").
Proof. reflexivity. Qed.
Example join_ex : Path.join "bk" "Lon_x.exe" = "bk/Lon_x.exe".
Proof. reflexivity. Qed.
Example stamp_ex :
  Fmt.stamp {| dt_year := 2024; dt_month := 3; dt_day := 9;
               dt_hour := 7; dt_minute := 5; dt_second := 0 |} = "20240309_070500".
Proof. reflexivity. Qed.
Example split_ex : Str.split (Str.strip "  ab  cd ") = ["ab"; "cd"].
Proof. reflexivity. Qed.

End PathFacts.

(** ** The digest reference *)

(** C8. [parse_checksum], the parsing step of [read_remote_checksum],
    returns the first white-space separated token of the content: the
    content is white space, then the token (not empty, free of white
    space), then the end or white space.  It returns no digest exactly
    when the content is empty after trimming; the scenario's reference
    yields [BBB111]. *)
Theorem parse_checksum_first_token (content : string) :
  match parse_checksum content with
  | None => Str.strip content = ""
  | Some tok =>
      Str.strip content <> "" /\
      exists ws rest,
        content = ws ++ tok ++ rest /\ Str.all_space ws = true /\
        Str.no_space tok = true /\ tok <> "" /\ Str.boundary rest
  end /\
  parse_checksum reference_example = Some "BBB111".
Proof.
  split; [|reflexivity].
  unfold parse_checksum, Str.split.
  destruct (Str.split_go "" (Str.strip content)) as [|t l] eqn:E.
  - apply StrFacts.split_go_nil in E as [_ E].
    pose proof (StrFacts.strip_head content) as H.
    destruct (Str.strip content) as [|c r]; [reflexivity|].
    simpl in E. rewrite H in E. discriminate.
  - split.
    + intros F; rewrite F in E; discriminate.
    + destruct (StrFacts.split_go_head _ "" _ _ eq_refl E)
        as (ws & u & rest & E1 & -> & Hws & Hu & _ & Ht & Hb).
      rewrite StrFacts.app_nil_l in *.
      rewrite (StrFacts.strip_no_space u Hu).
      destruct (StrFacts.strip_split content) as (ws1 & ws2 & Ec & H1 & H2).
      pose proof (StrFacts.strip_head content) as Hh.
      assert (ws = "") as ->.
      { destruct ws as [|c ws]; [reflexivity|].
        rewrite E1, StrFacts.app_cons in Hh. simpl in Hws. rewrite Hh in Hws. discriminate. }
      rewrite StrFacts.app_nil_l in E1.
      exists ws1, (rest ++ ws2); repeat split; auto.
      * rewrite Ec, E1, StrFacts.app_assoc. reflexivity.
      * destruct rest as [|c rest]; [|exact Hb].
        rewrite StrFacts.app_nil_l. destruct ws2 as [|c ws2]; [exact I|].
        simpl in *. now destruct (Str.is_space c).
Qed.

(** ** System calls, run on a world *)

Module Run.

Ltac wsimpl :=
  cbn [w_fs w_dirs w_log w_trace w_faults w_tmpnames w_tasklist w_stdin w_net w_now
       w_nt w_msgbox w_argv0 w_config set_fs set_dirs set_log set_trace set_faults
       set_tmpnames set_tasklist set_stdin drop_fault fst snd] in *.

Lemma bind_run {A B} (m : M A) (k : A -> M B) (w : world) :
  bind m k w =
  match m w with
  | (Ret a, w1) => k a w1
  | (Raise e, w1) => (Raise e, w1)
  | (Exit c, w1) => (Exit c, w1)
  end.
Proof. reflexivity. Qed.

(** A run is known by its result and its final world. *)
Lemma run_pair {A} (x : res A * world) (r : res A) : fst x = r -> x = (r, snd x).
Proof. intros <-. apply surjective_pairing. Qed.

Lemma log_run (msg : string) (w : world) : log msg w = (Ret tt, logged msg w).
Proof. reflexivity. Qed.

Lemma next_fault_drop_ne (k k' : syscall) (w : world) :
  k <> k' -> next_fault k (drop_fault k' w) = next_fault k w.
Proof.
  intros H. unfold next_fault, drop_fault; cbn [w_faults set_faults].
  destruct (decide (k = k')); [contradiction | reflexivity].
Qed.

Lemma faults_drop_ne (k k' : syscall) (w : world) :
  k <> k' -> w_faults (drop_fault k' w) k = w_faults w k.
Proof.
  intros H. unfold drop_fault; cbn [w_faults set_faults].
  destruct (decide (k = k')); [contradiction | reflexivity].
Qed.

Lemma next_fault_nil (k : syscall) (w : world) :
  w_faults w k = [] -> next_fault k w = NoFault.
Proof. unfold next_fault; now intros ->. Qed.

Lemma os_remove_run (p : string) (w : world) :
  os_remove p w =
  let W := drop_fault ScRemove (traced (EvRemove p) w) in
  match w_fs w !! p with
  | None => (Raise FileNotFoundError, W)
  | Some _ =>
      match next_fault ScRemove w with
      | NoFault => (Ret tt, set_fs (delete p) W)
      | _ => (Raise OSError, W)
      end
  end.
Proof.
  unfold os_remove, os_path_isfile, trace, pop_fault, modify, get, raise, bind.
  cbn. destruct (w_fs w !! p); cbn; [|reflexivity].
  destruct (next_fault ScRemove _) eqn:E; reflexivity.
Qed.

Lemma os_makedirs_run (d : string) (w : world) :
  os_makedirs d w =
  let W := drop_fault ScMakedirs (traced (EvMakedirs d) w) in
  match d with
  | EmptyString => (Raise FileNotFoundError, W)
  | _ =>
      match w_fs w !! d with
      | Some _ => (Raise FileExistsError, W)
      | None =>
          match next_fault ScMakedirs w with
          | NoFault => (Ret tt, set_dirs (fun ds => {[ d ]} ∪ ds) W)
          | _ => (Raise OSError, W)
          end
      end
  end.
Proof.
  unfold os_makedirs, os_path_isfile, trace, pop_fault, modify, get, raise, bind.
  cbn. destruct d; [reflexivity|]. cbn.
  destruct (w_fs w !! _); cbn; [reflexivity|].
  destruct (next_fault ScMakedirs _); reflexivity.
Qed.

Lemma shutil_copy2_run (src dst : string) (w : world) :
  shutil_copy2 src dst w =
  let W := drop_fault ScCopy (traced (EvCopy src dst) w) in
  match w_fs w !! src with
  | None => (Raise FileNotFoundError, W)
  | Some fl =>
      if bool_decide (src = dst) then (Raise SameFileError, W)
      else match next_fault ScCopy w with
           | NoFault => (Ret tt, set_fs (insert dst fl) W)
           | Fault => (Raise OSError, W)
           | Partial n =>
               (Raise OSError, set_fs (insert dst (new_file (substring 0 n (f_data fl)))) W)
           end
  end.
Proof.
  unfold shutil_copy2, trace, pop_fault, modify, get, raise, bind.
  cbn. destruct (w_fs w !! src); cbn; [|reflexivity].
  destruct (bool_decide (src = dst)); [reflexivity|].
  destruct (next_fault ScCopy _); reflexivity.
Qed.

Lemma os_replace_run (src dst : string) (w : world) :
  os_replace src dst w =
  let W := drop_fault ScReplace (traced (EvReplace src dst) w) in
  match w_fs w !! src with
  | None => (Raise FileNotFoundError, W)
  | Some fl =>
      match next_fault ScReplace w with
      | NoFault => (Ret tt, set_fs (fun fs => <[dst := fl]> (delete src fs)) W)
      | _ => (Raise OSError, W)
      end
  end.
Proof.
  unfold os_replace, trace, pop_fault, modify, get, raise, bind.
  cbn. destruct (w_fs w !! src); cbn; [|reflexivity].
  destruct (next_fault ScReplace _); reflexivity.
Qed.

Lemma read_file_run (p : string) (w : world) :
  read_file p w =
  let W := drop_fault ScRead w in
  match w_fs w !! p with
  | None => (Raise FileNotFoundError, W)
  | Some fl =>
      match next_fault ScRead w with
      | NoFault => (Ret (f_data fl), W)
      | _ => (Raise OSError, W)
      end
  end.
Proof.
  unfold read_file, pop_fault, get, raise, ret, bind.
  cbn. destruct (w_fs w !! p); cbn; [|reflexivity].
  destruct (next_fault ScRead _); reflexivity.
Qed.

End Run.

(** ** Backup and replace engine *)

Module Engine.
Import Run.

Lemma length_append (a b : string) :
  String.length (a ++ b) = (String.length a + String.length b)%nat.
Proof.
  induction a as [|x a IH]; [reflexivity|].
  rewrite StrFacts.app_cons; cbn; now rewrite IH.
Qed.

Lemma tmp_dest_ne (dest : string) : dest ++ ".new" <> dest.
Proof.
  intros H. apply (f_equal String.length) in H.
  rewrite length_append in H. cbn in H. lia.
Qed.

Ltac no_copy :=
  let H := fresh in
  intros ? ? H;
  repeat (apply elem_of_cons in H as [H|H]; [try discriminate H; try (now inversion H)|]);
  try (now apply elem_of_nil in H).

Ltac fail_with H :=
  match goal with
  | |- context [replace_failed ?dest (Some ?t) ?e ?W] =>
      let w' := fresh "w'" in
      let E := fresh "E" in
      let P := fresh "P" in
      destruct (H e W) as (w' & E & P);
      [ .. | rewrite E; exists false, w'; split; [reflexivity | exact P] ]
  end.

Ltac leaf := unfold ret; eexists; split; [reflexivity|]; unfold traced, logged in *; wsimpl.

Lemma replace_failed_some (dest t : string) (e : exn) (w : world) :
  exists w', replace_failed dest (Some t) e w = (Ret false, w') /\
    (forall p, p <> t -> w_fs w' !! p = w_fs w !! p) /\
    (w_faults w ScRemove = [] -> w_fs w' !! t = None) /\
    (exists evs, w_trace w' = (w_trace w ++ evs)%list /\
                 forall s d, EvCopy s d ∉ evs).
Proof.
  unfold replace_failed, swallow, try_except.
  rewrite bind_run, log_run, bind_run, bind_run.
  unfold os_path_exists at 1, get at 1.
  set (W := logged _ w).
  assert (HW : w_fs W = w_fs w) by reflexivity.
  assert (HF : next_fault ScRemove W = next_fault ScRemove w) by reflexivity.
  assert (HT : w_trace W = w_trace w) by reflexivity.
  clearbody W.
  destruct (bool_decide (is_Some (w_fs W !! t)) || bool_decide (t ∈ w_dirs W)) eqn:Hex.
  - rewrite os_remove_run. cbn zeta.
    destruct (w_fs W !! t) eqn:Ht.
    + destruct (next_fault ScRemove W) eqn:Hf; leaf; rewrite HW, HT.
      * split; [intros p Hp; now rewrite lookup_delete_ne|].
        split; [intros _; now rewrite lookup_delete_eq|].
        exists [EvRemove t]; split; [reflexivity|]. no_copy.
      * split; [reflexivity|].
        split; [intros Hn; rewrite (next_fault_nil _ _ Hn) in HF; discriminate HF|].
        exists [EvRemove t]; split; [reflexivity|]. no_copy.
      * split; [reflexivity|].
        split; [intros Hn; rewrite (next_fault_nil _ _ Hn) in HF; discriminate HF|].
        exists [EvRemove t]; split; [reflexivity|]. no_copy.
    + leaf. rewrite HW, HT. split; [reflexivity|].
      split; [intros _; now rewrite <- HW|].
      exists [EvRemove t]; split; [reflexivity|]. no_copy.
  - leaf. rewrite HT.
    apply orb_false_iff in Hex as [Hex _].
    apply bool_decide_eq_false in Hex. rewrite HW in *.
    split; [reflexivity|]. split.
    + intros _. destruct (w_fs w !! t) eqn:E; [|reflexivity]. exfalso; apply Hex; eauto.
    + exists []; split; [now rewrite app_nil_r|]. no_copy.
Qed.

Lemma replace_failed_none (dest : string) (e : exn) (w : world) :
  replace_failed dest None e w =
  (Ret false, logged ("Failed to replace " ++ dest ++ ": " ++ exn_str e) w).
Proof. reflexivity. Qed.

Lemma atomic_replace_spec (src dest : string) (w : world) :
  exists b w', atomic_replace src dest w = (Ret b, w') /\
    (exists evs, w_trace w' = (w_trace w ++ evs)%list /\
                 forall s d, EvCopy s d ∈ evs -> d = dest ++ ".new") /\
    (b = false ->
       w_fs w' !! dest = w_fs w !! dest /\
       (forall p, p <> dest ++ ".new" -> w_fs w' !! p = w_fs w !! p) /\
       (w_faults w ScRemove = [] ->
          w_fs w' !! (dest ++ ".new") = None \/ w_fs w' = w_fs w)).
Proof.
  assert (Hdest : forall w' : world,
            (forall p, p <> dest ++ ".new" -> w_fs w' !! p = w_fs w !! p) ->
            w_fs w' !! dest = w_fs w !! dest).
  { intros w' H; apply H. intros E; symmetry in E; now apply tmp_dest_ne in E. }
  unfold atomic_replace, try_except.
  rewrite bind_run, os_makedirs_run. cbn zeta.
  set (W0 := drop_fault ScMakedirs (traced (EvMakedirs (Path.dirname dest)) w)).
  assert (Hnone : forall e,
    exists b w', replace_failed dest None e W0 = (Ret b, w') /\
    (exists evs, w_trace w' = (w_trace w ++ evs)%list /\
                 forall s d, EvCopy s d ∈ evs -> d = dest ++ ".new") /\
    (b = false ->
       w_fs w' !! dest = w_fs w !! dest /\
       (forall p, p <> dest ++ ".new" -> w_fs w' !! p = w_fs w !! p) /\
       (w_faults w ScRemove = [] ->
          w_fs w' !! (dest ++ ".new") = None \/ w_fs w' = w_fs w))).
  { intros e. rewrite replace_failed_none. eexists _, _; split; [reflexivity|].
    split; [|intros _; repeat split; auto].
    exists [EvMakedirs (Path.dirname dest)]; split; [reflexivity|]. no_copy. }
  destruct (Path.dirname dest) as [|c d] eqn:Hd; [apply Hnone|].
  destruct (w_fs w !! String c d); [apply Hnone|].
  destruct (next_fault ScMakedirs w); [|apply Hnone ..].
  clear Hnone.
  set (W1 := set_dirs _ W0).
  assert (F1 : w_fs W1 = w_fs w) by reflexivity.
  assert (T1 : w_trace W1 = (w_trace w ++ [EvMakedirs (String c d)])%list) by reflexivity.
  assert (R1 : w_faults W1 ScRemove = w_faults w ScRemove) by reflexivity.
  clearbody W1. clear W0.
  set (tmp := dest ++ ".new") in *.
  rewrite bind_run, shutil_copy2_run. cbn zeta.
  set (W2 := drop_fault ScCopy (traced (EvCopy src tmp) W1)).
  assert (F2 : w_fs W2 = w_fs w) by (now rewrite <- F1).
  assert (T2 : w_trace W2 = (w_trace w ++ [EvMakedirs (String c d); EvCopy src tmp])%list).
  { unfold W2, traced; wsimpl. rewrite T1, <- app_assoc. reflexivity. }
  assert (R2 : w_faults W2 ScRemove = w_faults w ScRemove) by (now rewrite <- R1).
  clearbody W2.
  assert (Hfail : forall e (W : world),
    (forall p, p <> tmp -> w_fs W !! p = w_fs w !! p) ->
    w_faults W ScRemove = w_faults w ScRemove ->
    (exists evs, w_trace W = (w_trace w ++ evs)%list /\
                 forall s d, EvCopy s d ∈ evs -> d = tmp) ->
    exists w', replace_failed dest (Some tmp) e W = (Ret false, w') /\
    (exists evs, w_trace w' = (w_trace w ++ evs)%list /\
                 forall s d, EvCopy s d ∈ evs -> d = tmp) /\
    (false = false ->
       w_fs w' !! dest = w_fs w !! dest /\
       (forall p, p <> tmp -> w_fs w' !! p = w_fs w !! p) /\
       (w_faults w ScRemove = [] -> w_fs w' !! tmp = None \/ w_fs w' = w_fs w))).
  { intros e W HF HR (evs & HT & Hevs).
    destruct (replace_failed_some dest tmp e W) as (w' & -> & G1 & G2 & (evs' & G3 & G4)).
    eexists; split; [reflexivity|]. split.
    - exists (evs ++ evs')%list. rewrite G3, HT, <- app_assoc. split; [reflexivity|].
      intros s t [H|H]%elem_of_app; [eauto | now apply G4 in H].
    - intros _.
      assert (G : forall p, p <> tmp -> w_fs w' !! p = w_fs w !! p).
      { intros p Hp. rewrite G1 by exact Hp. now apply HF. }
      repeat split; auto. intros Hn; left; apply G2. now rewrite HR. }
  assert (Hev2 : exists evs, w_trace W2 = (w_trace w ++ evs)%list /\
                             forall s d, EvCopy s d ∈ evs -> d = tmp).
  { eexists; split; [exact T2|]. intros s t H.
    apply elem_of_cons in H as [H|H]; [discriminate H|].
    apply elem_of_cons in H as [H|H]; [now inversion H | now apply elem_of_nil in H]. }
  destruct (w_fs W1 !! src) as [fl|] eqn:Hsrc.
  2:{ fail_with Hfail; auto. intros; now rewrite F2. }
  destruct (bool_decide (src = tmp)).
  { fail_with Hfail; auto. intros; now rewrite F2. }
  destruct (next_fault ScCopy W1).
  2:{ fail_with Hfail; auto. intros; now rewrite F2. }
  2:{ fail_with Hfail; wsimpl; auto. intros p Hp; wsimpl. rewrite lookup_insert_ne by auto.
      now rewrite F2. }
  set (W3 := set_fs _ W2).
  assert (F3 : w_fs W3 = <[tmp := fl]> (w_fs w)) by (unfold W3; wsimpl; now rewrite F2).
  assert (T3 : w_trace W3 = (w_trace w ++ [EvMakedirs (String c d); EvCopy src tmp])%list)
    by exact T2.
  assert (R3 : w_faults W3 ScRemove = w_faults w ScRemove) by exact R2.
  clearbody W3.
  rewrite bind_run, os_replace_run. cbn zeta.
  rewrite F3, lookup_insert_eq.
  assert (Hev3 : exists evs,
     w_trace (drop_fault ScReplace (traced (EvReplace tmp dest) W3)) = (w_trace w ++ evs)%list /\
     forall s d, EvCopy s d ∈ evs -> d = tmp).
  { unfold traced; wsimpl. rewrite T3, <- app_assoc. eexists; split; [reflexivity|].
    intros s t H. cbn in H.
    repeat (apply elem_of_cons in H as [H|H]; [try discriminate H; try (now inversion H)|]).
    now apply elem_of_nil in H. }
  destruct (next_fault ScReplace W3).
  - cbn. exists true; eexists; split; [reflexivity|]. split; [exact Hev3 | discriminate].
  - fail_with Hfail; auto.
    intros p Hp; unfold traced; wsimpl. now rewrite F3, lookup_insert_ne.
  - fail_with Hfail; auto.
    intros p Hp; unfold traced; wsimpl. now rewrite F3, lookup_insert_ne.
Qed.





(** [atomic_replace] always returns a boolean: it neither raises nor
    exits. *)
Lemma atomic_replace_total (src dest : string) (w : world) :
  exists b w', atomic_replace src dest w = (Ret b, w').
Proof.
  destruct (atomic_replace_spec src dest w) as (b & w1 & E & _). eauto.
Qed.




Lemma backup_file_run (src dir : string) (w : world) :
  backup_file src dir w =
  let bp := Path.join dir (backup_name src (w_now w)) in
  let failed e := "Failed to create backup of " ++ src ++ ": " ++ exn_str e in
  match os_makedirs dir w with
  | (Ret _, W1) =>
      match shutil_copy2 src bp W1 with
      | (Ret _, W2) =>
          (Ret (Some bp), logged ("Backed up current executable to " ++ bp) W2)
      | (Raise e, W2) => (Ret None, logged (failed e) W2)
      | (Exit c, W2) => (Exit c, W2)
      end
  | (Raise e, W1) => (Ret None, logged (failed e) W1)
  | (Exit c, W1) => (Exit c, W1)
  end.
Proof.
  unfold backup_file, try_except. rewrite bind_run.
  assert (Hnow : w_now (snd (os_makedirs dir w)) = w_now w).
  { rewrite os_makedirs_run. cbn zeta.
    destruct dir; [reflexivity|]. destruct (w_fs w !! _); [reflexivity|].
    destruct (next_fault ScMakedirs w); reflexivity. }
  destruct (os_makedirs dir w) as [[[]|e|c] W1]; cbn [snd] in Hnow; try reflexivity.
  rewrite bind_run. unfold get at 1. rewrite Hnow. cbn zeta.
  rewrite bind_run.
  destruct (shutil_copy2 src _ W1) as [[[]|e|c] W2]; reflexivity.
Qed.

(** What a successful backup did: the directory exists, and the one file
    written is the copy, bytes and metadata, under the stamped name. *)
Lemma backup_file_some (src dir p : string) (w w' : world) :
  backup_file src dir w = (Ret (Some p), w') ->
  p = Path.join dir (backup_name src (w_now w)) /\
  w_dirs w' = {[ dir ]} ∪ w_dirs w /\
  (exists fl, w_fs w !! src = Some fl /\ w_fs w' = <[p := fl]> (w_fs w)) /\
  w_trace w' = (w_trace w ++ [EvMakedirs dir; EvCopy src p])%list /\
  w_faults w' ScRemove = w_faults w ScRemove.
Proof.
  rewrite backup_file_run. cbn zeta.
  rewrite os_makedirs_run. cbn zeta.
  destruct dir as [|c d]; [discriminate|].
  destruct (w_fs w !! String c d); [discriminate|].
  destruct (next_fault ScMakedirs w); try discriminate.
  rewrite shutil_copy2_run. cbn zeta. unfold traced; wsimpl.
  destruct (w_fs w !! src) as [fl|]; [|discriminate].
  destruct (bool_decide _); [discriminate|].
  destruct (next_fault ScCopy _); try discriminate.
  intros [= <- <-]. unfold logged; wsimpl.
  repeat split; eauto. now rewrite <- app_assoc.
Qed.

(** [backup_file] reports every failure by returning [None]: it never
    raises and never exits. *)
Lemma backup_file_total (src dir : string) (w : world) :
  exists o w', backup_file src dir w = (Ret o, w').
Proof.
  rewrite backup_file_run. cbn zeta. rewrite os_makedirs_run. cbn zeta.
  destruct dir as [|c d]; [eauto|].
  destruct (w_fs w !! String c d); [eauto|].
  destruct (next_fault ScMakedirs w); eauto.
  rewrite shutil_copy2_run. cbn zeta.
  destruct (w_fs _ !! src) as [fl|]; [|eauto].
  destruct (bool_decide _); [eauto|].
  destruct (next_fault ScCopy _); eauto.
Qed.


(** C6 (as amended).  A successful [backup_file] has created the backup
    directory if needed and written exactly one file, the copy of the
    installed file with its metadata, named
    [<basename>_<YYYYMMDD_HHMMSS>.exe] inside it: the extension is always
    [.exe], whatever the extension of the installed file. *)
Theorem backup_file_writes_stamped_exe (src dir p : string) (w w' : world) :
  backup_file src dir w = (Ret (Some p), w') ->
  p = Path.join dir
        (fst (Path.splitext (Path.basename src)) ++ "_" ++ Fmt.stamp (w_now w) ++ ".exe") /\
  dir ∈ w_dirs w' /\
  exists fl, w_fs w !! src = Some fl /\ w_fs w' = <[p := fl]> (w_fs w).
Proof.
  intros H. apply backup_file_some in H as (-> & Hd & Hf & _).
  repeat split; [|exact Hf]. rewrite Hd.
  apply elem_of_union_l, elem_of_singleton. reflexivity.
Qed.

Lemma backup_file_writes_stamped_exe_witness :
  backup_file "app/Lon.exe" "bk" Scenario.fault_free =
    (Ret (Some "bk/Lon_20240309_070500.exe"),
     snd (backup_file "app/Lon.exe" "bk" Scenario.fault_free)) /\
  "bk" ∈ w_dirs (snd (backup_file "app/Lon.exe" "bk" Scenario.fault_free)) /\
  w_fs (snd (backup_file "app/Lon.exe" "bk" Scenario.fault_free))
    !! "bk/Lon_20240309_070500.exe" = Some Scenario.old_file.
Proof.
  assert (H : backup_file "app/Lon.exe" "bk" Scenario.fault_free =
    (Ret (Some "bk/Lon_20240309_070500.exe"),
     snd (backup_file "app/Lon.exe" "bk" Scenario.fault_free)))
    by (apply run_pair; vm_compute; reflexivity).
  destruct (backup_file_writes_stamped_exe _ _ _ _ _ H) as (_ & Hd & fl & Hfl & Hfs).
  split; [exact H|]. split; [exact Hd|].
  rewrite Hfs, lookup_insert_eq, <- Hfl. reflexivity.
Defined.

(** C6 as stated fails: the backup of [tool.bin] is named [.exe], not
    with the extension of the installed file. *)
Lemma backup_file_not_source_extension :
  ~ (forall (src dir p : string) (w w' : world),
       backup_file src dir w = (Ret (Some p), w') ->
       p = Path.join dir (spec_backup_name src (w_now w))).
Proof.
  intros H.
  specialize (H "app/tool.bin" "bk" "bk/tool_20240309_070500.exe" Scenario.tool_installed
                (snd (backup_file "app/tool.bin" "bk" Scenario.tool_installed))).
  assert (F : "bk/tool_20240309_070500.exe" = "bk/tool_20240309_070500.bin").
  { apply H. apply run_pair; vm_compute; reflexivity. }
  discriminate F.
Qed.

(** C5, at the failing input: when the copy breaks off after two bytes,
    [backup_file] reports the failure and the truncated backup file, which
    was not there before, stays in the backup directory. *)
Theorem backup_file_leaves_partial :
  let w := Scenario.backup_breaks in
  let w' := snd (backup_file "app/Lon.exe" "bk" w) in
  fst (backup_file "app/Lon.exe" "bk" w) = Ret None /\
  w_fs w !! "bk/Lon_20240309_070500.exe" = None /\
  w_fs w' !! "bk/Lon_20240309_070500.exe" = Some (new_file "OL") /\
  EvRemove "bk/Lon_20240309_070500.exe" ∉ w_trace w'.
Proof.
  vm_compute. repeat split. intros H.
  repeat (apply elem_of_cons in H as [H|H]; [discriminate H|]).
  now apply elem_of_nil in H.
Qed.


Lemma last_char_app (a b : string) :
  b <> "" -> Str.last_char (a ++ b) = Str.last_char b.
Proof.
  intros Hb. induction a as [|x a IH]; [reflexivity|].
  rewrite StrFacts.app_cons. cbn. rewrite IH.
  destruct (a ++ b) eqn:E; [|reflexivity].
  destruct a; [rewrite StrFacts.app_nil_l in E; contradiction | discriminate E].
Qed.

Lemma join_suffix (a b : string) : exists pre, Path.join a b = pre ++ b.
Proof.
  unfold Path.join. destruct (Str.startswith b "/"); [now exists ""|].
  destruct a as [|x a]; [now exists ""|].
  destruct (Path.endswith_slash _); [now eexists|].
  exists (String x a ++ "/"). now rewrite StrFacts.app_assoc.
Qed.

(** A backup path ends in [e]: it is neither empty nor the temporary file
    of a replacement, which ends in [w]. *)
Lemma backup_path_last (src dir : string) (now : datetime) :
  Str.last_char (Path.join dir (backup_name src now)) = Some "e"%char.
Proof.
  destruct (join_suffix dir (backup_name src now)) as (pre & ->).
  unfold backup_name. rewrite <- !StrFacts.app_assoc.
  rewrite last_char_app by discriminate. reflexivity.
Qed.

Lemma backup_path_not_tmp (src dir dest : string) (now : datetime) :
  Path.join dir (backup_name src now) <> dest ++ ".new".
Proof.
  intros E. apply (f_equal Str.last_char) in E.
  rewrite backup_path_last, last_char_app in E by discriminate. discriminate E.
Qed.

Lemma backup_path_truthy (src dir : string) (now : datetime) :
  Str.truthy (Some (Path.join dir (backup_name src now))) = true.
Proof.
  pose proof (backup_path_last src dir now) as H.
  destruct (Path.join _ _); [discriminate H | reflexivity].
Qed.


(** A failed [atomic_replace] changes no path but its temporary file. *)
Lemma atomic_replace_failure_frame (src dest : string) (w w' : world) :
  atomic_replace src dest w = (Ret false, w') ->
  forall p, p <> dest ++ ".new" -> w_fs w' !! p = w_fs w !! p.
Proof.
  intros H.
  destruct (atomic_replace_spec src dest w) as (b & w1 & E & _ & Hf).
  rewrite E in H. injection H as -> ->.
  now destruct (Hf eq_refl) as (_ & H2 & _).
Qed.

Lemma rollback_run (b install : string) (w : world) :
  rollback b install w =
  match shutil_copy2 b install w with
  | (Ret _, W) => (Ret tt, logged "Rollback succeeded." W)
  | (Raise e, W) => (Ret tt, logged ("Rollback failed: " ++ exn_str e) W)
  | (Exit c, W) => (Exit c, W)
  end.
Proof.
  unfold rollback, try_except. rewrite bind_run.
  destruct (shutil_copy2 b install w) as [[[]|e|c] W]; reflexivity.
Qed.

Lemma last_logged (msg : string) (w : world) : last (w_log (logged msg w)) = Some msg.
Proof. unfold logged; wsimpl. apply last_snoc. Qed.

(** The end of the failure branch of [replace_step]: the candidate is
    removed with a bare [os.remove], then the process exits with 1. *)
Lemma remove_then_exit (dl : string) (w : world) :
  exists r w', (os_remove dl;;; sys_exit (A:=unit) 1)%py w = (r, w') /\
    exit_status (r : res unit) = 1%Z /\
    w_log w' = w_log w /\
    w_trace w' = (w_trace w ++ [EvRemove dl])%list /\
    forall p, p <> dl -> w_fs w' !! p = w_fs w !! p.
Proof.
  rewrite bind_run, os_remove_run. cbn zeta.
  destruct (w_fs w !! dl).
  - destruct (next_fault ScRemove w); eexists _, _; (split; [reflexivity|]);
      unfold traced; wsimpl; repeat split; auto.
    intros p Hp. now rewrite lookup_delete_ne.
  - eexists _, _; split; [reflexivity|]; unfold traced; wsimpl; repeat split; auto.
Qed.

(** A backup is never the file it was made from. *)
Lemma backup_file_ne_src (src dir p : string) (w w' : world) :
  backup_file src dir w = (Ret (Some p), w') -> p <> src.
Proof.
  intros Hb ->. revert Hb.
  rewrite backup_file_run. cbv zeta. rewrite os_makedirs_run. cbv zeta.
  destruct dir as [|c d]; [discriminate|].
  destruct (w_fs w !! String c d); [discriminate|].
  destruct (next_fault ScMakedirs w); try discriminate.
  rewrite shutil_copy2_run. cbv zeta. unfold traced; wsimpl.
  destruct (w_fs w !! src) as [fl|]; [|discriminate].
  destruct (bool_decide (src = _)) eqn:Hs; [discriminate|].
  apply bool_decide_eq_false in Hs.
  destruct (next_fault ScCopy _); try discriminate.
  intros [= E _]. now apply Hs.
Qed.

(** C4 (as amended).  When [atomic_replace] fails after [backup_file] made
    a backup of the installed file, the install path still holds the
    pre-update file, and [main] attempts a rollback: one [shutil.copy2]
    from the backup to the install path, right after the failed
    replacement; it then attempts to remove the candidate and ends with
    status 1.
    What the rollback leaves depends on that copy.  When it succeeds, the
    last log line is "Rollback succeeded." and the install path holds the
    pre-update file, so its digest is the pre-update digest.  When it
    fails, the last log line is "Rollback failed: OSError"; the install
    path holds the pre-update file if nothing was written, and only the
    bytes written so far if the copy broke off part-way. *)
Theorem rollback_restores_install
    (sha256 : string -> string) (dl install bdir b : string) (w w1 w2 : world)
    (fl : file) :
  dl <> install ->
  w_fs w !! install = Some fl ->
  backup_file install bdir w = (Ret (Some b), w1) ->
  atomic_replace dl install w1 = (Ret false, w2) ->
  exists r w',
    backup_and_replace dl install bdir w = (r, w') /\
    exit_status r = 1%Z /\
    w_trace w' = (w_trace w2 ++ [EvCopy b install; EvRemove dl])%list /\
    w_fs w2 !! install = Some fl /\
    match next_fault ScCopy w2 with
    | NoFault =>
        last (w_log w') = Some "Rollback succeeded." /\
        w_fs w' !! install = Some fl /\
        digest_at sha256 w' install = digest_at sha256 w install
    | Fault =>
        last (w_log w') = Some "Rollback failed: OSError" /\
        w_fs w' !! install = Some fl /\
        digest_at sha256 w' install = digest_at sha256 w install
    | Partial n =>
        last (w_log w') = Some "Rollback failed: OSError" /\
        w_fs w' !! install = Some (new_file (substring 0 n (f_data fl))) /\
        digest_at sha256 w' install = Some (sha256 (substring 0 n (f_data fl)))
    end.
Proof.
  intros Hne Hfl Hb Hr.
  pose proof (backup_file_ne_src _ _ _ _ _ Hb) as Hbi.
  pose proof Hb as Hb'.
  apply backup_file_some in Hb' as (Eb & _ & (fl' & Hfl' & Hfs1) & _ & _).
  rewrite Hfl in Hfl'. injection Hfl' as <-.
  pose proof (atomic_replace_failure_frame _ _ _ _ Hr) as Hframe.
  assert (Hb2 : w_fs w2 !! b = Some fl).
  { rewrite Hframe, Hfs1, lookup_insert_eq; [reflexivity|].
    rewrite Eb. apply backup_path_not_tmp. }
  assert (Hi2 : w_fs w2 !! install = Some fl).
  { rewrite Hframe; [|intros E; symmetry in E; now apply tmp_dest_ne in E].
    rewrite Hfs1, lookup_insert_ne by exact Hbi. exact Hfl. }
  assert (Hdig : forall w' : world,
            w_fs w' !! install = Some fl ->
            digest_at sha256 w' install = digest_at sha256 w install).
  { intros w' E. unfold digest_at. now rewrite E, Hfl. }
  unfold backup_and_replace.
  rewrite bind_run. unfold os_path_isfile at 1, get at 1.
  rewrite bool_decide_eq_true_2 by eauto.
  rewrite bind_run, bind_run, Hb.
  assert (Ht : Str.truthy (Some b) = true) by (rewrite Eb; apply backup_path_truthy).
  rewrite Ht. cbn [negb]. unfold ret at 1.
  unfold replace_step. rewrite bind_run, Hr. cbn [negb].
  rewrite bind_run, log_run, bind_run.
  destruct b as [|c0 b0]; [discriminate Ht|].
  set (b := String c0 b0) in *.
  rewrite rollback_run, shutil_copy2_run. cbn zeta.
  set (W := logged _ w2).
  assert (HW : w_fs W = w_fs w2) by reflexivity.
  assert (HT : w_trace W = w_trace w2) by reflexivity.
  assert (HN : next_fault ScCopy W = next_fault ScCopy w2) by reflexivity.
  clearbody W. rewrite HW, Hb2, HN.
  rewrite bool_decide_eq_false_2 by exact Hbi.
  assert (HT1 : w_trace (drop_fault ScCopy (traced (EvCopy b install) W))
                = (w_trace w2 ++ [EvCopy b install])%list).
  { unfold traced; wsimpl. now rewrite HT. }
  assert (HF1 : w_fs (drop_fault ScCopy (traced (EvCopy b install) W)) = w_fs w2)
    by exact HW.
  set (W0 := drop_fault ScCopy (traced (EvCopy b install) W)) in *.
  clearbody W0.
  destruct (next_fault ScCopy w2) as [| |n]; cbv beta iota zeta.
  - destruct (remove_then_exit dl (logged "Rollback succeeded." (set_fs (insert install fl) W0)))
      as (r & w' & E & Hx & Hl & Ht' & Hf).
    exists r, w'. split; [exact E|]. split; [exact Hx|].
    split; [rewrite Ht'; unfold logged; wsimpl; now rewrite HT1, <- app_assoc|].
    split; [exact Hi2|].
    assert (Hi : w_fs w' !! install = Some fl).
    { rewrite Hf by auto. unfold logged; wsimpl. now rewrite lookup_insert_eq. }
    split; [rewrite Hl; apply last_logged|]. split; [exact Hi | now apply Hdig].
  - destruct (remove_then_exit dl (logged ("Rollback failed: " ++ exn_str OSError) W0))
      as (r & w' & E & Hx & Hl & Ht' & Hf).
    exists r, w'. split; [exact E|]. split; [exact Hx|].
    split; [rewrite Ht'; unfold logged; wsimpl; now rewrite HT1, <- app_assoc|].
    split; [exact Hi2|].
    assert (Hi : w_fs w' !! install = Some fl).
    { rewrite Hf by auto. unfold logged; wsimpl. now rewrite HF1. }
    split; [rewrite Hl; apply last_logged|]. split; [exact Hi | now apply Hdig].
  - destruct (remove_then_exit dl
                (logged ("Rollback failed: " ++ exn_str OSError)
                   (set_fs (insert install (new_file (substring 0 n (f_data fl)))) W0)))
      as (r & w' & E & Hx & Hl & Ht' & Hf).
    exists r, w'. split; [exact E|]. split; [exact Hx|].
    split; [rewrite Ht'; unfold logged; wsimpl; now rewrite HT1, <- app_assoc|].
    split; [exact Hi2|].
    assert (Hi : w_fs w' !! install = Some (new_file (substring 0 n (f_data fl)))).
    { rewrite Hf by auto. unfold logged; wsimpl. now rewrite lookup_insert_eq. }
    split; [rewrite Hl; apply last_logged|]. split; [exact Hi|].
    unfold digest_at. now rewrite Hi.
Qed.

Lemma rollback_restores_install_witness :
  exists r w',
    backup_and_replace "/tmp/b.exe" "app/Lon.exe" "bk" Scenario.replace_fails = (r, w') /\
    exit_status r = 1%Z /\
    last (w_log w') = Some "Rollback succeeded." /\
    w_fs w' !! "app/Lon.exe" = Some Scenario.old_file /\
    digest_at Scenario.digest w' "app/Lon.exe"
      = digest_at Scenario.digest Scenario.replace_fails "app/Lon.exe".
Proof.
  assert (Hb : backup_file "app/Lon.exe" "bk" Scenario.replace_fails
               = (Ret (Some "bk/Lon_20240309_070500.exe"),
                  snd (backup_file "app/Lon.exe" "bk" Scenario.replace_fails)))
    by (apply run_pair; vm_compute; reflexivity).
  assert (Hr : atomic_replace "/tmp/b.exe" "app/Lon.exe"
                 (snd (backup_file "app/Lon.exe" "bk" Scenario.replace_fails))
               = (Ret false,
                  snd (atomic_replace "/tmp/b.exe" "app/Lon.exe"
                         (snd (backup_file "app/Lon.exe" "bk" Scenario.replace_fails)))))
    by (apply run_pair; vm_compute; reflexivity).
  destruct (rollback_restores_install Scenario.digest "/tmp/b.exe" "app/Lon.exe" "bk"
              _ Scenario.replace_fails _ _ Scenario.old_file
              ltac:(discriminate) eq_refl Hb Hr) as (r & w' & E & Hx & _ & _ & H).
  assert (Hn : next_fault ScCopy
                 (snd (atomic_replace "/tmp/b.exe" "app/Lon.exe"
                         (snd (backup_file "app/Lon.exe" "bk" Scenario.replace_fails))))
               = NoFault) by (vm_compute; reflexivity).
  rewrite Hn in H. destruct H as (H1 & H2 & H3).
  exists r, w'. auto.
Defined.

(** C4 as stated fails: the backup is made, the replacement fails, and the
    rollback copy breaks off after one byte; the install path then holds
    [O] where it held [OLD], so its digest is no longer the pre-update
    digest. *)
Lemma rollback_may_truncate_install :
  ~ (forall (sha256 : string -> string) (dl install bdir b : string)
            (w w1 w2 w' : world) (r : res unit),
       dl <> install ->
       is_Some (w_fs w !! install) ->
       backup_file install bdir w = (Ret (Some b), w1) ->
       atomic_replace dl install w1 = (Ret false, w2) ->
       backup_and_replace dl install bdir w = (r, w') ->
       EvCopy b install ∈ w_trace w' /\
       digest_at sha256 w' install = digest_at sha256 w install).
Proof.
  intros H.
  destruct (H Scenario.digest "/tmp/b.exe" "app/Lon.exe" "bk" "bk/Lon_20240309_070500.exe"
              Scenario.rollback_breaks
              (snd (backup_file "app/Lon.exe" "bk" Scenario.rollback_breaks))
              (snd (atomic_replace "/tmp/b.exe" "app/Lon.exe"
                      (snd (backup_file "app/Lon.exe" "bk" Scenario.rollback_breaks))))
              (snd (backup_and_replace "/tmp/b.exe" "app/Lon.exe" "bk"
                      Scenario.rollback_breaks))
              (fst (backup_and_replace "/tmp/b.exe" "app/Lon.exe" "bk"
                      Scenario.rollback_breaks))) as [_ F].
  - discriminate.
  - exists Scenario.old_file. reflexivity.
  - apply run_pair; vm_compute; reflexivity.
  - apply run_pair; vm_compute; reflexivity.
  - apply surjective_pairing.
  - vm_compute in F. discriminate F.
Qed.

End Engine.

(** ** Orchestrator *)

Module Orchestrator.
Import Run.

Section WithDigest.

Variable sha256 : string -> string.

(** [try: os.remove(p)  except Exception: pass], run on a world. *)
Lemma swallow_remove_run (p : string) (w : world) :
  swallow (os_remove p) w =
  let W := drop_fault ScRemove (traced (EvRemove p) w) in
  match w_fs w !! p, next_fault ScRemove w with
  | Some _, NoFault => (Ret tt, set_fs (delete p) W)
  | _, _ => (Ret tt, W)
  end.
Proof.
  unfold swallow, try_except. rewrite os_remove_run. cbn zeta.
  destruct (w_fs w !! p); [|reflexivity].
  destruct (next_fault ScRemove w); reflexivity.
Qed.

(** C2 (as amended).  When the digest of the candidate differs from the
    reference, compared without case, the run exits with status 1 after
    the line "Checksum mismatch! Aborting update.".  It makes one system
    call, the removal of the candidate, so no backup is created and no
    file is written; the install path is untouched; and the candidate is
    gone when the removal does not fault (the code ignores a failed
    removal, which leaves the candidate on disk). *)
Theorem checksum_mismatch_aborts
    (expected new_digest dl install bdir pn : string) (w : world) :
  Str.lower new_digest <> Str.lower expected ->
  exists w',
    verify_and_install sha256 expected new_digest dl install bdir pn w = (Exit 1, w') /\
    last (w_log w') = Some "Checksum mismatch! Aborting update." /\
    w_trace w' = (w_trace w ++ [EvRemove dl])%list /\
    w_dirs w' = w_dirs w /\
    (w_fs w' = w_fs w \/ w_fs w' = delete dl (w_fs w)) /\
    (dl <> install -> w_fs w' !! install = w_fs w !! install) /\
    (next_fault ScRemove w = NoFault -> w_fs w' !! dl = None).
Proof.
  intros Hne. unfold verify_and_install.
  rewrite bool_decide_eq_false_2 by exact Hne. cbn [negb].
  rewrite bind_run, log_run, bind_run, swallow_remove_run. cbn zeta.
  set (W := logged _ w).
  assert (HF : w_fs W = w_fs w) by reflexivity.
  assert (HN : next_fault ScRemove W = next_fault ScRemove w) by reflexivity.
  assert (HL : last (w_log W) = Some "Checksum mismatch! Aborting update.")
    by apply last_snoc.
  assert (HT : w_trace W = w_trace w) by reflexivity.
  assert (HD : w_dirs W = w_dirs w) by reflexivity.
  clearbody W. rewrite HF, HN.
  destruct (w_fs w !! dl) as [fl|] eqn:Hdl;
    [destruct (next_fault ScRemove w) eqn:Hn|];
    eexists; (split; [reflexivity|]); unfold traced; wsimpl;
    rewrite HL, HT, HD, HF; repeat split; auto;
    try (intros; now rewrite ?lookup_delete_ne, ?lookup_delete_eq by auto);
    try discriminate.
Qed.

End WithDigest.

Lemma checksum_mismatch_aborts_witness :
  exists w',
    verify_and_install Scenario.digest "new" "BAD" "/tmp/b.exe" "app/Lon.exe" "bk" "Lon.exe"
      (Scenario.downloaded "BAD" "y" Scenario.no_faults) = (Exit 1, w') /\
    w_fs w' !! "/tmp/b.exe" = None.
Proof.
  destruct (checksum_mismatch_aborts Scenario.digest "new" "BAD" "/tmp/b.exe"
              "app/Lon.exe" "bk" "Lon.exe"
              (Scenario.downloaded "BAD" "y" Scenario.no_faults))
    as (w' & E & _ & _ & _ & _ & _ & H).
  - vm_compute. discriminate.
  - exists w'. split; [exact E|]. apply H. reflexivity.
Defined.

(** C2 as stated fails: with a removal that faults, the run aborts on the
    mismatch and the candidate is still on disk. *)
Lemma checksum_mismatch_keeps_candidate :
  ~ (forall (sha256 : string -> string)
            (expected new_digest dl install bdir pn : string) (w w' : world),
       Str.lower new_digest <> Str.lower expected ->
       verify_and_install sha256 expected new_digest dl install bdir pn w = (Exit 1, w') ->
       w_fs w' !! dl = None /\ w_fs w' !! install = w_fs w !! install).
Proof.
  intros H.
  destruct (H Scenario.digest "new" "BAD" "/tmp/b.exe" "app/Lon.exe" "bk" "Lon.exe"
              Scenario.mismatch_remove_fails
              (snd (verify_and_install Scenario.digest "new" "BAD" "/tmp/b.exe"
                      "app/Lon.exe" "bk" "Lon.exe" Scenario.mismatch_remove_fails)))
    as [F _].
  - vm_compute. discriminate.
  - apply run_pair; vm_compute; reflexivity.
  - vm_compute in F. discriminate F.
Qed.


Section UpToDate.

Variable sha256 : string -> string.

Lemma sha256_of_file_run (path : string) (w : world) :
  sha256_of_file sha256 path w =
  let W := drop_fault ScRead w in
  match w_fs w !! path with
  | None => (Raise FileNotFoundError, W)
  | Some fl =>
      match next_fault ScRead w with
      | NoFault => (Ret (sha256 (f_data fl)), W)
      | _ => (Raise OSError, W)
      end
  end.
Proof.
  unfold sha256_of_file. rewrite bind_run, read_file_run. cbn zeta.
  destruct (w_fs w !! path); [|reflexivity].
  destruct (next_fault ScRead w); reflexivity.
Qed.

(** A digest of the installed file that cannot be read is logged and
    swallowed: what follows is [install_update], on a world where nothing
    but the log and the fault script of the reads has changed. *)
Lemma digest_error_swallowed
    (expected new_digest dl install bdir pn : string) (w : world) :
  Str.lower new_digest = Str.lower expected ->
  is_Some (w_fs w !! install) ->
  next_fault ScRead w <> NoFault ->
  verify_and_install sha256 expected new_digest dl install bdir pn w =
  install_update dl install bdir pn
    (logged "Could not compute current executable checksum: OSError"
       (drop_fault ScRead (logged "Checksum verified." w))).
Proof.
  intros He [fl Hfl] Hn. unfold verify_and_install.
  rewrite bool_decide_eq_true_2 by exact He. cbn [negb].
  rewrite bind_run, log_run, bind_run.
  unfold check_up_to_date. rewrite bind_run.
  unfold os_path_isfile at 1, get at 1.
  replace (w_fs (logged "Checksum verified." w)) with (w_fs w) by reflexivity.
  rewrite bool_decide_eq_true_2 by eauto.
  unfold try_except. rewrite bind_run, sha256_of_file_run. cbn zeta.
  replace (w_fs (logged "Checksum verified." w)) with (w_fs w) by reflexivity.
  replace (next_fault ScRead (logged "Checksum verified." w))
    with (next_fault ScRead w) by reflexivity.
  rewrite Hfl. destruct (next_fault ScRead w); [contradiction | reflexivity ..].
Qed.

(** When the digests are equal and no call faults, the run stops with
    status 0 and has only removed the candidate. *)
Lemma up_to_date_exits (dl install new_digest : string) (fl : file) (w : world) :
  w_fs w !! install = Some fl ->
  Str.lower (sha256 (f_data fl)) = Str.lower new_digest ->
  is_Some (w_fs w !! dl) ->
  next_fault ScRead w = NoFault ->
  next_fault ScRemove w = NoFault ->
  exists w', check_up_to_date sha256 dl install new_digest w = (Exit 0, w') /\
    w_fs w' = delete dl (w_fs w) /\
    w_trace w' = (w_trace w ++ [EvRemove dl])%list.
Proof.
  intros Hfl He [fd Hd] Hr Hm.
  unfold check_up_to_date. rewrite bind_run.
  unfold os_path_isfile at 1, get at 1.
  rewrite bool_decide_eq_true_2 by eauto.
  unfold try_except. rewrite bind_run, sha256_of_file_run. cbn zeta.
  rewrite Hfl, Hr, bool_decide_eq_true_2 by exact He.
  rewrite bind_run, log_run, bind_run, os_remove_run. cbn zeta.
  replace (w_fs (logged _ (drop_fault ScRead w))) with (w_fs w) by reflexivity.
  rewrite Hd.
  match goal with
  | |- context [next_fault ScRemove (logged ?m ?W)] =>
      change (next_fault ScRemove (logged m W)) with (next_fault ScRemove W)
  end.
  rewrite (next_fault_drop_ne ScRemove ScRead) by discriminate.
  rewrite Hm. eexists; split; [reflexivity|]. split; reflexivity.
Qed.

End UpToDate.

(** C7, at the failing input: the release on the server is the installed
    file, so the digests are equal and the run logs that the installation
    is up to date; the removal of the candidate then raises inside the
    [try] of the digest comparison, the handler swallows it, and the run
    goes on to back up and replace the installed file and returns as a
    completed update. *)
Theorem up_to_date_remove_fault_installs :
  let w := Scenario.same_release_remove_fails in
  let r := main Scenario.digest w in
  digest_at Scenario.digest w "app/Lon.exe" = Some "OLD" /\
  fst r = Ret tt /\
  count_occ string_dec (w_log (snd r))
    "Installed Lon.exe is already up to date. No update necessary." = 1%nat /\
  count_occ string_dec (w_log (snd r)) "Update completed successfully." = 1%nat /\
  count_occ event_eq_dec (w_trace (snd r)) (EvReplace "app/Lon.exe.new" "app/Lon.exe") = 1%nat /\
  w_fs w !! "bk/Lon_20240309_070500.exe" = None /\
  w_fs (snd r) !! "bk/Lon_20240309_070500.exe" = Some Scenario.old_file.
Proof. vm_compute. repeat split. Qed.

(** C3, at the failing input: the user declines and the bare [os.remove]
    of the candidate raises; nothing catches the exception, the process
    ends with a traceback and the candidate stays on disk.  In the run of
    the up-to-date scenario, where the first removal fails, the removal
    of the candidate is attempted twice. *)
Theorem declined_remove_fault_raises :
  let r := main Scenario.digest Scenario.declined_remove_fails in
  let r' := main Scenario.digest Scenario.same_release_remove_fails in
  fst r = Raise OSError /\
  last (w_log (snd r)) = Some "User declined update." /\
  w_fs (snd r) !! "/tmp/b.exe" = Some (new_file "NEW") /\
  count_occ event_eq_dec (w_trace (snd r')) (EvRemove "/tmp/b.exe") = 2%nat.
Proof. vm_compute. repeat split. Qed.


(** *** Exits *)

Lemma no_exit_ok {A} (m : M A) : no_exit m -> exits_ok m.
Proof. intros H w c w' E. now apply H in E. Qed.

Lemma no_exit_bind {A B} (m : M A) (k : A -> M B) :
  no_exit m -> (forall a, no_exit (k a)) -> no_exit (bind m k).
Proof.
  intros Hm Hk w c w'. rewrite bind_run.
  destruct (m w) as [[a|e|c0] w1] eqn:E; [apply Hk | discriminate |].
  now apply Hm in E.
Qed.

Lemma no_exit_try {A} (m : M A) (h : exn -> M A) :
  no_exit m -> (forall e, no_exit (h e)) -> no_exit (try_except m h).
Proof.
  intros Hm Hh w c w'. unfold try_except.
  destruct (m w) as [[a|e|c0] w1] eqn:E; [discriminate | apply Hh |].
  now apply Hm in E.
Qed.

Lemma no_exit_finally {A} (m : M A) (f : M unit) :
  no_exit m -> no_exit (try_finally m f).
Proof.
  intros Hm w c w'. unfold try_finally.
  destruct (m w) as [r w1] eqn:E. intros [= -> <-]. now apply Hm in E.
Qed.

Lemma no_exit_ret {A} (a : A) : no_exit (ret a).
Proof. intros w c w'; discriminate. Qed.

Lemma no_exit_raise {A} (e : exn) : no_exit (raise (A:=A) e).
Proof. intros w c w'; discriminate. Qed.

Lemma no_exit_get {A} (f : world -> A) : no_exit (get f).
Proof. intros w c w'; discriminate. Qed.

Lemma no_exit_modify (f : world -> world) : no_exit (modify f).
Proof. intros w c w'; discriminate. Qed.

Lemma no_exit_pop (k : syscall) : no_exit (pop_fault k).
Proof. intros w c w'; discriminate. Qed.

Lemma no_exit_tasklist : no_exit next_tasklist.
Proof. intros w c w'. unfold next_tasklist. destruct (w_tasklist w); discriminate. Qed.

Ltac no_exit_step :=
  first
    [ apply no_exit_ret | apply no_exit_raise | apply no_exit_get
    | apply no_exit_modify | apply no_exit_pop | apply no_exit_tasklist
    | assumption
    | apply no_exit_bind; [|intros ?]
    | apply no_exit_try; [|intros ?]
    | apply no_exit_finally
    | match goal with
      | |- no_exit (match ?x with _ => _ end) => destruct x
      | |- no_exit (let '(_, _) := ?x in _) => destruct x
      end ].

Ltac no_exit_tac := repeat no_exit_step.

Lemma no_exit_log (msg : string) : no_exit (log msg).
Proof. unfold log. no_exit_tac. Qed.

Lemma no_exit_remove (p : string) : no_exit (os_remove p).
Proof. unfold os_remove, trace, os_path_isfile. no_exit_tac. Qed.

Lemma no_exit_makedirs (d : string) : no_exit (os_makedirs d).
Proof. unfold os_makedirs, trace, os_path_isfile. no_exit_tac. Qed.

Lemma no_exit_copy2 (src dst : string) : no_exit (shutil_copy2 src dst).
Proof. unfold shutil_copy2, trace. no_exit_tac. Qed.

Lemma no_exit_read (p : string) : no_exit (read_file p).
Proof. unfold read_file. no_exit_tac. Qed.

Lemma no_exit_download (url description : string) :
  no_exit (download_to_temp url description).
Proof.
  pose proof no_exit_log as HL.
  unfold download_to_temp, urlopen, mkstemp, copyfileobj, os_path_exists.
  repeat first [apply HL | no_exit_step].
Qed.

Lemma no_exit_checksum (url : string) : no_exit (read_remote_checksum url).
Proof.
  pose proof no_exit_log as HL. pose proof no_exit_read as HR.
  pose proof (no_exit_download url "checksum") as HD.
  unfold read_remote_checksum.
  repeat first [apply HL | apply HR | exact HD | no_exit_step].
Qed.

Lemma no_exit_running (name : string) : no_exit (is_process_running name).
Proof. unfold is_process_running. no_exit_tac. Qed.

Lemma no_exit_poll (n : nat) (name : string) : no_exit (poll_stopped n name).
Proof.
  induction n as [|n IH]; cbn [poll_stopped]; [apply no_exit_ret|].
  pose proof (no_exit_running name) as HR.
  repeat first [exact HR | exact IH | no_exit_step].
Qed.

Lemma no_exit_terminate (name : string) : no_exit (terminate_process name).
Proof.
  pose proof no_exit_log as HL. pose proof (no_exit_running name) as HR.
  pose proof (no_exit_poll 10 name) as HP.
  unfold terminate_process, taskkill, trace.
  repeat first [apply HL | exact HR | exact HP | no_exit_step].
Qed.

Lemma no_exit_confirm : no_exit confirm_update.
Proof. unfold confirm_update, console_prompt, trace. no_exit_tac. Qed.

Lemma no_exit_backup (src dir : string) : no_exit (backup_file src dir).
Proof.
  intros w c w' E. destruct (Engine.backup_file_total src dir w) as (o & w1 & E1).
  rewrite E1 in E. discriminate E.
Qed.

Lemma no_exit_replace (src dest : string) : no_exit (atomic_replace src dest).
Proof.
  intros w c w' E. destruct (Engine.atomic_replace_total src dest w) as (b & w1 & E1).
  rewrite E1 in E. discriminate E.
Qed.

Lemma no_exit_setup (d : string) : no_exit (setup_logging d).
Proof.
  pose proof (no_exit_makedirs d) as HM. unfold setup_logging.
  repeat first [exact HM | no_exit_step].
Qed.


Lemma exits_ok_bind {A B} (m : M A) (k : A -> M B) :
  exits_ok m -> (forall a, exits_ok (k a)) -> exits_ok (bind m k).
Proof.
  intros Hm Hk w c w'. rewrite bind_run.
  destruct (m w) as [[a|e|c0] w1] eqn:E; [apply Hk | discriminate |].
  intros [= -> <-]. now apply Hm in E.
Qed.

Lemma exits_ok_try {A} (m : M A) (h : exn -> M A) :
  exits_ok m -> (forall e, exits_ok (h e)) -> exits_ok (try_except m h).
Proof.
  intros Hm Hh w c w'. unfold try_except.
  destruct (m w) as [[a|e|c0] w1] eqn:E; [discriminate | apply Hh |].
  intros [= -> <-]. now apply Hm in E.
Qed.

Lemma keeps_log_remove (p : string) : keeps_log (os_remove p).
Proof.
  intros w r w'. rewrite os_remove_run. cbn zeta.
  destruct (w_fs w !! p); [destruct (next_fault ScRemove w)|]; now intros [= <- <-].
Qed.

Lemma keeps_log_swallow_remove (p : string) : keeps_log (swallow (os_remove p)).
Proof.
  intros w r w'. rewrite swallow_remove_run. cbn zeta.
  destruct (w_fs w !! p); [destruct (next_fault ScRemove w)|]; now intros [= <- <-].
Qed.

(** A terminal branch of [main]: the outcome line, a clean-up step that
    does not log, and [sys.exit(c)]. *)
Lemma exits_ok_after {A} (msg : string) (m : M unit) (c : Z) :
  exit_line c (Some msg) -> no_exit m -> keeps_log m ->
  exits_ok (log msg;;; m;;; sys_exit (A:=A) c).
Proof.
  intros Hl Hn Hk w c' w'. rewrite bind_run, log_run, bind_run.
  destruct (m (logged msg w)) as [[[]|e|c0] w1] eqn:E.
  - intros [= <- <-]. rewrite (Hk _ _ _ E). unfold logged; wsimpl.
    now rewrite last_snoc.
  - discriminate.
  - now apply Hn in E.
Qed.

Lemma exits_ok_log_exit {A} (msg : string) (c : Z) :
  exit_line c (Some msg) -> exits_ok (log msg;;; sys_exit (A:=A) c).
Proof.
  intros Hl w c' w'. rewrite bind_run, log_run. intros [= <- <-].
  unfold logged; wsimpl. now rewrite last_snoc.
Qed.

Lemma exit1_line (msg : string) : In msg exit1_lines -> exit_line 1 (Some msg).
Proof. intros H; right; auto. Qed.

Lemma exit0_line (msg : string) : In msg exit0_lines -> exit_line 0 (Some msg).
Proof. intros H; left; auto. Qed.

Lemma exits_ok_replace_step (dl install : string) (b : option string) :
  exits_ok (replace_step dl install b).
Proof.
  intros w c w'. unfold replace_step. rewrite bind_run.
  destruct (Engine.atomic_replace_total dl install w) as (ok & w1 & ->).
  destruct ok; cbn [negb].
  - (* installed: no exit *)
    intros E. exfalso. revert E.
    assert (H : no_exit (swallow (os_remove dl);;;
                         log "Update completed successfully.";;;
                         log "==========================================")).
    { pose proof no_exit_log as HL. pose proof (no_exit_remove dl) as HR.
      unfold swallow. repeat first [apply HL | exact HR | no_exit_step]. }
    apply H.
  - rewrite bind_run, log_run, bind_run.
    set (W := logged _ w1).
    assert (HW : last (w_log W) = Some "Failed to install update. Attempting rollback.")
      by apply last_snoc.
    clearbody W.
    assert (Hend : forall (W1 : world) (l : string),
      last (w_log W1) = Some l -> exit_line 1 (Some l) ->
      (os_remove dl;;; sys_exit (A:=unit) 1)%py W1 = (Exit c, w') ->
      exit_line c (last (w_log w'))).
    { intros W1 l HL1 Hl. rewrite bind_run.
      destruct (os_remove dl W1) as [[[]|e|c0] w2] eqn:E.
      - intros [= <- <-]. now rewrite (keeps_log_remove _ _ _ _ E), HL1.
      - discriminate.
      - now apply no_exit_remove in E. }
    destruct b as [[|c0 b0]|].
    + apply (Hend _ _ HW). apply exit1_line. cbn; auto 10.
    + rewrite Engine.rollback_run.
      destruct (shutil_copy2 (String c0 b0) install W) as [[[]|e|c1] W1] eqn:E.
      * apply (Hend _ _ (Engine.last_logged _ _)). apply exit1_line. cbn; auto 10.
      * apply (Hend _ _ (Engine.last_logged _ _)). right. split; [reflexivity|]. eauto.
      * now apply no_exit_copy2 in E.
    + apply (Hend _ _ HW). apply exit1_line. cbn; auto 10.
Qed.

Lemma exits_ok_backup_and_replace (dl install bdir : string) :
  exits_ok (backup_and_replace dl install bdir).
Proof.
  unfold backup_and_replace.
  apply exits_ok_bind; [apply no_exit_ok; unfold os_path_isfile; apply no_exit_get|].
  intros installed. apply exits_ok_bind; [|intros b; apply exits_ok_replace_step].
  destruct installed; [|apply no_exit_ok, no_exit_ret].
  apply exits_ok_bind; [apply no_exit_ok, no_exit_backup|]. intros b.
  destruct (negb (Str.truthy b)); [|apply no_exit_ok, no_exit_ret].
  apply exits_ok_after;
    [apply exit1_line; cbn; auto 10 | apply no_exit_remove | apply keeps_log_remove].
Qed.

Lemma exits_ok_install_update (dl install bdir pn : string) :
  exits_ok (install_update dl install bdir pn).
Proof.
  unfold install_update.
  apply exits_ok_bind; [apply no_exit_ok, no_exit_confirm|]. intros yes.
  destruct (negb yes).
  { apply exits_ok_after;
      [apply exit0_line; cbn; auto | apply no_exit_remove | apply keeps_log_remove]. }
  apply exits_ok_bind; [apply no_exit_ok, no_exit_terminate|]. intros stopped.
  destruct (negb stopped).
  { apply exits_ok_after;
      [apply exit1_line; cbn; auto 10 | apply no_exit_remove | apply keeps_log_remove]. }
  apply exits_ok_backup_and_replace.
Qed.


Section Exits.

Variable sha256 : string -> string.

Lemma no_exit_sha (path : string) : no_exit (sha256_of_file sha256 path).
Proof.
  pose proof (no_exit_read path) as HR. unfold sha256_of_file.
  repeat first [exact HR | no_exit_step].
Qed.

Lemma exits_ok_check (dl install new_digest : string) :
  exits_ok (check_up_to_date sha256 dl install new_digest).
Proof.
  unfold check_up_to_date.
  apply exits_ok_bind; [apply no_exit_ok; unfold os_path_isfile; apply no_exit_get|].
  intros installed. destruct installed; [|apply no_exit_ok, no_exit_ret].
  apply exits_ok_try; [|intros e; apply no_exit_ok, no_exit_log].
  apply exits_ok_bind; [apply no_exit_ok, no_exit_sha|]. intros d.
  destruct (bool_decide _); [|apply no_exit_ok, no_exit_ret].
  apply exits_ok_after;
    [apply exit0_line; cbn; auto | apply no_exit_remove | apply keeps_log_remove].
Qed.

Lemma exits_ok_verify (expected new_digest dl install bdir pn : string) :
  exits_ok (verify_and_install sha256 expected new_digest dl install bdir pn).
Proof.
  unfold verify_and_install. destruct (negb _).
  - apply exits_ok_after;
      [apply exit1_line; cbn; auto 10 | | apply keeps_log_swallow_remove].
    unfold swallow. apply no_exit_try; [apply no_exit_remove | intros; apply no_exit_ret].
  - apply exits_ok_bind; [apply no_exit_ok, no_exit_log|]. intros _.
    apply exits_ok_bind; [apply exits_ok_check|]. intros _.
    apply exits_ok_install_update.
Qed.

Lemma exits_ok_fetch (releases checksum_url install bdir pn : string) :
  exits_ok (fetch_and_update sha256 releases checksum_url install bdir pn).
Proof.
  unfold fetch_and_update.
  apply exits_ok_bind; [apply no_exit_ok; unfold os_path_isfile; apply no_exit_get|].
  intros installed.
  apply exits_ok_bind.
  { destruct (negb installed); apply no_exit_ok; [apply no_exit_log | apply no_exit_ret]. }
  intros _.
  apply exits_ok_bind; [apply no_exit_ok, no_exit_checksum|]. intros expected.
  assert (H1 : exits_ok (log "Unable to retrieve expected checksum. Aborting.";;;
                         sys_exit (A:=unit) 1)).
  { apply exits_ok_log_exit, exit1_line. cbn; auto 10. }
  destruct expected as [[|c0 e0]|]; [exact H1| |exact H1].
  apply exits_ok_bind; [apply no_exit_ok, no_exit_log|]. intros _.
  apply exits_ok_bind; [apply no_exit_ok, no_exit_download|]. intros dl.
  assert (H2 : exits_ok (log "Failed to download new release. Aborting.";;;
                         sys_exit (A:=unit) 1)).
  { apply exits_ok_log_exit, exit1_line. cbn; auto 10. }
  destruct dl as [[|c1 d1]|]; [exact H2| |exact H2].
  apply exits_ok_bind; [apply no_exit_ok, no_exit_sha|]. intros nd.
  apply exits_ok_bind; [apply no_exit_ok, no_exit_log|]. intros _.
  apply exits_ok_verify.
Qed.

(** When [main] leaves through [sys.exit], the code goes with the last
    log line. *)
Lemma main_exits_ok (w w' : world) (c : Z) :
  w_log w = [] ->
  main sha256 w = (Exit c, w') ->
  exit_line c (last (w_log w')).
Proof.
  intros Hlog. unfold main.
  rewrite bind_run. unfold get at 1. rewrite bind_run. unfold get at 1.
  destruct (w_config w) as [| |cfg].
  - intros [= <- <-]. rewrite Hlog. reflexivity.
  - discriminate.
  - set (a0 := w_argv0 w).
    assert (Hok : exits_ok
      (setup_logging (Path.join (Path.dirname a0) "logs");;;
       log "========== Starting Lon Updater ==========";;;
       log ("Using config: " ++ Path.join (Path.dirname a0) "updater.config.json");;;
       match releases_url cfg, expected_sha256_url cfg,
             install_path cfg, backup_path cfg with
       | Some (String _ _ as releases), Some (String _ _ as checksum_url),
         Some (String _ _ as install), Some (String _ _ as backup_dir) =>
           fetch_and_update sha256 releases checksum_url install backup_dir
             (default "Lon.exe" (app_process_name cfg))
       | _, _, _, _ =>
           log "Configuration is missing required fields (releases_url, expected_sha256_url, install_path, backup_path)";;;
           sys_exit 1
       end)).
    { apply exits_ok_bind; [apply no_exit_ok, no_exit_setup|]. intros _.
      apply exits_ok_bind; [apply no_exit_ok, no_exit_log|]. intros _.
      apply exits_ok_bind; [apply no_exit_ok, no_exit_log|]. intros _.
      assert (H : exits_ok (log "Configuration is missing required fields (releases_url, expected_sha256_url, install_path, backup_path)";;;
                            sys_exit (A:=unit) 1)).
      { apply exits_ok_log_exit, exit1_line. cbn; auto 10. }
      destruct (releases_url cfg) as [[|]|]; try exact H;
      destruct (expected_sha256_url cfg) as [[|]|]; try exact H;
      destruct (install_path cfg) as [[|]|]; try exact H;
      destruct (backup_path cfg) as [[|]|]; try exact H.
      apply exits_ok_fetch. }
    intros E. exact (Hok _ _ _ E).
Qed.

End Exits.

(** C9 as stated fails: a checksum mismatch and a failed backup are
    different outcomes, with different outcome lines, and both exit with
    code 1. *)
Lemma abort_codes_not_distinct :
  ~ (forall (sha256 : string -> string) (w1 w2 w1' w2' : world) (c1 c2 : Z),
       main sha256 w1 = (Exit c1, w1') ->
       main sha256 w2 = (Exit c2, w2') ->
       last (w_log w1') <> last (w_log w2') ->
       c1 <> c2).
Proof.
  intros H.
  apply (H Scenario.digest Scenario.wrong_reference Scenario.backup_breaks
           (snd (main Scenario.digest Scenario.wrong_reference))
           (snd (main Scenario.digest Scenario.backup_breaks)) 1%Z 1%Z).
  - apply run_pair; vm_compute; reflexivity.
  - apply run_pair; vm_compute; reflexivity.
  - vm_compute. discriminate.
  - reflexivity.
Qed.

End Orchestrator.

(** ** More on the backup and replace engine *)

Module EngineMore.
Import Run.


Lemma replace_failed_false (dest : string) (t : option string) (e : exn) (w : world) :
  exists w', replace_failed dest t e w = (Ret false, w').
Proof.
  destruct t as [t|].
  - destruct (Engine.replace_failed_some dest t e w) as (w' & E & _). eauto.
  - rewrite Engine.replace_failed_none. eauto.
Qed.

Ltac failed_branch :=
  let E := fresh "E" in
  let E1 := fresh "E1" in
  intros E;
  match type of E with
  | context [replace_failed ?d ?t ?e ?W] =>
      destruct (replace_failed_false d t e W) as (? & E1);
      rewrite E1 in E; discriminate E
  end.

(** What a successful [atomic_replace] did. *)
Lemma atomic_replace_true (src dest : string) (w w' : world) :
  atomic_replace src dest w = (Ret true, w') ->
  exists fl,
    w_fs w !! src = Some fl /\
    src <> dest ++ ".new" /\
    w_fs w' !! dest = Some fl /\
    w_fs w' !! (dest ++ ".new") = None /\
    (forall p, p <> dest -> p <> dest ++ ".new" -> w_fs w' !! p = w_fs w !! p) /\
    Path.dirname dest ∈ w_dirs w'.
Proof.
  unfold atomic_replace, try_except.
  rewrite bind_run, os_makedirs_run. cbn zeta.
  destruct (Path.dirname dest) as [|c d] eqn:Hd; [failed_branch|].
  destruct (w_fs w !! String c d); [failed_branch|].
  destruct (next_fault ScMakedirs w); try failed_branch.
  rewrite bind_run, shutil_copy2_run. cbn zeta. unfold traced at 1 2 3 4 5; wsimpl.
  destruct (w_fs w !! src) as [fl|] eqn:Hsrc; [|failed_branch].
  destruct (bool_decide (src = dest ++ ".new")) eqn:Hst; [failed_branch|].
  destruct (next_fault ScCopy _); try failed_branch.
  rewrite bind_run, os_replace_run. cbn zeta. unfold traced; wsimpl.
  rewrite lookup_insert_eq.
  destruct (next_fault ScReplace _); try failed_branch.
  cbn. intros [= <-]; wsimpl.
  exists fl. split; [reflexivity|].
  split; [now apply bool_decide_eq_false in Hst|].
  split; [apply lookup_insert_eq|].
  split.
  - rewrite lookup_insert_ne by (intros E; symmetry in E; now apply Engine.tmp_dest_ne in E).
    apply lookup_delete_eq.
  - split.
    + intros p Hp Hp'. now rewrite lookup_insert_ne, lookup_delete_ne, lookup_insert_ne.
    + apply elem_of_union_l, elem_of_singleton. reflexivity.
Qed.

(** A successful [atomic_replace]: the destination holds the source file,
    bytes and metadata; the temporary file is gone; the directory of the
    destination exists; every other path, the source included, is as
    before. *)
Theorem atomic_replace_success (src dest : string) (w w' : world) :
  atomic_replace src dest w = (Ret true, w') ->
  exists fl,
    w_fs w !! src = Some fl /\
    src <> dest ++ ".new" /\
    w_fs w' !! dest = Some fl /\
    w_fs w' !! (dest ++ ".new") = None /\
    (forall p, p <> dest -> p <> dest ++ ".new" -> w_fs w' !! p = w_fs w !! p) /\
    Path.dirname dest ∈ w_dirs w'.
Proof. exact (atomic_replace_true src dest w w'). Qed.

Lemma atomic_replace_success_witness :
  atomic_replace "/tmp/b.exe" "app/Lon.exe" Scenario.candidate_ready =
    (Ret true, snd (atomic_replace "/tmp/b.exe" "app/Lon.exe" Scenario.candidate_ready)) /\
  w_fs (snd (atomic_replace "/tmp/b.exe" "app/Lon.exe" Scenario.candidate_ready))
    !! "app/Lon.exe" = Some (new_file "NEW").
Proof.
  assert (H : atomic_replace "/tmp/b.exe" "app/Lon.exe" Scenario.candidate_ready =
    (Ret true, snd (atomic_replace "/tmp/b.exe" "app/Lon.exe" Scenario.candidate_ready)))
    by (apply run_pair; vm_compute; reflexivity).
  split; [exact H|].
  destruct (atomic_replace_success _ _ _ _ H) as (fl & Hs & _ & Hd & _).
  rewrite Hd, <- Hs. reflexivity.
Defined.

(** A destination without a directory part can never be replaced:
    [os.makedirs('')] raises, so [atomic_replace] fails before it copies
    anything and leaves the file system as it was. *)
Theorem atomic_replace_bare_name_fails (src dest : string) (w : world) :
  Path.dirname dest = "" ->
  exists w',
    atomic_replace src dest w = (Ret false, w') /\
    w_fs w' = w_fs w /\
    w_trace w' = (w_trace w ++ [EvMakedirs ""])%list.
Proof.
  intros Hd. unfold atomic_replace, try_except.
  rewrite bind_run, os_makedirs_run, Hd. cbv beta iota zeta.
  rewrite Engine.replace_failed_none. eexists; split; [reflexivity|].
  split; reflexivity.
Qed.

Lemma atomic_replace_bare_name_fails_witness :
  exists w',
    atomic_replace "/tmp/b.exe" "Lon.exe" Scenario.candidate_ready = (Ret false, w') /\
    w_fs w' = w_fs Scenario.candidate_ready.
Proof.
  destruct (atomic_replace_bare_name_fails "/tmp/b.exe" "Lon.exe" Scenario.candidate_ready
              eq_refl) as (w' & E & F & _).
  exists w'. split; assumption.
Defined.




(** After a successful replacement [main] returns normally with the
    completion lines logged; the install path holds the candidate, bytes
    and metadata; the removal of the candidate is attempted once and the
    candidate is gone when that removal does not fault. *)
Theorem replace_step_success (dl install : string) (b : option string) (w w1 : world) :
  dl <> install ->
  atomic_replace dl install w = (Ret true, w1) ->
  exists w',
    replace_step dl install b w = (Ret tt, w') /\
    last (w_log w') = Some "==========================================" /\
    "Update completed successfully." ∈ w_log w' /\
    (exists fl, w_fs w !! dl = Some fl /\ w_fs w' !! install = Some fl) /\
    (next_fault ScRemove w1 = NoFault -> w_fs w' !! dl = None) /\
    w_trace w' = (w_trace w1 ++ [EvRemove dl])%list.
Proof.
  intros Hne H.
  destruct (atomic_replace_true _ _ _ _ H) as (fl & Hs & Ht & Hd & _ & Hfr & _).
  unfold replace_step. rewrite bind_run, H. cbn [negb].
  rewrite bind_run, Orchestrator.swallow_remove_run. cbn zeta.
  assert (Hdl : w_fs w1 !! dl = Some fl) by (rewrite Hfr; auto).
  rewrite Hdl.
  destruct (next_fault ScRemove w1) eqn:Hn;
    rewrite bind_run, log_run, log_run; eexists; (split; [reflexivity|]);
    unfold logged, traced; wsimpl;
    (split; [apply last_snoc|]);
    (split; [apply elem_of_app; left; apply elem_of_app; right; apply elem_of_cons; now left|]);
    (split; [exists fl; split; [exact Hs|];
             rewrite ?lookup_delete_ne by auto; exact Hd|]);
    (split; [|reflexivity]);
    intros Hf; try discriminate Hf; apply lookup_delete_eq.
Qed.

Lemma replace_step_success_witness :
  exists w',
    replace_step "/tmp/b.exe" "app/Lon.exe" None Scenario.candidate_ready = (Ret tt, w') /\
    w_fs w' !! "app/Lon.exe" = Some (new_file "NEW") /\
    w_fs w' !! "/tmp/b.exe" = None.
Proof.
  assert (H : atomic_replace "/tmp/b.exe" "app/Lon.exe" Scenario.candidate_ready =
    (Ret true, snd (atomic_replace "/tmp/b.exe" "app/Lon.exe" Scenario.candidate_ready)))
    by (apply run_pair; vm_compute; reflexivity).
  destruct (replace_step_success "/tmp/b.exe" "app/Lon.exe" None _ _
              ltac:(discriminate) H)
    as (w' & E & _ & _ & (fl & Hs & Hi) & Hr & _).
  exists w'. split; [exact E|]. split.
  - rewrite Hi, <- Hs. reflexivity.
  - apply Hr. vm_compute. reflexivity.
Defined.

End EngineMore.

(** ** Downloads *)

Module Network.
Import Run.



Lemma urlopen_run (url : string) (w : world) :
  urlopen url w =
  match w_net w url with
  | NetError => (Raise URLError, w)
  | Response st body => (Ret (st, body), w)
  end.
Proof.
  unfold urlopen. rewrite bind_run. unfold get. destruct (w_net w url); reflexivity.
Qed.

Lemma mkstemp_run (suffix : string) (w : world) :
  mkstemp suffix w =
  let W1 := drop_fault ScMkstemp w in
  match w_tmpnames w with
  | [] => (Raise FileExistsError, W1)
  | n :: r =>
      let W2 := set_tmpnames (fun _ => r) W1 in
      let p := n ++ suffix in
      if bool_decide (is_Some (w_fs w !! p)) || bool_decide (p ∈ w_dirs w)
      then (Raise FileExistsError, W2)
      else match next_fault ScMkstemp w with
           | NoFault => (Ret p, set_fs (insert p (new_file "")) W2)
           | _ => (Raise OSError, W2)
           end
  end.
Proof.
  unfold mkstemp, os_path_exists. rewrite bind_run. unfold pop_fault at 1.
  rewrite bind_run. unfold get at 1.
  change (w_tmpnames (drop_fault ScMkstemp w)) with (w_tmpnames w).
  destruct (w_tmpnames w) as [|n r]; [reflexivity|].
  rewrite bind_run. unfold modify at 1. rewrite bind_run. unfold get at 1.
  cbv zeta. wsimpl.
  destruct (bool_decide (is_Some (w_fs w !! _)) || bool_decide (_ ∈ w_dirs w));
    [reflexivity|].
  destruct (next_fault ScMkstemp w); reflexivity.
Qed.

Lemma copyfileobj_run (body p : string) (w : world) :
  copyfileobj body p w =
  let W := drop_fault ScWrite w in
  match next_fault ScWrite w with
  | NoFault => (Ret tt, set_fs (insert p (new_file body)) W)
  | Fault => (Raise OSError, W)
  | Partial k => (Raise OSError, set_fs (insert p (new_file (substring 0 k body))) W)
  end.
Proof.
  unfold copyfileobj. rewrite bind_run. unfold pop_fault at 1.
  destruct (next_fault ScWrite w); reflexivity.
Qed.


(** [download_to_temp] on a world, case by case. *)
Lemma download_to_temp_run (url d : string) (w : world) :
  download_to_temp url d w =
  let W0 := logged ("Downloading " ++ d ++ " from " ++ url) w in
  let unexpected e W :=
    (Ret (None : option string),
     logged ("Unexpected error downloading " ++ d ++ ": " ++ exn_str e) W) in
  match w_net w url with
  | NetError =>
      (Ret None, logged ("Network error downloading " ++ d ++ ": " ++ exn_str URLError) W0)
  | Response st body =>
      if (400 <=? st)%nat
      then (Ret None, logged ("Failed to download " ++ d ++ ": HTTP " ++ nat_str st) W0)
      else
        let W1 := drop_fault ScMkstemp W0 in
        match w_tmpnames w with
        | [] => unexpected FileExistsError W1
        | n :: r =>
            let W2 := set_tmpnames (fun _ => r) W1 in
            let p := n ++ snd (Path.splitext url) in
            if bool_decide (is_Some (w_fs w !! p)) || bool_decide (p ∈ w_dirs w)
            then unexpected FileExistsError W2
            else
              match next_fault ScMkstemp w with
              | NoFault =>
                  let W3 := drop_fault ScWrite (set_fs (insert p (new_file "")) W2) in
                  match next_fault ScWrite w with
                  | NoFault => (Ret (Some p), set_fs (insert p (new_file body)) W3)
                  | Fault => unexpected OSError W3
                  | Partial k =>
                      unexpected OSError
                        (set_fs (insert p (new_file (substring 0 k body))) W3)
                  end
              | _ => unexpected OSError W2
              end
        end
  end.
Proof.
  unfold download_to_temp, try_except.
  rewrite bind_run, log_run. cbv beta iota.
  set (W0 := logged ("Downloading " ++ d ++ " from " ++ url) w).
  rewrite bind_run, urlopen_run.
  change (w_net W0 url) with (w_net w url).
  destruct (w_net w url) as [|st body]; [reflexivity|].
  cbv beta iota zeta. destruct (400 <=? st)%nat; [reflexivity|].
  rewrite bind_run, mkstemp_run. cbv zeta.
  change (w_tmpnames W0) with (w_tmpnames w).
  change (w_fs W0) with (w_fs w). change (w_dirs W0) with (w_dirs w).
  change (next_fault ScMkstemp W0) with (next_fault ScMkstemp w).
  destruct (w_tmpnames w) as [|n r]; [reflexivity|].
  destruct (bool_decide (is_Some (w_fs w !! _)) || bool_decide (_ ∈ w_dirs w));
    [reflexivity|].
  destruct (next_fault ScMkstemp w); [|reflexivity ..].
  rewrite bind_run, copyfileobj_run. cbv zeta.
  match goal with
  | |- context [next_fault ScWrite ?W] =>
      change (next_fault ScWrite W) with (next_fault ScWrite w)
  end.
  destruct (next_fault ScWrite w); reflexivity.
Qed.


Ltac same_world :=
  eexists _, _; split; [reflexivity|]; unfold logged; wsimpl; intros; reflexivity.

(** [download_to_temp] returns, and keeps the files that exist. *)
Lemma download_returns (url d : string) (w : world) :
  exists o w',
    download_to_temp url d w = (Ret o, w') /\
    forall q, is_Some (w_fs w !! q) -> w_fs w' !! q = w_fs w !! q.
Proof.
  rewrite download_to_temp_run. cbv zeta.
  destruct (w_net w url) as [|st body]; [same_world|].
  destruct (400 <=? st)%nat; [same_world|].
  destruct (w_tmpnames w) as [|n r]; [same_world|].
  set (p := n ++ snd (Path.splitext url)).
  destruct (bool_decide (is_Some (w_fs w !! p)) || bool_decide (p ∈ w_dirs w)) eqn:Hex;
    [same_world|].
  apply orb_false_iff in Hex as [Hex _]. apply bool_decide_eq_false in Hex.
  assert (Hq : forall q, is_Some (w_fs w !! q) -> q <> p) by (intros q Hq ->; auto).
  destruct (next_fault ScMkstemp w); [|same_world ..].
  destruct (next_fault ScWrite w); eexists _, _; (split; [reflexivity|]);
    unfold logged; wsimpl; intros q Hs; rewrite ?lookup_insert_ne by (symmetry; auto);
    reflexivity.
Qed.

(** [download_to_temp] never raises and never exits, whatever the network
    and the file system do, and it never changes a file that exists: the
    only path it writes is the new temporary file. *)
Theorem download_keeps_existing_files (url d : string) (w : world) :
  exists o w',
    download_to_temp url d w = (Ret o, w') /\
    forall q, is_Some (w_fs w !! q) -> w_fs w' !! q = w_fs w !! q.
Proof. exact (download_returns url d w). Qed.

(** A download that returns a path: the server answered with a status
    below 400, the path is the next temporary name followed by the
    extension of the URL, it did not exist before, and the file system is
    the old one plus that file holding the whole body. *)
Theorem download_success (url d p : string) (w w' : world) :
  download_to_temp url d w = (Ret (Some p), w') ->
  exists st body n r,
    w_net w url = Response st body /\ (st < 400)%nat /\
    w_tmpnames w = n :: r /\ w_tmpnames w' = r /\
    p = n ++ snd (Path.splitext url) /\
    w_fs w !! p = None /\
    w_fs w' = <[p := new_file body]> (w_fs w).
Proof.
  rewrite download_to_temp_run. cbv zeta.
  destruct (w_net w url) as [|st body]; [discriminate|].
  destruct (400 <=? st)%nat eqn:Hst; [discriminate|].
  apply Nat.leb_gt in Hst.
  destruct (w_tmpnames w) as [|n r]; [discriminate|].
  set (q := n ++ snd (Path.splitext url)).
  destruct (bool_decide (is_Some (w_fs w !! q)) || bool_decide (q ∈ w_dirs w)) eqn:Hex;
    [discriminate|].
  apply orb_false_iff in Hex as [Hex _]. apply bool_decide_eq_false in Hex.
  destruct (next_fault ScMkstemp w); try discriminate.
  destruct (next_fault ScWrite w); try discriminate.
  intros [= <- <-]. exists st, body, n, r. unfold logged; wsimpl.
  repeat split; auto.
  - destruct (w_fs w !! q) eqn:E; [exfalso; apply Hex; eauto | reflexivity].
  - apply insert_insert_eq.
Qed.

Lemma download_success_witness :
  exists w',
    download_to_temp "http://host/Lon.exe" "Lon.exe" Scenario.fault_free
      = (Ret (Some "/tmp/a.exe"), w') /\
    w_fs w' !! "/tmp/a.exe" = Some (new_file "NEW").
Proof.
  assert (H : download_to_temp "http://host/Lon.exe" "Lon.exe" Scenario.fault_free
              = (Ret (Some "/tmp/a.exe"),
                 snd (download_to_temp "http://host/Lon.exe" "Lon.exe" Scenario.fault_free)))
    by (apply run_pair; vm_compute; reflexivity).
  destruct (download_success _ _ _ _ _ H) as (st & body & n & r & Hn & _ & _ & _ & _ & _ & Hf).
  eexists. split; [exact H|]. rewrite Hf, lookup_insert_eq.
  vm_compute in Hn. injection Hn as <- <-. reflexivity.
Defined.

(** A network error or an HTTP status of 400 or more gives [None]
    without creating a temporary file: the file system and the list of
    temporary names are untouched. *)
Theorem download_refused (url d : string) (w : world) :
  (w_net w url = NetError \/
   exists st body, w_net w url = Response st body /\ (400 <= st)%nat) ->
  exists w',
    download_to_temp url d w = (Ret None, w') /\
    w_fs w' = w_fs w /\ w_tmpnames w' = w_tmpnames w.
Proof.
  intros H. rewrite download_to_temp_run. cbv zeta.
  destruct H as [->|(st & body & -> & Hst)].
  - eexists; split; [reflexivity|]. split; reflexivity.
  - apply Nat.leb_le in Hst. rewrite Hst.
    eexists; split; [reflexivity|]. split; reflexivity.
Qed.

Lemma download_refused_witness :
  exists w',
    download_to_temp "http://elsewhere/Lon.exe" "Lon.exe" Scenario.fault_free
      = (Ret None, w') /\
    w_fs w' = w_fs Scenario.fault_free.
Proof.
  destruct (download_refused "http://elsewhere/Lon.exe" "Lon.exe" Scenario.fault_free)
    as (w' & E & F & _).
  - left. reflexivity.
  - exists w'. split; assumption.
Defined.

(** When writing the body fails after the temporary file was created,
    [download_to_temp] returns [None] and leaves that file on disk: its
    handler logs the error and removes nothing. *)
Theorem download_write_fault_leaves_file
    (url d n : string) (r : list string) (st : nat) (body : string) (w : world) :
  let p := n ++ snd (Path.splitext url) in
  w_net w url = Response st body -> (st < 400)%nat ->
  w_tmpnames w = n :: r ->
  w_fs w !! p = None -> p ∉ w_dirs w ->
  next_fault ScMkstemp w = NoFault ->
  next_fault ScWrite w <> NoFault ->
  exists w',
    download_to_temp url d w = (Ret None, w') /\
    is_Some (w_fs w' !! p) /\
    w_trace w' = w_trace w.
Proof.
  intros p Hn Hst Ht Hp Hd Hm Hw. rewrite download_to_temp_run. cbv zeta.
  rewrite Hn. apply Nat.leb_gt in Hst. rewrite Hst, Ht. fold p.
  rewrite Hp, Hm. rewrite (bool_decide_eq_false_2 (is_Some None)) by (intros [? ?]; discriminate).
  rewrite (bool_decide_eq_false_2 _ Hd). cbn [orb].
  destruct (next_fault ScWrite w); [contradiction| |];
    eexists; (split; [reflexivity|]); unfold logged; wsimpl;
    rewrite ?lookup_insert_eq; split; eauto.
Qed.

Lemma download_write_fault_leaves_file_witness :
  exists w',
    download_to_temp "http://host/Lon.exe" "Lon.exe" Scenario.download_breaks
      = (Ret None, w') /\
    is_Some (w_fs w' !! "/tmp/a.exe").
Proof.
  destruct (download_write_fault_leaves_file "http://host/Lon.exe" "Lon.exe" "/tmp/a"
              ["/tmp/b"] 200 "NEW" Scenario.download_breaks)
    as (w' & E & F & _).
  - reflexivity.
  - lia.
  - reflexivity.
  - reflexivity.
  - vm_compute. discriminate.
  - reflexivity.
  - vm_compute. discriminate.
  - exists w'. split; assumption.
Defined.


(** The facts about a successful download that its callers need. *)
Lemma download_some (url d p : string) (w w' : world) :
  download_to_temp url d w = (Ret (Some p), w') ->
  exists st body n,
    w_net w url = Response st body /\ (st < 400)%nat /\
    head (w_tmpnames w) = Some n /\ p = n ++ snd (Path.splitext url) /\
    w_fs w !! p = None /\
    w_fs w' = <[p := new_file body]> (w_fs w) /\
    next_fault ScWrite w = NoFault /\
    next_fault ScRemove w' = next_fault ScRemove w /\
    next_fault ScRead w' = next_fault ScRead w /\
    w_trace w' = w_trace w.
Proof.
  rewrite download_to_temp_run. cbv zeta.
  destruct (w_net w url) as [|st body]; [discriminate|].
  destruct (400 <=? st)%nat eqn:Hst; [discriminate|].
  apply Nat.leb_gt in Hst.
  destruct (w_tmpnames w) as [|n r]; [discriminate|].
  set (q := n ++ snd (Path.splitext url)).
  destruct (bool_decide (is_Some (w_fs w !! q)) || bool_decide (q ∈ w_dirs w)) eqn:Hex;
    [discriminate|].
  apply orb_false_iff in Hex as [Hex _]. apply bool_decide_eq_false in Hex.
  destruct (next_fault ScMkstemp w); try discriminate.
  destruct (next_fault ScWrite w) eqn:Hw; try discriminate.
  intros [= <- <-]. exists st, body, n. unfold logged; wsimpl.
  repeat split; auto.
  - destruct (w_fs w !! q) eqn:E; [exfalso; apply Hex; eauto | reflexivity].
  - apply insert_insert_eq.
Qed.

Lemma download_none (url d : string) (w w' : world) :
  download_to_temp url d w = (Ret None, w') ->
  next_fault ScWrite w = NoFault ->
  w_fs w' = w_fs w.
Proof.
  rewrite download_to_temp_run. cbv zeta. intros H Hw. revert H.
  destruct (w_net w url) as [|st body]; [now intros [= <-]|].
  destruct (400 <=? st)%nat; [now intros [= <-]|].
  destruct (w_tmpnames w) as [|n r]; [now intros [= <-]|].
  destruct (bool_decide _ || bool_decide _); [now intros [= <-]|].
  destruct (next_fault ScMkstemp w); try (now intros [= <-]).
  rewrite Hw. discriminate.
Qed.

(** [read_remote_checksum], once the download returned a path. *)
Lemma checksum_after_download (p : string) (W : world) (fl : file) :
  p <> "" ->
  w_fs W !! p = Some fl ->
  exists o W1,
    (try_finally
       (try_except
          (text <- read_file p;;
           match parse_checksum text with
           | None => log "Checksum file is empty";;; ret None
           | Some checksum => ret (Some checksum)
           end)
          (fun ex => log ("Failed to read checksum file: " ++ exn_str ex);;; ret None))
       (swallow (os_remove p)))%py W = (Ret o, W1) /\
    (forall t, o = Some t -> parse_checksum (f_data fl) = Some t) /\
    (next_fault ScRead W = NoFault -> o = parse_checksum (f_data fl)) /\
    (forall q, q <> p -> w_fs W1 !! q = w_fs W !! q) /\
    (next_fault ScRemove W = NoFault -> w_fs W1 = delete p (w_fs W)) /\
    w_trace W1 = (w_trace W ++ [EvRemove p])%list.
Proof.
  intros Hp Hfl. unfold try_finally, try_except.
  rewrite bind_run, read_file_run. cbv zeta. rewrite Hfl.
  assert (Hend : forall o (W0 : world),
    w_fs W0 = w_fs W -> w_trace W0 = w_trace W ->
    next_fault ScRemove W0 = next_fault ScRemove W ->
    (forall t, o = Some t -> parse_checksum (f_data fl) = Some t) ->
    (next_fault ScRead W = NoFault -> o = parse_checksum (f_data fl)) ->
    exists o' W1,
      (Ret o, snd (swallow (os_remove p) W0)) = (Ret o', W1) /\
      (forall t, o' = Some t -> parse_checksum (f_data fl) = Some t) /\
      (next_fault ScRead W = NoFault -> o' = parse_checksum (f_data fl)) /\
      (forall q, q <> p -> w_fs W1 !! q = w_fs W !! q) /\
      (next_fault ScRemove W = NoFault -> w_fs W1 = delete p (w_fs W)) /\
      w_trace W1 = (w_trace W ++ [EvRemove p])%list).
  { intros o W0 HF HT HR Ho Ho'. eexists _, _. split; [reflexivity|].
    rewrite Orchestrator.swallow_remove_run. cbv zeta. rewrite HF, Hfl, HR.
    destruct (next_fault ScRemove W); cbn [snd]; unfold traced; wsimpl;
      rewrite ?HF, ?HT; repeat split; auto; try discriminate;
      intros; now rewrite lookup_delete_ne. }
  destruct (next_fault ScRead W) eqn:Hr.
  - cbv beta iota. destruct (parse_checksum (f_data fl)) as [t|] eqn:Hparse.
    + apply Hend; auto.
    + rewrite bind_run, log_run. apply Hend; auto; discriminate.
  - rewrite bind_run, log_run. apply Hend; auto; discriminate.
  - rewrite bind_run, log_run. apply Hend; auto; discriminate.
Qed.


(** The three ways [read_remote_checksum] can go, in terms of its
    download. *)
Lemma read_remote_checksum_cases (url : string) (w : world) :
  (exists W, download_to_temp url "checksum" w = (Ret None, W) /\
             read_remote_checksum url w = (Ret None, W)) \/
  (exists W, download_to_temp url "checksum" w = (Ret (Some ""), W) /\
             read_remote_checksum url w = (Ret None, W)) \/
  (exists c p W body o W1,
     download_to_temp url "checksum" w = (Ret (Some (String c p)), W) /\
     w_fs W !! String c p = Some (new_file body) /\
     read_remote_checksum url w = (Ret o, W1) /\
     (forall t, o = Some t -> parse_checksum body = Some t) /\
     (next_fault ScRead W = NoFault -> o = parse_checksum body) /\
     (forall q, q <> String c p -> w_fs W1 !! q = w_fs W !! q) /\
     (next_fault ScRemove W = NoFault -> w_fs W1 = delete (String c p) (w_fs W)) /\
     w_trace W1 = (w_trace W ++ [EvRemove (String c p)])%list).
Proof.
  destruct (download_returns url "checksum" w) as (o & W & E & _).
  unfold read_remote_checksum. rewrite bind_run, E.
  destruct o as [[|c p]|]; [right; left; eauto | | left; eauto].
  right; right.
  destruct (download_some _ _ _ _ _ E) as (st & body & n & _ & _ & _ & _ & _ & Hfs & _).
  assert (Hfl : w_fs W !! String c p = Some (new_file body))
    by (rewrite Hfs; apply lookup_insert_eq).
  destruct (checksum_after_download (String c p) W (new_file body) ltac:(discriminate) Hfl)
    as (o & W1 & E1 & H1 & H2 & H3 & H4 & H5).
  exists c, p, W, body, o, W1. rewrite E1. repeat split; auto.
Qed.

(** The digest [read_remote_checksum] returns is the first token of the
    body the server sent for the checksum URL, with a status below 400. *)
Theorem checksum_is_parsed_reference (url t : string) (w w' : world) :
  read_remote_checksum url w = (Ret (Some t), w') ->
  exists st body,
    w_net w url = Response st body /\ (st < 400)%nat /\
    parse_checksum body = Some t.
Proof.
  intros H.
  destruct (read_remote_checksum_cases url w)
    as [(W & _ & E)|[(W & _ & E)|(c & p & W & body & o & W1 & Ed & Hfl & E & Ho & _)]];
    rewrite E in H; try discriminate H.
  injection H as -> ->.
  destruct (download_some _ _ _ _ _ Ed) as (st & body' & n & Hn & Hst & _ & _ & _ & Hfs & _).
  rewrite Hfs, lookup_insert_eq in Hfl. injection Hfl as ->.
  exists st, body. auto.
Qed.

Lemma checksum_is_parsed_reference_witness :
  read_remote_checksum "http://host/Lon.sha" Scenario.fault_free
    = (Ret (Some "new"), snd (read_remote_checksum "http://host/Lon.sha" Scenario.fault_free)) /\
  exists st body,
    w_net Scenario.fault_free "http://host/Lon.sha" = Response st body /\ (st < 400)%nat /\
    parse_checksum body = Some "new".
Proof.
  assert (H : read_remote_checksum "http://host/Lon.sha" Scenario.fault_free
    = (Ret (Some "new"), snd (read_remote_checksum "http://host/Lon.sha" Scenario.fault_free)))
    by (apply run_pair; vm_compute; reflexivity).
  split; [exact H|]. exact (checksum_is_parsed_reference _ _ _ _ H).
Defined.

(** [read_remote_checksum] never raises and never exits ("returns None on
    failure"), and it never changes a file that existed before. *)
Theorem checksum_keeps_existing_files (url : string) (w : world) :
  exists o w',
    read_remote_checksum url w = (Ret o, w') /\
    forall q, is_Some (w_fs w !! q) -> w_fs w' !! q = w_fs w !! q.
Proof.
  destruct (download_returns url "checksum" w) as (o0 & W0 & E0 & Hk).
  destruct (read_remote_checksum_cases url w)
    as [(W & Ed & E)|[(W & Ed & E)|(c & p & W & body & o & W1 & Ed & Hfl & E & _ & _ & Hfr & _)]];
    rewrite E; rewrite Ed in E0; injection E0 as <- <-; eexists _, _;
    (split; [reflexivity|]); auto.
  intros q Hq. rewrite <- (Hk q Hq). apply Hfr. intros ->.
  destruct (download_some _ _ _ _ _ Ed) as (_ & _ & _ & _ & _ & _ & _ & Hnone & _).
  rewrite Hnone in Hq. destruct Hq; discriminate.
Qed.

(** When neither the write of the body nor the removal faults, and the
    temporary names are not empty, [read_remote_checksum] leaves the file
    system exactly as it found it: its temporary file is gone again. *)
Theorem checksum_restores_file_system (url : string) (w : world) :
  next_fault ScWrite w = NoFault ->
  next_fault ScRemove w = NoFault ->
  (forall n, head (w_tmpnames w) = Some n -> n <> "") ->
  exists o w', read_remote_checksum url w = (Ret o, w') /\ w_fs w' = w_fs w.
Proof.
  intros Hw Hr Hn.
  destruct (read_remote_checksum_cases url w)
    as [(W & Ed & E)|[(W & Ed & E)|(c & p & W & body & o & W1 & Ed & Hfl & E & _ & _ & _ & Hrm & _)]];
    rewrite E; eexists _, _; (split; [reflexivity|]).
  - now apply download_none in Ed.
  - exfalso.
    destruct (download_some _ _ _ _ _ Ed) as (_ & _ & n & _ & _ & Hh & Hp & _).
    apply Hn in Hh. destruct n; [contradiction | discriminate Hp].
  - destruct (download_some _ _ _ _ _ Ed)
      as (_ & body' & _ & _ & _ & _ & _ & Hnone & Hfs & _ & Hrm' & _).
    rewrite Hrm, Hfs by (now rewrite Hrm').
    now apply delete_insert_id.
Qed.

Lemma checksum_restores_file_system_witness :
  exists o w',
    read_remote_checksum "http://host/Lon.sha" Scenario.fault_free = (Ret o, w') /\
    w_fs w' = w_fs Scenario.fault_free.
Proof.
  apply (checksum_restores_file_system "http://host/Lon.sha" Scenario.fault_free).
  - reflexivity.
  - reflexivity.
  - intros n [= <-]. discriminate.
Defined.

End Network.

(** ** Process guard *)

Module Guard.
Import Run.


Lemma polled_refl (w : world) : polled 0 w w.
Proof. repeat split. Qed.

Lemma polled_trans (j k : nat) (w W W' : world) :
  polled j w W -> polled k W W' -> polled (j + k) w W'.
Proof.
  intros (H1 & H2 & H3 & H4 & H5 & H6) (G1 & G2 & G3 & G4 & G5 & G6).
  repeat split; try congruence.
  rewrite G1, H1, drop_drop. reflexivity.
Qed.

(** A query of the process list consumes at most one output of
    [tasklist] and changes nothing else; it never raises. *)
Lemma is_process_running_polled (name : string) (w : world) :
  exists b k W,
    is_process_running name w = (Ret b, W) /\ (k <= 1)%nat /\ polled k w W /\
    (w_nt w = false -> b = false) /\
    (forall r, w_tasklist w = None :: r -> b = false).
Proof.
  unfold is_process_running. rewrite bind_run. unfold get at 1.
  destruct (w_nt w) eqn:Hnt; cbn [negb].
  - rewrite bind_run. unfold next_tasklist.
    destruct (w_tasklist w) as [|[lines|] r] eqn:Ht.
    + exists (existsb (fun line => Str.startswith (Str.lower line) (Str.lower name)) []), 0%nat, w.
      repeat split; auto; try discriminate.
    + eexists _, 1%nat, _. split; [reflexivity|].
      repeat split; auto; try discriminate. wsimpl. now rewrite Ht.
    + eexists _, 1%nat, _. split; [reflexivity|].
      repeat split; auto; try discriminate. wsimpl. now rewrite Ht.
  - exists false, 0%nat, w. repeat split; auto.
Qed.

Lemma poll_stopped_polled (n : nat) (name : string) (w : world) :
  exists k W,
    poll_stopped n name w = (Ret tt, W) /\ (k <= n)%nat /\ polled k w W.
Proof.
  revert w. induction n as [|n IH]; intros w; cbn [poll_stopped].
  - exists 0%nat, w. repeat split. lia.
  - rewrite bind_run.
    destruct (is_process_running_polled name w) as (b & k & W & -> & Hk & HP & _).
    destruct b; cbn [negb].
    + destruct (IH W) as (k' & W' & -> & Hk' & HP').
      exists (k + k')%nat, W'. split; [reflexivity|]. split; [lia|].
      eapply polled_trans; eauto.
    + exists k, W. repeat split; auto; try apply HP. lia.
Qed.


Lemma taskkill_run (name : string) (w : world) :
  taskkill name w =
  let W := drop_fault ScTaskkill (traced (EvTaskkill name) w) in
  match next_fault ScTaskkill w with
  | NoFault => (Ret tt, W)
  | _ => (Raise OSError, W)
  end.
Proof.
  unfold taskkill, trace. rewrite bind_run. unfold modify at 1.
  rewrite bind_run. unfold pop_fault at 1.
  change (next_fault ScTaskkill (traced (EvTaskkill name) w))
    with (next_fault ScTaskkill w).
  destruct (next_fault ScTaskkill w); reflexivity.
Qed.

(** Everything the callers of [terminate_process] need. *)
Lemma terminate_process_spec (name : string) (w : world) :
  exists b w' k,
    terminate_process name w = (Ret b, w') /\
    (k <= 12)%nat /\
    w_tasklist w' = drop k (w_tasklist w) /\
    w_fs w' = w_fs w /\
    ((b = true /\ w_trace w' = w_trace w /\ w_log w' = w_log w /\ (k <= 1)%nat) \/
     (w_nt w = true /\ w_trace w' = (w_trace w ++ [EvTaskkill name])%list /\
      (b = false ->
       last (w_log w') =
         Some ("Unable to terminate " ++ name ++ "; it may require manual closure.") \/
       exists e, last (w_log w') = Some ("Error terminating " ++ name ++ ": " ++ exn_str e)))) /\
    ((w_nt w = false \/ exists r, w_tasklist w = None :: r) ->
     b = true /\ w_trace w' = w_trace w).
Proof.
  unfold terminate_process. rewrite bind_run. unfold get at 1.
  destruct (w_nt w) eqn:Hnt; cbn [negb].
  2:{ exists true, w, 0%nat. split; [reflexivity|]. split; [lia|].
      split; [reflexivity|]. split; [reflexivity|].
      split; [left; repeat split; auto | intros _; split; reflexivity]. }
  rewrite bind_run.
  destruct (is_process_running_polled name w)
    as (b0 & k0 & W0 & -> & Hk0 & (P1 & P2 & P3 & P4 & P5 & P6) & _ & Hnone).
  destruct b0; cbn [negb].
  2:{ exists true, W0, k0. split; [reflexivity|]. split; [lia|].
      split; [exact P1|]. split; [exact P2|].
      split; [left; repeat split; auto | intros _; split; auto]. }
  assert (Hcontra : (true = false \/ exists r, w_tasklist w = None :: r) -> False).
  { intros [F|[r F]]; [discriminate F|].
    apply Hnone in F. discriminate F. }
  rewrite bind_run, log_run. unfold try_except.
  rewrite bind_run, taskkill_run. cbv zeta.
  set (W1 := logged _ W0).
  set (W2 := drop_fault ScTaskkill (traced (EvTaskkill name) W1)).
  assert (T2 : w_tasklist W2 = drop k0 (w_tasklist w)) by exact P1.
  assert (F2 : w_fs W2 = w_fs w) by exact P2.
  assert (R2 : w_trace W2 = (w_trace w ++ [EvTaskkill name])%list).
  { unfold W2, W1, traced, logged; wsimpl. now rewrite P3. }
  change (next_fault ScTaskkill W1) with (next_fault ScTaskkill W0).
  clearbody W2. clear W1.
  assert (Herr : exists b w' k,
    (log ("Error terminating " ++ name ++ ": " ++ exn_str OSError);;; ret false)%py W2
      = (Ret b, w') /\
    (k <= 12)%nat /\ w_tasklist w' = drop k (w_tasklist w) /\ w_fs w' = w_fs w /\
    ((b = true /\ w_trace w' = w_trace w /\ w_log w' = w_log w /\ (k <= 1)%nat) \/
     (true = true /\ w_trace w' = (w_trace w ++ [EvTaskkill name])%list /\
      (b = false ->
       last (w_log w') =
         Some ("Unable to terminate " ++ name ++ "; it may require manual closure.") \/
       exists e, last (w_log w') = Some ("Error terminating " ++ name ++ ": " ++ exn_str e)))) /\
    ((true = false \/ exists r, w_tasklist w = None :: r) ->
     b = true /\ w_trace w' = w_trace w)).
  { rewrite bind_run, log_run. eexists false, _, k0. split; [reflexivity|].
    split; [lia|]. unfold logged; wsimpl. rewrite T2, F2, R2.
    split; [reflexivity|]. split; [reflexivity|]. split.
    - right. repeat split; auto. intros _. right. exists OSError. apply last_snoc.
    - intros H. destruct (Hcontra H). }
  destruct (next_fault ScTaskkill W0); [|exact Herr ..]. clear Herr.
  rewrite bind_run.
  destruct (poll_stopped_polled 10 name W2)
    as (k1 & W3 & -> & Hk1 & (Q1 & Q2 & Q3 & Q4 & Q5 & Q6)).
  rewrite bind_run.
  destruct (is_process_running_polled name W3)
    as (b2 & k2 & W4 & -> & Hk2 & (S1 & S2 & S3 & S4 & S5 & S6) & _).
  assert (T4 : w_tasklist W4 = drop (k0 + k1 + k2) (w_tasklist w)).
  { rewrite S1, Q1, T2, !drop_drop. f_equal. lia. }
  assert (F4 : w_fs W4 = w_fs w) by congruence.
  assert (R4 : w_trace W4 = (w_trace w ++ [EvTaskkill name])%list) by congruence.
  destruct b2.
  - rewrite bind_run, log_run. eexists false, _, (k0 + k1 + k2)%nat.
    split; [reflexivity|]. split; [lia|]. unfold logged; wsimpl.
    split; [exact T4|]. split; [exact F4|]. split.
    + right. repeat split; auto. intros _. left. apply last_snoc.
    + intros H. destruct (Hcontra H).
  - eexists true, _, (k0 + k1 + k2)%nat.
    split; [reflexivity|]. split; [lia|].
    split; [exact T4|]. split; [exact F4|]. split.
    + right. repeat split; auto. discriminate.
    + intros H. destruct (Hcontra H).
Qed.


(** [terminate_process] always returns a boolean, even when [taskkill]
    or [tasklist] fail; it asks for the process list at most twelve times
    (once before, ten times while polling, once after), issues at most
    one [taskkill], and never touches a file. *)
Theorem terminate_process_bounded (name : string) (w : world) :
  exists b w' k,
    terminate_process name w = (Ret b, w') /\
    (k <= 12)%nat /\
    w_tasklist w' = drop k (w_tasklist w) /\
    w_fs w' = w_fs w /\
    (w_trace w' = w_trace w \/ w_trace w' = (w_trace w ++ [EvTaskkill name])%list).
Proof.
  destruct (terminate_process_spec name w) as (b & w' & k & E & Hk & Ht & Hf & Hc & _).
  exists b, w', k. repeat split; auto.
  destruct Hc as [(_ & H & _)|(_ & H & _)]; auto.
Qed.

(** [terminate_process] gives up only on Windows, only after it issued
    the [taskkill], and it says why in the log: the process was still
    listed after the polling, or the kill itself raised. *)
Theorem terminate_process_false (name : string) (w w' : world) :
  terminate_process name w = (Ret false, w') ->
  w_nt w = true /\
  w_trace w' = (w_trace w ++ [EvTaskkill name])%list /\
  (last (w_log w') =
     Some ("Unable to terminate " ++ name ++ "; it may require manual closure.") \/
   exists e, last (w_log w') = Some ("Error terminating " ++ name ++ ": " ++ exn_str e)).
Proof.
  intros H.
  destruct (terminate_process_spec name w) as (b & w1 & k & E & _ & _ & _ & Hc & _).
  rewrite E in H. injection H as -> ->.
  destruct Hc as [(F & _)|(Hnt & Ht & Hl)]; [discriminate F|]. auto.
Qed.

Lemma terminate_process_false_witness :
  terminate_process "Lon.exe" Scenario.kill_fails
    = (Ret false, snd (terminate_process "Lon.exe" Scenario.kill_fails)) /\
  w_trace (snd (terminate_process "Lon.exe" Scenario.kill_fails))
    = (w_trace Scenario.kill_fails ++ [EvTaskkill "Lon.exe"])%list.
Proof.
  assert (H : terminate_process "Lon.exe" Scenario.kill_fails
              = (Ret false, snd (terminate_process "Lon.exe" Scenario.kill_fails)))
    by (apply run_pair; vm_compute; reflexivity).
  split; [exact H|]. exact (proj1 (proj2 (terminate_process_false _ _ _ H))).
Defined.

(** Off Windows, and on Windows when [tasklist] cannot be run, the
    application counts as not running: [terminate_process] returns
    [True] without issuing a [taskkill], and the update goes on. *)
Theorem terminate_process_unknown_is_stopped (name : string) (w : world) :
  (w_nt w = false \/ exists r, w_tasklist w = None :: r) ->
  exists w',
    terminate_process name w = (Ret true, w') /\
    w_trace w' = w_trace w /\ w_fs w' = w_fs w.
Proof.
  intros H.
  destruct (terminate_process_spec name w) as (b & w' & k & E & _ & _ & Hf & _ & Hu).
  destruct (Hu H) as [-> Ht]. eauto.
Qed.

Lemma terminate_process_unknown_is_stopped_witness :
  exists w',
    terminate_process "Lon.exe" Scenario.tasklist_fails = (Ret true, w') /\
    w_trace w' = w_trace Scenario.tasklist_fails /\
    w_fs w' = w_fs Scenario.tasklist_fails.
Proof.
  apply (terminate_process_unknown_is_stopped "Lon.exe" Scenario.tasklist_fails).
  right. exists []. reflexivity.
Defined.

End Guard.

(** ** Confirmation *)

Module Confirm.
Import Run.


Lemma console_answer_cons (l : string) (r : list string) :
  console_answer (l :: r) =
  match answer_of l with
  | Some b => (Some b, r)
  | None => console_answer r
  end.
Proof.
  cbn [console_answer]. unfold answer_of. cbv zeta.
  destruct (bool_decide _ || bool_decide _); [reflexivity|].
  destruct (bool_decide _ || bool_decide _ || bool_decide _); reflexivity.
Qed.

Lemma console_answer_skip (pre rest : list string) :
  Forall (fun x => answer_of x = None) pre ->
  console_answer (pre ++ rest) = console_answer rest.
Proof.
  induction 1 as [|x pre Hx _ IH]; [reflexivity|].
  rewrite <- app_comm_cons, console_answer_cons, Hx. exact IH.
Qed.

Lemma console_answer_yes (lines rest : list string) :
  console_answer lines = (Some true, rest) ->
  exists l, l ∈ lines /\ answer_of l = Some true.
Proof.
  induction lines as [|l r IH]; [discriminate|].
  rewrite console_answer_cons. destruct (answer_of l) as [b|] eqn:E.
  - intros [= -> ->]. exists l. split; [apply elem_of_cons; now left | exact E].
  - intros H. destruct (IH H) as (x & Hx & Ex). exists x.
    split; [apply elem_of_cons; now right | exact Ex].
Qed.

(** [confirm_update] when the console is asked: on Windows only when the
    message box raised. *)
Lemma confirm_console_run (w : world) :
  (w_nt w = false \/ w_msgbox w = None) ->
  confirm_update w =
  let W := set_stdin (fun _ => snd (console_answer (w_stdin w))) (traced EvConfirm w) in
  match fst (console_answer (w_stdin w)) with
  | Some b => (Ret b, W)
  | None => (Raise EOFError, W)
  end.
Proof.
  intros H. unfold confirm_update, trace.
  rewrite bind_run. unfold modify at 1. rewrite bind_run. unfold get at 1.
  rewrite bind_run. unfold get at 1.
  change (w_nt (traced EvConfirm w)) with (w_nt w).
  change (w_msgbox (traced EvConfirm w)) with (w_msgbox w).
  assert (E : match w_nt w, w_msgbox w with
              | true, Some result => ret (result =? 6)%Z
              | _, _ => console_prompt
              end = console_prompt).
  { destruct H as [-> | ->]; [reflexivity | now destruct (w_nt w)]. }
  rewrite E. unfold console_prompt. rewrite bind_run. unfold get at 1.
  change (w_stdin (traced EvConfirm w)) with (w_stdin w).
  destruct (console_answer (w_stdin w)) as [[b|] r]; reflexivity.
Qed.

(** At the console the first line that is an answer decides: lines that
    are neither yes nor no are skipped, a blank line is a no, and the
    lines after the answer stay unread. *)
Theorem confirm_first_answer_decides
    (pre rest : list string) (l : string) (b : bool) (w : world) :
  (w_nt w = false \/ w_msgbox w = None) ->
  w_stdin w = (pre ++ l :: rest)%list ->
  Forall (fun x => answer_of x = None) pre ->
  answer_of l = Some b ->
  exists w',
    confirm_update w = (Ret b, w') /\ w_stdin w' = rest /\ w_fs w' = w_fs w.
Proof.
  intros Hc Hs Hpre Hl. rewrite (confirm_console_run w Hc). cbv zeta.
  rewrite Hs, (console_answer_skip pre (l :: rest) Hpre), console_answer_cons, Hl.
  eexists; split; [reflexivity|]. split; reflexivity.
Qed.

Lemma confirm_first_answer_decides_witness :
  exists w',
    confirm_update Scenario.hesitant = (Ret false, w') /\
    w_stdin w' = ["y"] /\ w_fs w' = w_fs Scenario.hesitant.
Proof.
  apply (confirm_first_answer_decides ["maybe"] ["y"] "  " false Scenario.hesitant).
  - left. reflexivity.
  - reflexivity.
  - repeat constructor.
  - reflexivity.
Defined.

(** When the input ends before any answer, the console prompt raises
    [EOFError]; [confirm_update] does not catch it. *)
Theorem confirm_end_of_input_raises (w : world) :
  (w_nt w = false \/ w_msgbox w = None) ->
  Forall (fun x => answer_of x = None) (w_stdin w) ->
  exists w', confirm_update w = (Raise EOFError, w') /\ w_stdin w' = [].
Proof.
  intros Hc Hall. rewrite (confirm_console_run w Hc). cbv zeta.
  pose proof (console_answer_skip (w_stdin w) [] Hall) as E.
  rewrite app_nil_r in E. rewrite E. cbn [console_answer fst snd].
  eexists; split; reflexivity.
Qed.

Lemma confirm_end_of_input_raises_witness :
  exists w',
    confirm_update (set_stdin (fun _ => ["maybe"]) Scenario.hesitant) = (Raise EOFError, w') /\
    w_stdin w' = [].
Proof.
  apply (confirm_end_of_input_raises (set_stdin (fun _ => ["maybe"]) Scenario.hesitant)).
  - left. reflexivity.
  - repeat constructor.
Defined.

(** [confirm_update] answers [True] only for an explicit yes: the
    message box returned IDYES (6), or a line typed at the console reads
    [y] or [yes], whatever the case and the white space around it. *)
Theorem confirm_yes_is_explicit (w w' : world) :
  confirm_update w = (Ret true, w') ->
  (w_nt w = true /\ w_msgbox w = Some 6%Z) \/
  exists l, l ∈ w_stdin w /\ answer_of l = Some true.
Proof.
  destruct (w_nt w) eqn:Hnt; [destruct (w_msgbox w) as [r|] eqn:Hb|].
  - unfold confirm_update, trace.
    rewrite bind_run. unfold modify at 1. rewrite bind_run. unfold get at 1.
    rewrite bind_run. unfold get at 1.
    change (w_nt (traced EvConfirm w)) with (w_nt w).
    change (w_msgbox (traced EvConfirm w)) with (w_msgbox w).
    rewrite Hnt, Hb. intros [= H _]. left. split; [reflexivity|].
    apply Z.eqb_eq in H. now subst r.
  - rewrite (confirm_console_run w (or_intror Hb)). cbv zeta.
    destruct (console_answer (w_stdin w)) as [[b|] r] eqn:E; [|discriminate].
    intros [= -> _]. right. eapply console_answer_yes; eauto.
  - rewrite (confirm_console_run w (or_introl Hnt)). cbv zeta.
    destruct (console_answer (w_stdin w)) as [[b|] r] eqn:E; [|discriminate].
    intros [= -> _]. right. eapply console_answer_yes; eauto.
Qed.

Lemma confirm_yes_is_explicit_witness :
  confirm_update Scenario.fault_free
    = (Ret true, snd (confirm_update Scenario.fault_free)) /\
  ((w_nt Scenario.fault_free = true /\ w_msgbox Scenario.fault_free = Some 6%Z) \/
   exists l, l ∈ w_stdin Scenario.fault_free /\ answer_of l = Some true).
Proof.
  assert (H : confirm_update Scenario.fault_free
              = (Ret true, snd (confirm_update Scenario.fault_free)))
    by (apply run_pair; vm_compute; reflexivity).
  split; [exact H|]. exact (confirm_yes_is_explicit _ _ H).
Defined.

End Confirm.

(** ** The run, branch by branch *)

Module Flow.
Import Run.
Import EngineMore.


Lemma confirm_update_keeps (w w1 : world) (r : res bool) :
  confirm_update w = (r, w1) ->
  w_fs w1 = w_fs w /\ w_log w1 = w_log w /\
  w_trace w1 = (w_trace w ++ [EvConfirm])%list /\
  w_faults w1 = w_faults w /\ w_nt w1 = w_nt w /\ w_tasklist w1 = w_tasklist w /\
  w_dirs w1 = w_dirs w.
Proof.
  destruct (w_nt w) eqn:Hnt; [destruct (w_msgbox w) as [z|] eqn:Hb|].
  - unfold confirm_update, trace.
    rewrite bind_run. unfold modify at 1. rewrite bind_run. unfold get at 1.
    rewrite bind_run. unfold get at 1.
    change (w_nt (traced EvConfirm w)) with (w_nt w).
    change (w_msgbox (traced EvConfirm w)) with (w_msgbox w).
    rewrite Hnt, Hb. intros [= <- <-]. repeat split; auto.
  - rewrite (Confirm.confirm_console_run w (or_intror Hb)). cbv zeta.
    destruct (fst (console_answer (w_stdin w))); intros [= <- <-]; repeat split; auto.
  - rewrite (Confirm.confirm_console_run w (or_introl Hnt)). cbv zeta.
    destruct (fst (console_answer (w_stdin w))); intros [= <- <-]; repeat split; auto.
Qed.

(** An abort branch of [main]: the outcome line, the bare removal of the
    candidate, the exit.  It ends with the exit, or with the exception of
    the removal; it changes no file but the candidate. *)
Lemma log_remove_exit (msg dl : string) (c : Z) (w : world) :
  exists r w',
    (log msg;;; os_remove dl;;; sys_exit (A:=unit) c)%py w = (r, w') /\
    (r = Exit c \/ exists e, r = Raise e) /\
    (next_fault ScRemove w = NoFault -> is_Some (w_fs w !! dl) -> r = Exit c) /\
    last (w_log w') = Some msg /\
    w_trace w' = (w_trace w ++ [EvRemove dl])%list /\
    (forall p, p <> dl -> w_fs w' !! p = w_fs w !! p) /\
    w_dirs w' = w_dirs w.
Proof.
  rewrite bind_run, log_run, bind_run, os_remove_run. cbv zeta.
  change (w_fs (logged msg w)) with (w_fs w).
  change (next_fault ScRemove (logged msg w)) with (next_fault ScRemove w).
  destruct (w_fs w !! dl) as [fl|].
  - destruct (next_fault ScRemove w); eexists _, _; (split; [reflexivity|]);
      unfold logged, traced; wsimpl;
      (split; [eauto|]); (split; [intros H; try discriminate H; auto|]);
      (split; [apply last_snoc|]); (split; [reflexivity|]);
      (split; [|reflexivity]); intros p Hp; rewrite ?lookup_delete_ne by auto; reflexivity.
  - eexists _, _; (split; [reflexivity|]); unfold logged, traced; wsimpl.
    split; [eauto|]. split; [intros _ [? H]; discriminate H|].
    split; [apply last_snoc|]. repeat split; auto.
Qed.

(** When the user declines, the run ends at once: with status 0, or with
    the exception of the candidate's removal.  No file but the candidate
    is changed, no directory is created, and the only system calls are
    the prompt and that removal: nothing is stopped, backed up or
    replaced. *)
Theorem install_update_declined (dl install bdir pn : string) (w w1 : world) :
  confirm_update w = (Ret false, w1) ->
  exists r w',
    install_update dl install bdir pn w = (r, w') /\
    (r = Exit 0 \/ exists e, r = Raise e) /\
    last (w_log w') = Some "User declined update." /\
    w_trace w' = (w_trace w ++ [EvConfirm; EvRemove dl])%list /\
    (forall p, p <> dl -> w_fs w' !! p = w_fs w !! p) /\
    w_dirs w' = w_dirs w.
Proof.
  intros Hc. unfold install_update. rewrite bind_run, Hc. cbn [negb].
  destruct (confirm_update_keeps _ _ _ Hc) as (Hf & _ & Ht & _ & _ & _ & Hd1).
  destruct (log_remove_exit "User declined update." dl 0 w1)
    as (r & w' & E & Hr & _ & Hl & Htr & Hfr & Hd).
  exists r, w'. split; [exact E|]. split; [exact Hr|]. split; [exact Hl|].
  split; [rewrite Htr, Ht, <- app_assoc; reflexivity|].
  split; [intros p Hp; rewrite Hfr by auto; now rewrite Hf|].
  now rewrite Hd, Hd1.
Qed.

Lemma install_update_declined_witness :
  exists r w',
    install_update "/tmp/b.exe" "app/Lon.exe" "bk" "Lon.exe"
      (Scenario.downloaded "NEW" "n" Scenario.no_faults) = (r, w') /\
    (r = Exit 0 \/ exists e, r = Raise e) /\
    w_fs w' !! "app/Lon.exe" = Some Scenario.old_file.
Proof.
  destruct (install_update_declined "/tmp/b.exe" "app/Lon.exe" "bk" "Lon.exe"
              (Scenario.downloaded "NEW" "n" Scenario.no_faults)
              (snd (confirm_update (Scenario.downloaded "NEW" "n" Scenario.no_faults))))
    as (r & w' & E & Hr & _ & _ & Hf & _).
  - apply run_pair. vm_compute. reflexivity.
  - exists r, w'. split; [exact E|]. split; [exact Hr|].
    rewrite Hf by discriminate. reflexivity.
Defined.


(** When the application cannot be stopped, the run ends after the
    [taskkill]: with status 1, or with the exception of the candidate's
    removal.  No file but the candidate is changed: a binary whose
    process may still be alive is never backed up or replaced. *)
Theorem install_update_not_stopped (dl install bdir pn : string) (w w1 w2 : world) :
  confirm_update w = (Ret true, w1) ->
  terminate_process pn w1 = (Ret false, w2) ->
  exists r w',
    install_update dl install bdir pn w = (r, w') /\
    (r = Exit 1 \/ exists e, r = Raise e) /\
    last (w_log w') = Some "Update aborted because the application could not be closed." /\
    w_trace w' = (w_trace w ++ [EvConfirm; EvTaskkill pn; EvRemove dl])%list /\
    (forall p, p <> dl -> w_fs w' !! p = w_fs w !! p).
Proof.
  intros Hc Ht. unfold install_update. rewrite bind_run, Hc. cbn [negb].
  rewrite bind_run, Ht. cbn [negb].
  destruct (confirm_update_keeps _ _ _ Hc) as (Hf1 & _ & Ht1 & _).
  destruct (Guard.terminate_process_spec pn w1) as (b & w2' & k & E & _ & _ & Hf2 & Hcase & _).
  rewrite E in Ht. injection Ht as -> ->.
  destruct Hcase as [(F & _)|(_ & Ht2 & _)]; [discriminate F|].
  destruct (log_remove_exit "Update aborted because the application could not be closed."
              dl 1 w2) as (r & w' & E' & Hr & _ & Hl & Htr & Hfr & _).
  exists r, w'. split; [exact E'|]. split; [exact Hr|]. split; [exact Hl|].
  split.
  - rewrite Htr, Ht2, Ht1, <- !app_assoc. reflexivity.
  - intros p Hp. rewrite Hfr by auto. now rewrite Hf2, Hf1.
Qed.

Lemma install_update_not_stopped_witness :
  exists r w',
    install_update "/tmp/b.exe" "app/Lon.exe" "bk" "Lon.exe" Scenario.kill_fails = (r, w') /\
    (r = Exit 1 \/ exists e, r = Raise e) /\
    w_fs w' !! "app/Lon.exe" = Some Scenario.old_file.
Proof.
  destruct (install_update_not_stopped "/tmp/b.exe" "app/Lon.exe" "bk" "Lon.exe"
              Scenario.kill_fails
              (snd (confirm_update Scenario.kill_fails))
              (snd (terminate_process "Lon.exe" (snd (confirm_update Scenario.kill_fails)))))
    as (r & w' & E & Hr & _ & _ & Hf).
  - apply run_pair. vm_compute. reflexivity.
  - apply run_pair. vm_compute. reflexivity.
  - exists r, w'. split; [exact E|]. split; [exact Hr|].
    rewrite Hf by discriminate. reflexivity.
Defined.


Lemma setup_logging_keeps (d : string) (w : world) :
  exists r W,
    setup_logging d w = (r, W) /\
    (r = Ret tt \/ exists e, r = Raise e) /\
    w_fs W = w_fs w /\ w_tmpnames W = w_tmpnames w /\ w_log W = w_log w.
Proof.
  unfold setup_logging. rewrite bind_run, os_makedirs_run. cbv zeta.
  destruct d as [|c d]; [eexists _, _; split; [reflexivity|]; eauto 10|].
  destruct (w_fs w !! String c d); [eexists _, _; split; [reflexivity|]; eauto 10|].
  destruct (next_fault ScMakedirs w);
    try (eexists _, _; split; [reflexivity|]; eauto 10).
  rewrite bind_run. unfold pop_fault at 1.
  destruct (next_fault ScOpenLog _); eexists _, _; (split; [reflexivity|]); eauto 10.
Qed.

Section Main.

Variable sha256 : string -> string.

(** When a required key of the configuration is missing or empty, [main]
    stops before it downloads anything: it exits with status 1 after the
    line that names the required fields (or ends with the exception of
    the log set-up), and the files and the temporary names are
    untouched. *)
Theorem main_incomplete_config (cfg : config) (w : world) :
  w_config w = ConfigLoaded cfg ->
  Str.truthy (releases_url cfg) && Str.truthy (expected_sha256_url cfg) &&
    Str.truthy (install_path cfg) && Str.truthy (backup_path cfg) = false ->
  exists r w',
    main sha256 w = (r, w') /\
    (r = Exit 1 \/ exists e, r = Raise e) /\
    (r = Exit 1 ->
     last (w_log w') = Some "Configuration is missing required fields (releases_url, expected_sha256_url, install_path, backup_path)") /\
    w_fs w' = w_fs w /\ w_tmpnames w' = w_tmpnames w.
Proof.
  intros Hcfg Hmiss. unfold main.
  rewrite bind_run. unfold get at 1. rewrite bind_run. unfold get at 1.
  rewrite Hcfg. rewrite bind_run.
  destruct (setup_logging_keeps (Path.join (Path.dirname (w_argv0 w)) "logs") w)
    as (r0 & W & -> & Hr0 & Hf & Ht & _).
  destruct Hr0 as [->|[e ->]].
  2:{ eexists _, _; split; [reflexivity|]. split; [eauto|].
      split; [discriminate|]. auto. }
  rewrite bind_run, log_run, bind_run, log_run.
  set (W2 := logged _ (logged _ W)).
  assert (Hf2 : w_fs W2 = w_fs w) by exact Hf.
  assert (Ht2 : w_tmpnames W2 = w_tmpnames w) by exact Ht.
  clearbody W2.
  assert (Hend : exists r w',
    (log "Configuration is missing required fields (releases_url, expected_sha256_url, install_path, backup_path)";;;
     sys_exit (A:=unit) 1)%py W2 = (r, w') /\
    (r = Exit 1 \/ exists e, r = Raise e) /\
    (r = Exit 1 ->
     last (w_log w') = Some "Configuration is missing required fields (releases_url, expected_sha256_url, install_path, backup_path)") /\
    w_fs w' = w_fs w /\ w_tmpnames w' = w_tmpnames w).
  { rewrite bind_run, log_run. eexists _, _; split; [reflexivity|].
    split; [auto|]. split; [intros _; apply last_snoc|]. auto. }
  destruct (releases_url cfg) as [[|]|]; try exact Hend;
  destruct (expected_sha256_url cfg) as [[|]|]; try exact Hend;
  destruct (install_path cfg) as [[|]|]; try exact Hend;
  destruct (backup_path cfg) as [[|]|]; try exact Hend.
  discriminate Hmiss.
Qed.

End Main.

Lemma main_incomplete_config_witness :
  exists r w',
    main Scenario.digest Scenario.no_install_path = (r, w') /\
    (r = Exit 1 \/ exists e, r = Raise e) /\
    w_fs w' = w_fs Scenario.no_install_path.
Proof.
  destruct (main_incomplete_config Scenario.digest _ Scenario.no_install_path eq_refl eq_refl)
    as (r & w' & E & Hr & _ & Hf & _).
  exists r, w'. auto.
Defined.


Section Fetch.

Variable sha256 : string -> string.

(** When the checksum URL cannot be fetched (network error, or an HTTP
    status of 400 or more), the run exits with status 1 after "Unable to
    retrieve expected checksum. Aborting."; the release is never
    requested: no temporary file is created and no file is touched. *)
Theorem reference_unavailable_aborts
    (releases checksum_url install bdir pn : string) (w : world) :
  (w_net w checksum_url = NetError \/
   exists st body, w_net w checksum_url = Response st body /\ (400 <= st)%nat) ->
  exists w',
    fetch_and_update sha256 releases checksum_url install bdir pn w = (Exit 1, w') /\
    last (w_log w') = Some "Unable to retrieve expected checksum. Aborting." /\
    w_fs w' = w_fs w /\ w_tmpnames w' = w_tmpnames w /\ w_trace w' = w_trace w.
Proof.
  intros Hnet. unfold fetch_and_update.
  rewrite bind_run. unfold os_path_isfile at 1, get at 1. rewrite bind_run.
  set (m0 := if negb (bool_decide (is_Some (w_fs w !! install)))
             then log ("Current installation not found at " ++ install) else ret tt).
  assert (H0 : exists W0, m0 w = (Ret tt, W0) /\ w_fs W0 = w_fs w /\
                          w_tmpnames W0 = w_tmpnames w /\ w_trace W0 = w_trace w /\
                          w_net W0 = w_net w).
  { unfold m0. destruct (negb _); eexists; (split; [reflexivity|]); auto. }
  destruct H0 as (W0 & -> & Hf0 & Ht0 & Hr0 & Hn0).
  rewrite bind_run. unfold read_remote_checksum.
  rewrite bind_run, Network.download_to_temp_run. cbv zeta. rewrite Hn0.
  assert (Hend : forall (W : world),
    w_fs W = w_fs w -> w_tmpnames W = w_tmpnames w -> w_trace W = w_trace w ->
    exists w',
      (log "Unable to retrieve expected checksum. Aborting.";;; sys_exit (A:=unit) 1)%py W
        = (Exit 1, w') /\
      last (w_log w') = Some "Unable to retrieve expected checksum. Aborting." /\
      w_fs w' = w_fs w /\ w_tmpnames w' = w_tmpnames w /\ w_trace w' = w_trace w).
  { intros W H1 H2 H3. rewrite bind_run, log_run. eexists; split; [reflexivity|].
    split; [apply last_snoc|]. auto. }
  destruct Hnet as [->|(st & body & -> & Hst)].
  - apply Hend; assumption.
  - apply Nat.leb_le in Hst. rewrite Hst. apply Hend; assumption.
Qed.

(** Only the lower-cased digests matter to the run: the comparison with
    the reference and the comparison with the installed file are both
    case-insensitive. *)
Theorem digests_compared_without_case
    (expected expected' new_digest new_digest' dl install bdir pn : string) (w : world) :
  Str.lower expected = Str.lower expected' ->
  Str.lower new_digest = Str.lower new_digest' ->
  verify_and_install sha256 expected new_digest dl install bdir pn w =
  verify_and_install sha256 expected' new_digest' dl install bdir pn w.
Proof.
  intros He Hn. unfold verify_and_install, check_up_to_date.
  rewrite He, Hn. reflexivity.
Qed.

End Fetch.

Lemma reference_unavailable_aborts_witness :
  exists w',
    fetch_and_update Scenario.digest "http://host/Lon.exe" "http://elsewhere/Lon.sha"
      "app/Lon.exe" "bk" "Lon.exe" Scenario.fault_free = (Exit 1, w') /\
    w_fs w' = w_fs Scenario.fault_free.
Proof.
  destruct (reference_unavailable_aborts Scenario.digest "http://host/Lon.exe"
              "http://elsewhere/Lon.sha" "app/Lon.exe" "bk" "Lon.exe" Scenario.fault_free)
    as (w' & E & _ & Hf & _).
  - left. reflexivity.
  - exists w'. auto.
Defined.

Lemma digests_compared_without_case_witness :
  verify_and_install Scenario.digest "ABCdef" "abcDEF" "/tmp/b.exe" "app/Lon.exe" "bk"
    "Lon.exe" Scenario.fault_free =
  verify_and_install Scenario.digest "abcdef" "ABCDEF" "/tmp/b.exe" "app/Lon.exe" "bk"
    "Lon.exe" Scenario.fault_free.
Proof.
  apply (digests_compared_without_case Scenario.digest); reflexivity.
Defined.


(** On a first installation (nothing at the install path) a failed
    replacement ends the run with status 1, or with the exception of the
    candidate's removal; no backup and no rollback are attempted and the
    install path is still empty. *)
Theorem first_install_failure (dl install bdir : string) (w w1 : world) :
  w_fs w !! install = None ->
  atomic_replace dl install w = (Ret false, w1) ->
  exists r w',
    backup_and_replace dl install bdir w = (r, w') /\
    (r = Exit 1 \/ exists e, r = Raise e) /\
    last (w_log w') = Some "Failed to install update. Attempting rollback." /\
    w_trace w' = (w_trace w1 ++ [EvRemove dl])%list /\
    w_fs w' !! install = None.
Proof.
  intros Hi Hr. unfold backup_and_replace.
  rewrite bind_run. unfold os_path_isfile at 1, get at 1. rewrite Hi.
  rewrite bool_decide_eq_false_2 by (intros [? H]; discriminate H).
  rewrite bind_run. unfold ret at 1. unfold replace_step.
  rewrite bind_run, Hr. cbn [negb].
  assert (Hi1 : w_fs w1 !! install = None).
  { rewrite (Engine.atomic_replace_failure_frame _ _ _ _ Hr); [exact Hi|].
    intros E. symmetry in E. now apply Engine.tmp_dest_ne in E. }
  rewrite bind_run, log_run, bind_run. unfold ret at 1.
  set (W := logged _ w1).
  assert (HL : last (w_log W) = Some "Failed to install update. Attempting rollback.")
    by apply last_snoc.
  assert (HT : w_trace W = w_trace w1) by reflexivity.
  assert (HF : w_fs W = w_fs w1) by reflexivity.
  clearbody W.
  destruct (Engine.remove_then_exit dl W) as (r & w' & E & Hs & Hl & Ht & Hf).
  exists r, w'. split; [exact E|].
  split.
  { destruct r as [[]|e|c]; cbn in Hs; [discriminate Hs | eauto | left; now subst c]. }
  split; [now rewrite Hl|]. split; [now rewrite Ht, HT|].
  destruct (decide (install = dl)) as [->|Hne].
  - revert E. rewrite bind_run, os_remove_run. cbv zeta. rewrite HF, Hi1.
    intros [= _ <-]. unfold traced; wsimpl. now rewrite HF.
  - rewrite Hf by auto. now rewrite HF.
Qed.

Lemma first_install_failure_witness :
  exists r w',
    backup_and_replace "/tmp/b.exe" "new/Lon.exe" "bk" Scenario.replace_fails = (r, w') /\
    (r = Exit 1 \/ exists e, r = Raise e) /\
    w_fs w' !! "new/Lon.exe" = None.
Proof.
  destruct (first_install_failure "/tmp/b.exe" "new/Lon.exe" "bk" Scenario.replace_fails
              (snd (atomic_replace "/tmp/b.exe" "new/Lon.exe" Scenario.replace_fails)))
    as (r & w' & E & Hr & _ & _ & Hf).
  - reflexivity.
  - apply run_pair. vm_compute. reflexivity.
  - exists r, w'. auto.
Defined.

(** A completed update keeps the old version: after a successful backup
    and a successful replacement, the backup file holds the pre-update
    file, bytes and metadata, and the install path holds the candidate. *)
Theorem update_keeps_old_version (dl install bdir b : string) (w w1 w2 : world) :
  dl <> install -> dl <> b ->
  is_Some (w_fs w !! install) ->
  backup_file install bdir w = (Ret (Some b), w1) ->
  atomic_replace dl install w1 = (Ret true, w2) ->
  exists w',
    backup_and_replace dl install bdir w = (Ret tt, w') /\
    w_fs w' !! b = w_fs w !! install /\
    w_fs w' !! install = w_fs w !! dl /\
    last (w_log w') = Some "==========================================".
Proof.
  intros Hne Hnb [fl Hfl] Hb Hr.
  pose proof Hb as Hb'.
  apply Engine.backup_file_some in Hb' as (Eb & _ & (fl' & Hfl' & Hfs1) & _ & _).
  rewrite Hfl in Hfl'. injection Hfl' as <-.
  destruct (atomic_replace_true _ _ _ _ Hr) as (fc & Hs & Ht & Hd & _ & Hfr & _).
  assert (Hbi : b <> install).
  { intros ->. rewrite Hfs1, lookup_insert_ne in Hs by auto.
    revert Hb. rewrite Engine.backup_file_run. cbv zeta. rewrite os_makedirs_run. cbv zeta.
    destruct bdir as [|c d]; [discriminate|].
    destruct (w_fs w !! String c d); [discriminate|].
    destruct (next_fault ScMakedirs w); try discriminate.
    rewrite shutil_copy2_run. cbv zeta. unfold traced; wsimpl. rewrite Hfl.
    rewrite bool_decide_eq_true_2 by exact Eb. discriminate. }
  assert (Hbt : b <> install ++ ".new") by (rewrite Eb; apply Engine.backup_path_not_tmp).
  unfold backup_and_replace.
  rewrite bind_run. unfold os_path_isfile at 1, get at 1.
  rewrite bool_decide_eq_true_2 by eauto.
  rewrite bind_run, bind_run, Hb.
  assert (Htr : Str.truthy (Some b) = true) by (rewrite Eb; apply Engine.backup_path_truthy).
  rewrite Htr. cbn [negb]. unfold ret at 1.
  unfold replace_step. rewrite bind_run, Hr. cbn [negb].
  rewrite bind_run, Orchestrator.swallow_remove_run. cbv zeta.
  assert (Hdl : w_fs w2 !! dl = Some fc) by (rewrite Hfr; auto).
  assert (Hb2 : w_fs w2 !! b = Some fl)
    by (rewrite Hfr, Hfs1 by auto; apply lookup_insert_eq).
  assert (Hc : w_fs w !! dl = Some fc).
  { rewrite Hfs1, lookup_insert_ne in Hs by auto. exact Hs. }
  rewrite Hdl.
  destruct (next_fault ScRemove w2); rewrite bind_run, log_run, log_run;
    eexists; (split; [reflexivity|]); unfold logged, traced; wsimpl;
    rewrite ?lookup_delete_ne by auto; rewrite Hb2, Hd, Hfl, Hc;
    repeat split; auto; apply last_snoc.
Qed.

Lemma update_keeps_old_version_witness :
  exists w',
    backup_and_replace "/tmp/b.exe" "app/Lon.exe" "bk" Scenario.candidate_ready
      = (Ret tt, w') /\
    w_fs w' !! "bk/Lon_20240309_070500.exe" = Some Scenario.old_file /\
    w_fs w' !! "app/Lon.exe" = Some (new_file "NEW").
Proof.
  destruct (update_keeps_old_version "/tmp/b.exe" "app/Lon.exe" "bk"
              "bk/Lon_20240309_070500.exe" Scenario.candidate_ready
              (snd (backup_file "app/Lon.exe" "bk" Scenario.candidate_ready))
              (snd (atomic_replace "/tmp/b.exe" "app/Lon.exe"
                      (snd (backup_file "app/Lon.exe" "bk" Scenario.candidate_ready)))))
    as (w' & E & Hb & Hi & _).
  - discriminate.
  - discriminate.
  - exists Scenario.old_file. reflexivity.
  - apply run_pair. vm_compute. reflexivity.
  - apply run_pair. vm_compute. reflexivity.
  - exists w'. split; [exact E|]. rewrite Hb, Hi. split; reflexivity.
Defined.

End Flow.

(** ** Outcomes of a run *)

Module Outcome.
Import Run.

(** *** Computations that only add to the log and to the trace *)

Lemma appends_same (w w' : world) :
  w_log w' = w_log w -> w_trace w' = w_trace w ->
  (exists l, w_log w' = (w_log w ++ l)%list) /\
  (exists evs, w_trace w' = (w_trace w ++ evs)%list).
Proof. intros -> ->. split; exists []; now rewrite app_nil_r. Qed.

Lemma appends_trans (w w1 w' : world) :
  ((exists l, w_log w1 = (w_log w ++ l)%list) /\
   (exists evs, w_trace w1 = (w_trace w ++ evs)%list)) ->
  ((exists l, w_log w' = (w_log w1 ++ l)%list) /\
   (exists evs, w_trace w' = (w_trace w1 ++ evs)%list)) ->
  (exists l, w_log w' = (w_log w ++ l)%list) /\
  (exists evs, w_trace w' = (w_trace w ++ evs)%list).
Proof.
  intros [[l1 L1] [e1 T1]] [[l2 L2] [e2 T2]]. split.
  - exists (l1 ++ l2)%list. now rewrite L2, L1, <- app_assoc.
  - exists (e1 ++ e2)%list. now rewrite T2, T1, <- app_assoc.
Qed.

Lemma appends_bind {A B} (m : M A) (k : A -> M B) :
  appends m -> (forall a, appends (k a)) -> appends (bind m k).
Proof.
  intros Hm Hk w r w'. rewrite bind_run.
  destruct (m w) as [[a|e|c] w1] eqn:E.
  - intros E'. apply (appends_trans w w1 w'); [now apply Hm in E | now apply Hk in E'].
  - intros [= <- <-]. now apply Hm in E.
  - intros [= <- <-]. now apply Hm in E.
Qed.

Lemma appends_try {A} (m : M A) (h : exn -> M A) :
  appends m -> (forall e, appends (h e)) -> appends (try_except m h).
Proof.
  intros Hm Hh w r w'. unfold try_except.
  destruct (m w) as [[a|e|c] w1] eqn:E.
  - intros [= <- <-]. now apply Hm in E.
  - intros E'. apply (appends_trans w w1 w'); [now apply Hm in E | now apply Hh in E'].
  - intros [= <- <-]. now apply Hm in E.
Qed.

Lemma appends_ret {A} (a : A) : appends (ret a).
Proof. intros w r w' [= <- <-]. now apply appends_same. Qed.

Lemma appends_raise {A} (e : exn) : appends (raise (A:=A) e).
Proof. intros w r w' [= <- <-]. now apply appends_same. Qed.

Lemma appends_exit {A} (c : Z) : appends (sys_exit (A:=A) c).
Proof. intros w r w' [= <- <-]. now apply appends_same. Qed.

Lemma appends_get {A} (f : world -> A) : appends (get f).
Proof. intros w r w' [= <- <-]. now apply appends_same. Qed.

Lemma appends_modify (f : world -> world) :
  (forall w, w_log (f w) = w_log w) -> (forall w, w_trace (f w) = w_trace w) ->
  appends (modify f).
Proof.
  intros HL HT w r w' [= <- <-]. now apply appends_same.
Qed.

Lemma appends_pop (k : syscall) : appends (pop_fault k).
Proof. intros w r w' [= <- <-]. now apply appends_same. Qed.

Lemma appends_tasklist : appends next_tasklist.
Proof.
  intros w r w'. unfold next_tasklist.
  destruct (w_tasklist w); intros [= <- <-]; now apply appends_same.
Qed.

Lemma appends_log (msg : string) : appends (log msg).
Proof.
  intros w r w' [= <- <-]. split; [now exists [msg] | exists []; now rewrite app_nil_r].
Qed.

Lemma appends_trace (ev : event) : appends (trace ev).
Proof.
  intros w r w' [= <- <-]. split; [exists []; now rewrite app_nil_r | now exists [ev]].
Qed.

Ltac appends_step :=
  first
    [ apply appends_ret | apply appends_raise | apply appends_exit | apply appends_get
    | apply appends_pop | apply appends_tasklist | apply appends_log
    | apply appends_trace
    | (apply appends_modify; intros; reflexivity)
    | assumption
    | apply appends_bind; [|intros ?]
    | apply appends_try; [|intros ?]
    | match goal with
      | |- appends (match ?x with _ => _ end) => destruct x
      | |- appends (let '(_, _) := ?x in _) => destruct x
      end ].

Ltac appends_tac := repeat appends_step.

Lemma appends_remove (p : string) : appends (os_remove p).
Proof. unfold os_remove, os_path_isfile. appends_tac. Qed.

Lemma appends_makedirs (d : string) : appends (os_makedirs d).
Proof. unfold os_makedirs, os_path_isfile. appends_tac. Qed.

Lemma appends_copy2 (src dst : string) : appends (shutil_copy2 src dst).
Proof. unfold shutil_copy2. appends_tac. Qed.

Lemma appends_os_replace (src dst : string) : appends (os_replace src dst).
Proof. unfold os_replace. appends_tac. Qed.

Lemma appends_running (name : string) : appends (is_process_running name).
Proof. unfold is_process_running. appends_tac. Qed.

Lemma appends_poll (n : nat) (name : string) : appends (poll_stopped n name).
Proof.
  induction n as [|n IH]; cbn [poll_stopped]; [apply appends_ret|].
  pose proof (appends_running name) as HR. appends_tac.
Qed.

Lemma appends_terminate (name : string) : appends (terminate_process name).
Proof.
  pose proof (appends_running name) as HR. pose proof (appends_poll 10 name) as HP.
  unfold terminate_process, taskkill. appends_tac.
Qed.

Lemma appends_backup (src dir : string) : appends (backup_file src dir).
Proof.
  pose proof (appends_makedirs dir) as HM.
  pose proof (appends_copy2 src) as HC.
  unfold backup_file. repeat first [apply HC | appends_step].
Qed.

Lemma appends_atomic_replace (src dest : string) : appends (atomic_replace src dest).
Proof.
  pose proof appends_makedirs as HM. pose proof appends_copy2 as HC.
  pose proof appends_os_replace as HR. pose proof appends_remove as HD.
  unfold atomic_replace, replace_failed, swallow, os_path_exists.
  repeat first [apply HM | apply HC | apply HR | apply HD | appends_step].
Qed.

Lemma appends_replace_step (dl install : string) (b : option string) :
  appends (replace_step dl install b).
Proof.
  pose proof (appends_atomic_replace dl install) as HA.
  pose proof appends_copy2 as HC. pose proof appends_remove as HD.
  unfold replace_step, rollback, swallow.
  repeat first [apply HC | apply HD | appends_step].
Qed.

Lemma appends_backup_and_replace (dl install bdir : string) :
  appends (backup_and_replace dl install bdir).
Proof.
  pose proof (appends_backup install bdir) as HB.
  pose proof (appends_replace_step dl install) as HS.
  pose proof appends_remove as HD.
  unfold backup_and_replace, os_path_isfile.
  repeat first [apply HS | apply HD | appends_step].
Qed.

(** A computation that starts with a step recording [ev] and logging
    nothing, and goes on adding to the log and to the trace. *)
Lemma bind_first {A B} (m : M A) (k : A -> M B) (ev : event) :
  (forall w r w1, m w = (r, w1) ->
     w_log w1 = w_log w /\ w_trace w1 = (w_trace w ++ [ev])%list) ->
  (forall a, appends (k a)) ->
  forall w r w', bind m k w = (r, w') ->
    (exists l, w_log w' = (w_log w ++ l)%list) /\
    (exists evs, w_trace w' = (w_trace w ++ ev :: evs)%list).
Proof.
  intros Hm Hk w r w'. rewrite bind_run.
  destruct (m w) as [[a|e|c] w1] eqn:E; destruct (Hm _ _ _ E) as [L T].
  - intros E'. destruct (Hk _ _ _ _ E') as [[l L'] [evs T']]. split.
    + exists l. now rewrite L', L.
    + exists evs. now rewrite T', T, <- app_assoc.
  - intros [= <- <-]. split; [exists []; now rewrite app_nil_r | now exists []].
  - intros [= <- <-]. split; [exists []; now rewrite app_nil_r | now exists []].
Qed.

(** [install_update] asks for the confirmation before anything else. *)
Lemma install_update_confirms_first (dl install bdir pn : string) (w w' : world)
    (r : res unit) :
  install_update dl install bdir pn w = (r, w') ->
  (exists l, w_log w' = (w_log w ++ l)%list) /\
  (exists evs, w_trace w' = (w_trace w ++ EvConfirm :: evs)%list).
Proof.
  unfold install_update. apply bind_first.
  - intros w0 r0 w1 E. destruct (Flow.confirm_update_keeps _ _ _ E) as (_ & L & T & _).
    now split.
  - intros yes.
    pose proof (appends_terminate pn) as HT. pose proof appends_remove as HD.
    pose proof (appends_backup_and_replace dl install bdir) as HB.
    repeat first [apply HD | appends_step].
Qed.

(** *** An update that goes through *)

(** After a successful backup and a successful replacement the run
    returns with the two closing lines logged; the backup file holds the
    pre-update file and the install path holds the candidate. *)
Lemma backup_and_replace_completes (dl install bdir b : string) (w w1 w2 : world) :
  dl <> install -> dl <> b ->
  is_Some (w_fs w !! install) ->
  backup_file install bdir w = (Ret (Some b), w1) ->
  atomic_replace dl install w1 = (Ret true, w2) ->
  exists w',
    backup_and_replace dl install bdir w = (Ret tt, w') /\
    w_fs w' !! b = w_fs w !! install /\
    w_fs w' !! install = w_fs w !! dl /\
    completed w'.
Proof.
  intros Hne Hnb [fl Hfl] Hb Hr.
  pose proof (Engine.backup_file_ne_src _ _ _ _ _ Hb) as Hbi.
  pose proof Hb as Hb'.
  apply Engine.backup_file_some in Hb' as (Eb & _ & (fl' & Hfl' & Hfs1) & _ & _).
  rewrite Hfl in Hfl'. injection Hfl' as <-.
  destruct (EngineMore.atomic_replace_true _ _ _ _ Hr) as (fc & Hs & Ht & Hd & _ & Hfr & _).
  assert (Hbt : b <> install ++ ".new") by (rewrite Eb; apply Engine.backup_path_not_tmp).
  unfold backup_and_replace.
  rewrite bind_run. unfold os_path_isfile at 1, get at 1.
  rewrite bool_decide_eq_true_2 by eauto.
  rewrite bind_run, bind_run, Hb.
  assert (Htr : Str.truthy (Some b) = true) by (rewrite Eb; apply Engine.backup_path_truthy).
  rewrite Htr. cbn [negb]. unfold ret at 1.
  unfold replace_step. rewrite bind_run, Hr. cbn [negb].
  rewrite bind_run, Orchestrator.swallow_remove_run. cbv zeta.
  assert (Hdl : w_fs w2 !! dl = Some fc) by (rewrite Hfr; auto).
  assert (Hb2 : w_fs w2 !! b = Some fl)
    by (rewrite Hfr, Hfs1 by auto; apply lookup_insert_eq).
  assert (Hc : w_fs w !! dl = Some fc).
  { rewrite Hfs1, lookup_insert_ne in Hs by auto. exact Hs. }
  rewrite Hdl.
  destruct (next_fault ScRemove w2); rewrite bind_run, log_run, log_run;
    eexists; (split; [reflexivity|]); unfold completed, logged, traced; wsimpl;
    rewrite ?lookup_delete_ne by auto; rewrite Hb2, Hd, Hfl, Hc;
    (split; [reflexivity|]); (split; [reflexivity|]);
    eexists; rewrite <- app_assoc; reflexivity.
Qed.

Section Proceeds.

Variable sha256 : string -> string.

(** C10.  When the installed file exists and reading it for the digest
    raises, the error is swallowed: [main] logs "Could not compute current
    executable checksum: OSError" after "Checksum verified." and goes on
    with [install_update], exactly as for an update that is needed, on a
    world where nothing but the log and the fault script of the reads has
    changed.  The next system call of the run is the confirmation.  When
    the user then confirms, the application is stopped, and the backup and
    the replacement go through, the run returns as a completed update: the
    backup holds the pre-update file and the install path holds the
    candidate. *)
Theorem digest_error_proceeds
    (expected new_digest dl install bdir pn : string) (w : world) :
  Str.lower new_digest = Str.lower expected ->
  is_Some (w_fs w !! install) ->
  next_fault ScRead w <> NoFault ->
  exists r w',
    verify_and_install sha256 expected new_digest dl install bdir pn w = (r, w') /\
    install_update dl install bdir pn
      (logged "Could not compute current executable checksum: OSError"
         (drop_fault ScRead (logged "Checksum verified." w))) = (r, w') /\
    (exists l, w_log w' =
       (w_log w ++ "Checksum verified."
                :: "Could not compute current executable checksum: OSError" :: l)%list) /\
    (exists evs, w_trace w' = (w_trace w ++ EvConfirm :: evs)%list) /\
    (forall (w1 w2 w3 w4 : world) (b : string),
       confirm_update
         (logged "Could not compute current executable checksum: OSError"
            (drop_fault ScRead (logged "Checksum verified." w))) = (Ret true, w1) ->
       terminate_process pn w1 = (Ret true, w2) ->
       backup_file install bdir w2 = (Ret (Some b), w3) ->
       atomic_replace dl install w3 = (Ret true, w4) ->
       dl <> install -> dl <> b ->
       r = Ret tt /\ completed w' /\
       w_fs w' !! b = w_fs w !! install /\
       w_fs w' !! install = w_fs w !! dl).
Proof.
  intros He Hi Hn.
  rewrite (Orchestrator.digest_error_swallowed sha256 _ _ dl install bdir pn w He Hi Hn).
  set (W := logged "Could not compute current executable checksum: OSError"
              (drop_fault ScRead (logged "Checksum verified." w))).
  assert (HL : w_log W = (w_log w ++ ["Checksum verified.";
                 "Could not compute current executable checksum: OSError"])%list).
  { unfold W, logged; wsimpl. now rewrite <- app_assoc. }
  assert (HT : w_trace W = w_trace w) by reflexivity.
  assert (HF : w_fs W = w_fs w) by reflexivity.
  clearbody W.
  destruct (install_update dl install bdir pn W) as [r w'] eqn:E.
  exists r, w'. split; [reflexivity|]. split; [reflexivity|].
  destruct (install_update_confirms_first _ _ _ _ _ _ _ E) as [[l L] [evs T]].
  split; [exists l; rewrite L, HL, <- app_assoc; reflexivity|].
  split; [exists evs; now rewrite T, HT|].
  intros w1 w2 w3 w4 b Hc Ht Hb Hr Hne Hnb.
  destruct (Flow.confirm_update_keeps _ _ _ Hc) as (F1 & _).
  destruct (Guard.terminate_process_spec pn w1) as (b0 & w2' & k & Et & _ & _ & F2 & _).
  rewrite Et in Ht. injection Ht as -> ->.
  assert (F : w_fs w2 = w_fs w) by (now rewrite F2, F1, HF).
  rewrite <- F in Hi.
  destruct (backup_and_replace_completes dl install bdir b w2 w3 w4 Hne Hnb Hi Hb Hr)
    as (w'' & E' & G1 & G2 & G3).
  revert E. unfold install_update.
  rewrite bind_run, Hc. cbn [negb]. rewrite bind_run, Et. cbn [negb].
  rewrite E'. intros [= <- <-].
  rewrite <- F. auto.
Qed.

End Proceeds.

Lemma digest_error_proceeds_witness :
  exists w',
    verify_and_install Scenario.digest "new" "NEW" "/tmp/b.exe" "app/Lon.exe" "bk" "Lon.exe"
      Scenario.install_unreadable = (Ret tt, w') /\
    w_fs w' !! "app/Lon.exe" = Some (new_file "NEW") /\
    w_fs w' !! "bk/Lon_20240309_070500.exe" = Some Scenario.old_file.
Proof.
  destruct (digest_error_proceeds Scenario.digest "new" "NEW" "/tmp/b.exe" "app/Lon.exe"
              "bk" "Lon.exe" Scenario.install_unreadable)
    as (r & w' & E & _ & _ & _ & Hend).
  - reflexivity.
  - exists Scenario.old_file. reflexivity.
  - vm_compute. discriminate.
  - destruct (Hend
      (snd (confirm_update
         (logged "Could not compute current executable checksum: OSError"
            (drop_fault ScRead (logged "Checksum verified." Scenario.install_unreadable)))))
      (snd (terminate_process "Lon.exe" (snd (confirm_update
         (logged "Could not compute current executable checksum: OSError"
            (drop_fault ScRead (logged "Checksum verified." Scenario.install_unreadable)))))))
      (snd (backup_file "app/Lon.exe" "bk"
         (snd (terminate_process "Lon.exe" (snd (confirm_update
         (logged "Could not compute current executable checksum: OSError"
            (drop_fault ScRead (logged "Checksum verified." Scenario.install_unreadable)))))))))
      (snd (atomic_replace "/tmp/b.exe" "app/Lon.exe" (snd (backup_file "app/Lon.exe" "bk"
         (snd (terminate_process "Lon.exe" (snd (confirm_update
         (logged "Could not compute current executable checksum: OSError"
            (drop_fault ScRead (logged "Checksum verified." Scenario.install_unreadable)))))))))))
      "bk/Lon_20240309_070500.exe") as (-> & _ & Hb & Hi).
    + apply run_pair. vm_compute. reflexivity.
    + apply run_pair. vm_compute. reflexivity.
    + apply run_pair. vm_compute. reflexivity.
    + apply run_pair. vm_compute. reflexivity.
    + discriminate.
    + discriminate.
    + exists w'. split; [exact E|]. rewrite Hi, Hb. split; reflexivity.
Defined.


(** *** How a run ends *)

Lemma returns_bind {A B} (P : world -> Prop) (m : M A) (k : A -> M B) :
  (forall a, returns P (k a)) -> returns P (bind m k).
Proof.
  intros Hk w b w'. rewrite bind_run.
  destruct (m w) as [[a|e|c] w1]; [apply Hk | discriminate | discriminate].
Qed.

Lemma returns_exit {A} (P : world -> Prop) (c : Z) : returns P (sys_exit (A:=A) c).
Proof. intros w a w'. discriminate. Qed.

Lemma returns_raise {A} (P : world -> Prop) (e : exn) : returns P (raise (A:=A) e).
Proof. intros w a w'. discriminate. Qed.

Lemma returns_closing :
  returns completed
    (log "Update completed successfully.";;;
     log "==========================================").
Proof.
  intros w a w'. rewrite bind_run, log_run, log_run. intros [= _ <-].
  exists (w_log w). unfold logged; wsimpl. now rewrite <- app_assoc.
Qed.

Ltac returns_step :=
  first
    [ exact returns_closing
    | apply returns_exit | apply returns_raise
    | apply returns_bind; intros ?
    | progress cbv zeta
    | match goal with
      | |- returns _ (match ?x with _ => _ end) => destruct x
      end ].

(** [main] returns only after a completed update: every other branch
    ends with [sys.exit]. *)
Lemma main_returns_completed (sha256 : string -> string) :
  returns completed (main sha256).
Proof.
  unfold main, fetch_and_update, verify_and_install, install_update,
    backup_and_replace, replace_step.
  repeat returns_step.
Qed.

(** C9 (as amended).  The exit code does not tell the outcomes apart.
    A run of [main] that starts with an empty log ends with status 0 or 1,
    in one of three ways.  It returns (status 0): then the log ends with
    the two lines of a completed update.  It leaves through [sys.exit]:
    then the code is 0 after the outcome line of AlreadyUpToDate or
    UserDeclined, and 1 after the outcome line of an abort (configuration
    incomplete, reference unavailable, download failed, checksum mismatch,
    process not stopped, backup failed, replacement failed without a
    backup, with a successful rollback or with a failed rollback), or
    when nothing was logged (no configuration file).  Or it ends with an
    exception nobody caught (status 1).  Each of these ends is met: every
    outcome line is the last line of a run exiting with its code, a run
    exits with 1 and an empty log, a run returns, and the run of a user
    who declines while the removal of the candidate fails ends with an
    exception.  So all aborts share the code 1, and the outcome is told
    by the last log line only. *)
Theorem main_exit_codes :
  (forall (sha256 : string -> string) (w w' : world) (r : res unit),
     w_log w = [] ->
     main sha256 w = (r, w') ->
     (exit_status r = 0 \/ exit_status r = 1)%Z /\
     match r with
     | Ret _ => completed w'
     | Exit c => exit_line c (last (w_log w'))
     | Raise _ => True
     end) /\
  (forall line, In line exit0_lines ->
     exists w, w_log w = [] /\ reaches w (Exit 0) (Some line)) /\
  (forall line, In line exit1_lines \/ line = "Rollback failed: OSError" ->
     exists w, w_log w = [] /\ reaches w (Exit 1) (Some line)) /\
  (exists w, w_log w = [] /\ reaches w (Exit 1) None) /\
  (exists w, w_log w = [] /\
     reaches w (Ret tt) (Some "==========================================")) /\
  (exists w, w_log w = [] /\ reaches w (Raise OSError) (Some "User declined update.")).
Proof.
  split; [|split; [|split; [|split; [|split]]]].
  - intros sha256 w w' r Hlog Hrun.
    destruct r as [[]|e|c]; cbn [exit_status].
    + split; [now left|]. exact (main_returns_completed sha256 _ _ _ Hrun).
    + split; [now right | exact I].
    + pose proof (Orchestrator.main_exits_ok sha256 _ _ _ Hlog Hrun) as H.
      split; [|exact H].
      unfold exit_line in H. destruct (last (w_log w')); [|now right].
      destruct H as [[-> _]|[-> _]]; auto.
  - intros line H. unfold exit0_lines in H. cbn [In] in H.
    destruct H as [<-|[<-|[]]].
    + exists Scenario.same_release. split; [reflexivity|]. split; vm_compute; reflexivity.
    + exists Scenario.declines. split; [reflexivity|]. split; vm_compute; reflexivity.
  - intros line [H | ->].
    + unfold exit1_lines in H. cbn [In] in H.
      destruct H as [<-|[<-|[<-|[<-|[<-|[<-|[<-|[<-|[]]]]]]]]].
      * exists Scenario.no_install_path. split; [reflexivity|].
        split; vm_compute; reflexivity.
      * exists Scenario.offline. split; [reflexivity|]. split; vm_compute; reflexivity.
      * exists Scenario.release_not_stored. split; [reflexivity|].
        split; vm_compute; reflexivity.
      * exists Scenario.wrong_reference. split; [reflexivity|].
        split; vm_compute; reflexivity.
      * exists Scenario.kill_fails. split; [reflexivity|]. split; vm_compute; reflexivity.
      * exists Scenario.backup_breaks. split; [reflexivity|].
        split; vm_compute; reflexivity.
      * exists Scenario.first_install_fails. split; [reflexivity|].
        split; vm_compute; reflexivity.
      * exists Scenario.move_fails. split; [reflexivity|]. split; vm_compute; reflexivity.
    + exists Scenario.rollback_fails. split; [reflexivity|]. split; vm_compute; reflexivity.
  - exists Scenario.config_absent. split; [reflexivity|]. split; vm_compute; reflexivity.
  - exists Scenario.fault_free. split; [reflexivity|]. split; vm_compute; reflexivity.
  - exists Scenario.declined_remove_fails. split; [reflexivity|].
    split; vm_compute; reflexivity.
Qed.

Lemma main_exit_codes_witness :
  w_log Scenario.declines = [] /\
  main Scenario.digest Scenario.declines
    = (Exit 0, snd (main Scenario.digest Scenario.declines)) /\
  exit_line 0 (last (w_log (snd (main Scenario.digest Scenario.declines)))).
Proof.
  assert (Hrun : main Scenario.digest Scenario.declines
                 = (Exit 0, snd (main Scenario.digest Scenario.declines)))
    by (apply run_pair; vm_compute; reflexivity).
  split; [reflexivity|]. split; [exact Hrun|].
  exact (proj2 (proj1 main_exit_codes Scenario.digest Scenario.declines _ _ eq_refl Hrun)).
Defined.


End Outcome.
